(** * Titanic Data Chat App: the orchestration of [app.py], embedded in Rocq

    [app.py] is a Streamlit script gluing four third-party services: the
    Pinecone vector index, a HuggingFace sentence embedding model, the
    LangChain PDF loader and text splitter, and the OpenAI chat completion
    API.  The functions of the script are embedded as computations in a
    state-and-exception monad that records every call made to one of these
    services, together with the response received.  The services themselves
    are parameters of the development: all theorems hold whatever they
    answer. *)

From Stdlib Require Import ZArith Ascii String List Decimal DecimalString DecimalNat Lia.
From Stdlib Require QArith.
From stdpp Require Import base gmap strings list.

Local Open Scope string_scope.
Local Open Scope list_scope.

(** ** Python values and exceptions *)

(** The values that can sit in the metadata of an index entry: Pinecone
    accepts strings, numbers, booleans and lists of strings.  A finite
    float is represented by the rational it denotes. *)
Inductive PyVal : Type :=
| VStr (s : string)
| VInt (z : Z)
| VFloat (q : QArith_base.Q)
| VBool (b : bool)
| VList (l : list string).

Inductive Exn : Type :=
| ValueError
| TypeError
| IndexError
| AttributeError (attr : string)
| ServiceError (msg : string).

Inductive Res (A : Type) : Type :=
| Ok (a : A)
| Raise (e : Exn).
Arguments Ok {A} a.
Arguments Raise {A} e.

(** Builtins of the Python runtime whose results are not computed here:
    the text of a float, the reading of an integer literal out of a string
    ([None] when [int] raises [ValueError]) and the [repr] of a list. *)
Record PyBuiltins : Type := {
  float_str : QArith_base.Q -> string;
  int_of_str : string -> option Z;
  list_repr : list string -> string
}.

Definition dec_nat (n : nat) : string := NilEmpty.string_of_uint (Nat.to_uint n).
Definition dec_Z (z : Z) : string := NilZero.string_of_int (Z.to_int z).

(** [int(v)] *)
Definition py_int (py : PyBuiltins) (v : PyVal) : Res Z :=
  match v with
  | VInt z => Ok z
  | VFloat q => Ok (Z.quot (QArith_base.Qnum q) (Z.pos (QArith_base.Qden q)))
  | VBool b => Ok (if b then 1%Z else 0%Z)
  | VStr s => match int_of_str py s with Some z => Ok z | None => Raise ValueError end
  | VList _ => Raise TypeError
  end.

(** [f"{v}"] *)
Definition py_str (py : PyBuiltins) (v : PyVal) : string :=
  match v with
  | VStr s => s
  | VInt z => dec_Z z
  | VFloat q => float_str py q
  | VBool b => if b then "True" else "False"
  | VList l => list_repr py l
  end.

(** [sep.join(parts)] *)
Fixpoint join (sep : string) (parts : list string) : string :=
  match parts with
  | [] => ""
  | [p] => p
  | p :: rest => p +:+ sep +:+ join sep rest
  end.

(** ** Data exchanged with the services *)

(** A LangChain [Document]: a page of the PDF, or a chunk of one. *)
Record Document : Type := {
  page_content : string;
  doc_metadata : list (string * PyVal)
}.

Definition Vector : Type := list QArith_base.Q.

(** The tuple [(id, embedding, metadata)] handed to [index.upsert]. *)
Definition IndexEntry : Type := (string * Vector * gmap string PyVal)%type.

(** A match of a query response; [match_metadata] is [None] when the
    stored entry carries no metadata. *)
Record ScoredMatch : Type := {
  match_id : string;
  match_score : QArith_base.Q;
  match_metadata : option (gmap string PyVal)
}.

Record QueryResponse : Type := { matches : list ScoredMatch }.

Record ServerlessSpec : Type := { cloud : string; region : string }.

(** [{"role": ..., "content": ...}] *)
Record Message : Type := { role : string; content : string }.

Record ChatMessage : Type := { msg_content : option string }.
Record Choice : Type := { message : ChatMessage }.
Record ChatResponse : Type := { choices : list Choice }.

(** The dictionaries [{"Text": ..., "Page": ...}] built by the retriever. *)
Record RelatedSection : Type := { Text : PyVal; Page : PyVal }.

(** Objects owned by the client libraries are opaque references. *)
Inductive PineconeClient : Type := PcRef (n : nat).
Inductive IndexHandle : Type := IndexRef (n : nat).
Inductive EmbHandle : Type := EmbRef (n : nat).
Inductive OpenAIClient : Type := OpenAIRef (n : nat).

(** ** Calls to the third-party libraries *)

Inductive Call : Type -> Type :=
| PineconeNew (api_key : option string) : Call PineconeClient
| ListIndexNames (pc : PineconeClient) : Call (list string)
| CreateIndex (pc : PineconeClient) (name : string) (dimension : Z)
    (metric : string) (spec : ServerlessSpec) : Call unit
| GetIndex (pc : PineconeClient) (name : string) : Call IndexHandle
| PdfLoad (file : string) : Call (list Document)
| SplitDocuments (chunk_size chunk_overlap : Z) (docs : list Document) :
    Call (list Document)
| HFEmbeddingsNew (model_name : string) : Call EmbHandle
| EmbedQuery (h : EmbHandle) (text : string) : Call Vector
| Upsert (index : IndexHandle) (vectors : list IndexEntry) : Call unit
| Query (index : IndexHandle) (vector : Vector) (top_k : Z)
    (include_metadata : bool) : Call QueryResponse
| OpenAINew (api_key : option string) : Call OpenAIClient
| ChatCreate (client : OpenAIClient) (messages : list Message)
    (model : string) : Call ChatResponse.

(** A call together with what the library answered. *)
Inductive Event : Type :=
| Ev {A : Type} (c : Call A) (r : Res A).

Definition failed (e : Event) : option Exn :=
  match e with
  | Ev _ (Raise x) => Some x
  | Ev _ (Ok _) => None
  end.

Definition is_create_index (e : Event) : bool :=
  match e with Ev (CreateIndex _ _ _ _ _) _ => true | _ => false end.
Definition is_list_index_names (e : Event) : bool :=
  match e with Ev (ListIndexNames _) _ => true | _ => false end.
Definition is_pdf_load (e : Event) : bool :=
  match e with Ev (PdfLoad _) _ => true | _ => false end.
Definition is_split (e : Event) : bool :=
  match e with Ev (SplitDocuments _ _ _) _ => true | _ => false end.
Definition is_upsert (e : Event) : bool :=
  match e with Ev (Upsert _ _) _ => true | _ => false end.
Definition is_embed (e : Event) : bool :=
  match e with Ev (EmbedQuery _ _) _ => true | _ => false end.
Definition is_hf_new (e : Event) : bool :=
  match e with Ev (HFEmbeddingsNew _) _ => true | _ => false end.
Definition is_query (e : Event) : bool :=
  match e with Ev (Query _ _ _ _) _ => true | _ => false end.
Definition is_chat (e : Event) : bool :=
  match e with Ev (ChatCreate _ _ _) _ => true | _ => false end.
Definition is_openai_new (e : Event) : bool :=
  match e with Ev (OpenAINew _) _ => true | _ => false end.

(** The calls that only the ingestion of the document makes. *)
Definition is_ingestion_call (e : Event) : bool :=
  is_pdf_load e || is_split e || is_upsert e.

Definition count (p : Event -> bool) (log : list Event) : nat :=
  length (List.filter p log).

(** ** The Streamlit session *)

(** [st.session_state]; a field is [None] while its key is absent.
    [pinecone_index] holds Python's [None] until the start button sets it. *)
Record SessionState : Type := {
  page : option string;
  index_initialized : option bool;
  pinecone_index : option (option IndexHandle);
  embeddings : option EmbHandle
}.

Definition empty_session : SessionState :=
  {| page := None; index_initialized := None;
     pinecone_index := None; embeddings := None |}.

Inductive UiElem : Type :=
| UiTitle (s : string)
| UiMarkdown (s : string)
| UiButton (label : string)
| UiSpinner (text : string)
| UiTextInput (label : string)
| UiWrite (s : string).

(** What the widgets return in one run of the script. *)
Record RunInput : Type := {
  button_clicked : bool;
  text_value : string
}.

Definition dq : string := String (Ascii.ascii_of_nat 34) EmptyString.

Definition landing_title : string :=
  "Welcome to Titanic Data Analysis! 🎉".

Definition landing_markdown : string :=
  "
    🌟 **Hello! Welcome to the Titanic Data Analysis Portal** 🌟

    🚢 Dive into Titanic data and ask your questions to uncover insightful patterns!

    📫 **Get in Touch**:
    - **GitHub**: [@Palak-Bera](https://github.com/Palak-Bera)
    - **LinkedIn**: [@Palak-Bera](https://www.linkedin.com/in/palak-bera)
    - **Email**: [berapalak2001@gmail.com](mailto:berapalak2001@gmail.com)

    🧭 Let's begin our journey with Titanic Data! Click the button below to start exploring. 🚀
    ".

Definition start_button_label : string :=
  "Continue to Titanic Chatbot 💬".

Definition spinner_text : string :=
  "Hang tight! 🚀 We're gearing up your knowledge base...
🔍 Building smart connections for your insights.
This might take a moment—grab a coffee or simply sit back and watch the magic happen! ☕✨".

Definition chatbot_title : string :=
  "Titanic Data Analysis - Query Assistant 🎤".

Definition chatbot_markdown : string :=
  "
    🌟 **Ask your query about Titanic Data** 🌟
    
    🧑‍💻 Type your question about the Titanic dataset below, and I'll help you analyze the data!
    
    ➡️ Type something like " +:+ dq +:+ "What is the survival rate?" +:+ dq +:+ " or " +:+ dq +:+ "How many people were in first class?" +:+ dq +:+ "
    ".

Definition text_input_label : string :=
  "Ask your query about Titanic Data:".


(** ** The monad of the script *)

(** Everything outside the script: how the libraries answer a call in a
    state [World] of the outside, [os.environ] after [load_dotenv()], and
    the builtins of the runtime. *)
Record Env (World : Type) : Type := {
  respond : forall A : Type, Call A -> World -> Res A * World;
  environ : string -> option string;
  py : PyBuiltins
}.
Arguments respond {World} e {A} c w.
Arguments environ {World} e name.
Arguments py {World} e.

Section App.

Context {World : Type} (env : Env World).

Record St : Type := {
  session : SessionState;
  world : World;
  stdout : list string;
  ui : list UiElem
}.

(** A computation returns a value or raises, updates the state, and
    reports the calls it made, oldest first. *)
Definition M (A : Type) : Type := St -> Res A * St * list Event.

Definition ret {A : Type} (a : A) : M A := fun st => (Ok a, st, []).

Definition raise {A : Type} (e : Exn) : M A := fun st => (Raise e, st, []).

Definition bind {A B : Type} (m : M A) (k : A -> M B) : M B :=
  fun st =>
    match m st with
    | (Ok a, st1, l1) =>
        match k a st1 with
        | (r, st2, l2) => (r, st2, l1 ++ l2)
        end
    | (Raise e, st1, l1) => (Raise e, st1, l1)
    end.

Notation "x <- m ;; k" := (bind m (fun x => k))
  (at level 100, m at next level, right associativity).
Notation "m ;;; k" := (bind m (fun _ => k))
  (at level 100, right associativity).

Definition set_world (st : St) (w : World) : St :=
  {| session := session st; world := w; stdout := stdout st; ui := ui st |}.

(** A call is answered by the outside, and logged with its answer. *)
Definition call {A : Type} (c : Call A) : M A :=
  fun st =>
    match respond env c (world st) with
    | (r, w) => (r, set_world st w, [Ev c r])
    end.

Definition print (s : string) : M unit :=
  fun st =>
    (Ok tt, {| session := session st; world := world st;
               stdout := stdout st ++ [s]; ui := ui st |}, []).

Definition render (u : UiElem) : M unit :=
  fun st =>
    (Ok tt, {| session := session st; world := world st;
               stdout := stdout st; ui := ui st ++ [u] |}, []).

Definition get_session : M SessionState := fun st => (Ok (session st), st, []).

Definition set_session (f : SessionState -> SessionState) : M unit :=
  fun st =>
    (Ok tt, {| session := f (session st); world := world st;
               stdout := stdout st; ui := ui st |}, []).

(** [st.session_state.<attr>]: [AttributeError] while the key is absent. *)
Definition attr {A : Type} (name : string) (proj : SessionState -> option A) : M A :=
  ss <- get_session ;;
  match proj ss with
  | Some a => ret a
  | None => raise (AttributeError name)
  end.

(** A method looked up on an object that may be Python's [None]. *)
Definition method_of {A : Type} (obj : option A) (name : string) : M A :=
  match obj with
  | Some a => ret a
  | None => raise (AttributeError name)
  end.

(** ** The functions of [app.py] *)

Definition index_name_const : string := "titanic".

Definition initialize_pinecone : M (PineconeClient * string) :=
  pc <- call (PineconeNew (environ env "PINECONE_API_KEY")) ;;
  let index_name := index_name_const in
  names <- call (ListIndexNames pc) ;;
  (if bool_decide (index_name ∈ names)
   then print "Pinecone index already exists."
   else
     print "Creating Pinecone index..." ;;;
     call (CreateIndex pc index_name 768 "euclidean"
             {| cloud := "aws"; region := "us-east-1" |})) ;;;
  ret (pc, index_name).

Definition reading_document (file : string) : M (list Document) :=
  print "💙 Reading the document..." ;;;
  documents <- call (PdfLoad file) ;;
  ret documents.

Definition chunk_data (docs : list Document) (chunk_size chunk_overlap : Z) :
    M (list Document) :=
  print "💚 Chunking the document..." ;;;
  chunks <- call (SplitDocuments chunk_size chunk_overlap docs) ;;
  ret chunks.

Definition embedding_model : string := "sentence-transformers/all-mpnet-base-v2".

(** [f"chunk-{i}"] *)
Definition chunk_entry_id (i : nat) : string := "chunk-" +:+ dec_nat i.

(** [{"chunk_id": i, "text": chunk_text}] *)
Definition chunk_metadata (i : nat) (chunk_text : string) : gmap string PyVal :=
  {["chunk_id" := VInt (Z.of_nat i); "text" := VStr chunk_text]}.

(** The body of [for i, chunk in enumerate(chunks)], from index [i] on. *)
Fixpoint upload_loop (embeddings : EmbHandle) (index : option IndexHandle)
    (i : nat) (chunks : list Document) : M unit :=
  match chunks with
  | [] => ret tt
  | chunk :: rest =>
      print ("❤️ Processing chunk " +:+ dec_nat i +:+ "...") ;;;
      let chunk_text := page_content chunk in
      embedding <- call (EmbedQuery embeddings chunk_text) ;;
      let metadata := chunk_metadata i chunk_text in
      idx <- method_of index "upsert" ;;
      call (Upsert idx [(chunk_entry_id i, embedding, metadata)]) ;;;
      upload_loop embeddings index (S i) rest
  end.

Definition generate_and_upload_embeddings (chunks : list Document)
    (index : option IndexHandle) : M unit :=
  embeddings <- call (HFEmbeddingsNew embedding_model) ;;
  upload_loop embeddings index 0 chunks ;;;
  print "📌 All sections successfully uploaded to Pinecone!".

(** [metadata.get(key, default)] *)
Definition dict_get (metadata : gmap string PyVal) (key : string) (default : PyVal) : PyVal :=
  match metadata !! key with
  | Some v => v
  | None => default
  end.

(** The body of [for match in response['matches']]; [results] is the list
    built so far. *)
Fixpoint collect_matches (ms : list ScoredMatch) (results : list RelatedSection) :
    M (list RelatedSection) :=
  match ms with
  | [] => ret results
  | m :: rest =>
      metadata <- method_of (match_metadata m) "get" ;;
      collect_matches rest
        (results ++ [{| Text := dict_get metadata "text" (VStr "");
                        Page := dict_get metadata "chunk_id" (VInt (-1)) |}])
  end.

Definition retrieve_related_sections (user_query : string) (embeddings : EmbHandle)
    (index : option IndexHandle) : M (list RelatedSection) :=
  query_vector <- call (EmbedQuery embeddings user_query) ;;
  idx <- method_of index "query" ;;
  response <- call (Query idx query_vector 5 true) ;;
  collect_matches (matches response) [].

(** [f"Page {int(res['Page'])}:\n{res['Text']}"] *)
Definition nl : string := String (Ascii.ascii_of_nat 10) EmptyString.

Definition render_section (page : Z) (text : string) : string :=
  "Page " +:+ dec_Z page +:+ ":" +:+ nl +:+ text.

(** The list comprehension of [generate_response]: [int] may raise. *)
Fixpoint section_texts (relevant_sections : list RelatedSection) : M (list string) :=
  match relevant_sections with
  | [] => ret []
  | res :: rest =>
      match py_int (py env) (Page res) with
      | Ok p =>
          tl <- section_texts rest ;;
          ret (render_section p (py_str (py env) (Text res)) :: tl)
      | Raise e => raise e
      end
  end.

Definition build_prompt (context user_query : string) : string :=
  "
        You are a knowledgeable assistant specializing in Titanic Data Analysis.
        Use the following context information to address the user's query.

        Context:
        " +:+ context +:+ "

        User Query:
        " +:+ user_query +:+ "

        Generate a clear, precise, and actionable response.
    ".

Definition chat_model : string := "gpt-4o-mini".

Definition generate_response (user_query : string)
    (relevant_sections : list RelatedSection) : M (option string) :=
  parts <- section_texts relevant_sections ;;
  let context := join (nl +:+ nl) parts in
  let prompt := build_prompt context user_query in
  client <- call (OpenAINew (environ env "OPENAI_API_KEY")) ;;
  response <- call (ChatCreate client [{| role := "user"; content := prompt |}] chat_model) ;;
  match choices response with
  | c :: _ => ret (msg_content (message c))
  | [] => raise IndexError
  end.

Definition no_sections_message : string := "No relevant sections found.".

(** The answer is a string, or whatever [generate_response] returned. *)
Definition get_result (user_query : string) (embeddings : EmbHandle)
    (index : option IndexHandle) : M (option string) :=
  relevant_sections <- retrieve_related_sections user_query embeddings index ;;
  match relevant_sections with
  | [] => ret (Some no_sections_message)
  | _ :: _ => generate_response user_query relevant_sections
  end.

(** ** The script, run once per interaction *)

Definition knowledge_base_file : string := "Knowledge_base/titanic_final_eda.pdf".

Definition set_page (p : string) (s : SessionState) : SessionState :=
  {| page := Some p; index_initialized := index_initialized s;
     pinecone_index := pinecone_index s; embeddings := embeddings s |}.
Definition set_index_initialized (b : bool) (s : SessionState) : SessionState :=
  {| page := page s; index_initialized := Some b;
     pinecone_index := pinecone_index s; embeddings := embeddings s |}.
Definition set_pinecone_index (i : option IndexHandle) (s : SessionState) : SessionState :=
  {| page := page s; index_initialized := index_initialized s;
     pinecone_index := Some i; embeddings := embeddings s |}.
Definition set_embeddings (e : EmbHandle) (s : SessionState) : SessionState :=
  {| page := page s; index_initialized := index_initialized s;
     pinecone_index := pinecone_index s; embeddings := Some e |}.

(** [f"{final_answer}"] *)
Definition answer_str (a : option string) : string :=
  match a with
  | Some s => s
  | None => "None"
  end.

(** Lines 110-118: defaults of the session. *)
Definition init_session : M unit :=
  ss <- get_session ;;
  (match page ss with
   | None =>
       set_session (set_page "first_page") ;;;
       set_session (set_index_initialized false)
   | Some _ => ret tt
   end) ;;;
  ss <- get_session ;;
  (match pinecone_index ss with
   | None => set_session (set_pinecone_index None)
   | Some _ => ret tt
   end) ;;;
  ss <- get_session ;;
  match embeddings ss with
  | None =>
      e <- call (HFEmbeddingsNew embedding_model) ;;
      set_session (set_embeddings e)
  | Some _ => ret tt
  end.

(** Lines 138-148: what a click on the start button runs. *)
Definition start_action : M unit :=
  render (UiSpinner spinner_text) ;;;
  pcn <- initialize_pinecone ;;
  h <- call (GetIndex (fst pcn) (snd pcn)) ;;
  set_session (set_pinecone_index (Some h)) ;;;
  initialized <- attr "index_initialized" index_initialized ;;
  (if negb initialized
   then
     doc <- reading_document knowledge_base_file ;;
     chunks <- chunk_data doc 1000 50 ;;
     index <- attr "pinecone_index" pinecone_index ;;
     generate_and_upload_embeddings chunks index ;;;
     set_session (set_index_initialized true)
   else ret tt) ;;;
  set_session (set_page "chatbot").

(** Lines 120-148. *)
Definition first_page (inp : RunInput) : M unit :=
  p <- attr "page" page ;;
  if String.eqb p "first_page"
  then
    render (UiTitle landing_title) ;;;
    render (UiMarkdown landing_markdown) ;;;
    render (UiButton start_button_label) ;;;
    if button_clicked inp then start_action else ret tt
  else ret tt.

(** Lines 150-164. *)
Definition chatbot_page (inp : RunInput) : M unit :=
  p <- attr "page" page ;;
  if String.eqb p "chatbot"
  then
    render (UiTitle chatbot_title) ;;;
    render (UiMarkdown chatbot_markdown) ;;;
    render (UiTextInput text_input_label) ;;;
    let user_query := text_value inp in
    if negb (String.eqb user_query "")
    then
      e <- attr "embeddings" embeddings ;;
      index <- attr "pinecone_index" pinecone_index ;;
      final_answer <- get_result user_query e index ;;
      render (UiWrite ("Response: " +:+ answer_str final_answer))
    else ret tt
  else ret tt.

Definition run_script (inp : RunInput) : M unit :=
  init_session ;;;
  first_page inp ;;;
  chatbot_page inp.

(** Streamlit reruns the script on every interaction, on a blank screen
    and with the session state the previous run left, also when that run
    ended in an exception (which it displays). *)
Definition blank_screen (st : St) : St :=
  {| session := session st; world := world st; stdout := stdout st; ui := [] |}.

Fixpoint run_session (inps : list RunInput) (st : St) : St * list Event :=
  match inps with
  | [] => (st, [])
  | inp :: rest =>
      match run_script inp (blank_screen st) with
      | (_, st1, l1) =>
          match run_session rest st1 with
          | (st2, l2) => (st2, l1 ++ l2)
          end
      end
  end.

Definition new_session (w : World) : St :=
  {| session := empty_session; world := w; stdout := []; ui := [] |}.

End App.

(** ** Vocabulary of the statements *)

(** The two calls made for chunk number [i] when neither fails. *)
Definition chunk_events (h : EmbHandle) (idx : IndexHandle) (i : nat)
    (chunk : Document) (v : Vector) : list Event :=
  [Ev (EmbedQuery h (page_content chunk)) (Ok v);
   Ev (Upsert idx [(chunk_entry_id i, v, chunk_metadata i (page_content chunk))]) (Ok tt)].

Fixpoint ok_events (h : EmbHandle) (idx : IndexHandle) (i : nat)
    (cvs : list (Document * Vector)) : list Event :=
  match cvs with
  | [] => []
  | (chunk, v) :: rest => chunk_events h idx i chunk v ++ ok_events h idx (S i) rest
  end.

(** The calls made for chunk number [i] when its embedding or its upsert
    raises [x]. *)
Inductive fails_at (h : EmbHandle) (idx : IndexHandle) (i : nat)
    (chunk : Document) (x : Exn) : list Event -> Prop :=
| embed_fails :
    fails_at h idx i chunk x [Ev (EmbedQuery h (page_content chunk)) (Raise x)]
| upsert_fails (v : Vector) :
    fails_at h idx i chunk x
      [Ev (EmbedQuery h (page_content chunk)) (Ok v);
       Ev (Upsert idx [(chunk_entry_id i, v, chunk_metadata i (page_content chunk))])
          (Raise x)].

(** The pair the retriever makes of the metadata of a match. *)
Definition section_of_metadata (md : gmap string PyVal) : RelatedSection :=
  {| Text := dict_get md "text" (VStr "");
     Page := dict_get md "chunk_id" (VInt (-1)) |}.

Definition embed_handle (e : Event) : option EmbHandle :=
  match e with
  | Ev (EmbedQuery h _) _ => Some h
  | _ => None
  end.

Definition constructed_handle (e : Event) : option EmbHandle :=
  match e with
  | Ev c r =>
      match c in Call A return Res A -> option EmbHandle with
      | HFEmbeddingsNew _ => fun r => match r with Ok h => Some h | Raise _ => None end
      | _ => fun _ => None
      end r
  end.

(** The handles on which [embed_query] is called, and the handles built. *)
Definition embed_handles (log : list Event) : list EmbHandle := omap embed_handle log.
Definition constructed_handles (log : list Event) : list EmbHandle :=
  omap constructed_handle log.

(** One embedding handle for the whole session: built once, and used by
    every embedding call, of the ingestion and of the retriever alike. *)
Definition single_shared_handle (log : list Event) : Prop :=
  exists h, constructed_handles log = [h] /\ Forall (eq h) (embed_handles log).

(** The event neither builds an embedding handle nor embeds with a handle
    other than [h]. *)
Definition uses_handle (h : EmbHandle) (ev : Event) : Prop :=
  constructed_handle ev = None
  /\ forall h', embed_handle ev = Some h' -> h = h'.

Definition index_dimension : Z := 768.

(** Every model asked for is the one sentence embedding model, every index
    created has 768 dimensions, and so has every vector sent to the index. *)
Definition dimensions_agree (e : Event) : Prop :=
  match e with
  | Ev (HFEmbeddingsNew m) _ => m = embedding_model
  | Ev (CreateIndex _ _ d _ _) _ => d = index_dimension
  | Ev (Upsert _ vectors) _ =>
      Forall (fun entry : IndexEntry => Z.of_nat (length (snd (fst entry))) = index_dimension)
        vectors
  | Ev (Query _ v _ _) _ => Z.of_nat (length v) = index_dimension
  | _ => True
  end.

(** The vectors an event hands to the index, in an upsert or in a query. *)
Definition event_vectors (e : Event) : list Vector :=
  match e with
  | Ev (Upsert _ entries) _ => (fun entry : IndexEntry => snd (fst entry)) <$> entries
  | Ev (Query _ v _ _) _ => [v]
  | _ => []
  end.

(** The vector an embedding call returned. *)
Definition returned_vector (e : Event) : option Vector :=
  match e with
  | Ev c r =>
      match c in Call A return Res A -> option Vector with
      | EmbedQuery _ _ => fun r => match r with Ok v => Some v | Raise _ => None end
      | _ => fun _ => None
      end r
  end.

(** The dimension an event asks a new index to have. *)
Definition created_dimension (e : Event) : option Z :=
  match e with
  | Ev (CreateIndex _ _ d _ _) _ => Some d
  | _ => None
  end.

(** The vectors sent to the index, the vectors the model returned and the
    dimensions of the indexes created, in the order of the log. *)
Definition sent_vectors (log : list Event) : list Vector := concat (event_vectors <$> log).
Definition returned_vectors (log : list Event) : list Vector := omap returned_vector log.
Definition created_dimensions (log : list Event) : list Z := omap created_dimension log.

(** The embedding model returns vectors of 768 numbers. *)
Definition embeds_768 {World : Type} (env : Env World) : Prop :=
  forall (h : EmbHandle) (text : string) (w : World) (v : Vector) (w' : World),
    respond env (EmbedQuery h text) w = (Ok v, w') ->
    Z.of_nat (length v) = index_dimension.

(** What the script relies on from the index service: an index that was
    created, or that was listed, is listed by the next listing. [listed w n]
    says that the service in state [w] has an index named [n]. *)
Record index_service {World : Type} (env : Env World)
    (listed : World -> string -> Prop) : Prop := {
  new_client_keeps : forall key w r w' n,
    respond env (PineconeNew key) w = (r, w') -> listed w n -> listed w' n;
  listing_is_exact : forall pc w names w' n,
    respond env (ListIndexNames pc) w = (Ok names, w') -> (n ∈ names <-> listed w n);
  listing_keeps : forall pc w r w' n,
    respond env (ListIndexNames pc) w = (r, w') -> listed w n -> listed w' n;
  create_lists : forall pc n d m s w w',
    respond env (CreateIndex pc n d m s) w = (Ok tt, w') -> listed w' n
}.

(** [emits P m]: every call that [m] makes, with its answer, satisfies [P]. *)
Definition emits {World A : Type} (P : Event -> Prop) (m : @M World A) : Prop :=
  forall st r st' log, m st = (r, st', log) -> Forall P log.

(** [keeps_session m]: [m] does not assign to the session state. *)
Definition keeps_session {World A : Type} (m : @M World A) : Prop :=
  forall st r st' log, m st = (r, st', log) -> session st' = session st.

Definition not_ingestion (ev : Event) : Prop := is_ingestion_call ev = false.

(** The session before the start button has been handled to the end: no
    page yet, or the landing page with the index not marked as built. *)
Definition landing (ss : SessionState) : Prop :=
  page ss = None
  \/ (page ss = Some "first_page" /\ index_initialized ss = Some false).

Definition no_click (inp : RunInput) : Prop := button_clicked inp = false.

(** ** The chunker of the specification *)

Module SpecChunker.

(** Modelled from the spec: the characters of a text.  A Python string is a
    sequence of characters; here it is the bytes of its UTF-8 encoding, in
    which a character is one byte that is not a continuation byte
    (10xxxxxx) followed by its continuation bytes. *)
Definition is_continuation (b : ascii) : bool :=
  match b with
  | Ascii _ _ _ _ _ _ b6 b7 => b7 && negb b6
  end.

(** [characters_from cur s]: the characters of [s], after the bytes [cur]
    of the character being read. *)
Fixpoint characters_from (cur : string) (s : string) : list string :=
  match s with
  | EmptyString => [cur]
  | String b rest =>
      if is_continuation b
      then characters_from (cur +:+ String b EmptyString) rest
      else cur :: characters_from (String b EmptyString) rest
  end.

Definition characters (s : string) : list string :=
  match s with
  | EmptyString => []
  | String b rest => characters_from (String b EmptyString) rest
  end.

(** [len(s)] *)
Definition char_length (s : string) : nat := length (characters s).

Definition text_of (cs : list string) : string := String.concat "" cs.

(** Modelled from the spec: the text splitter is LangChain's
    [RecursiveCharacterTextSplitter], which is not part of the repository.
    The specification describes it as a sliding window of [chunk_size]
    characters, with [chunk_overlap] characters shared between consecutive
    windows, operating per page and preserving the order. *)
Fixpoint windows {A : Type} (fuel chunk_size chunk_overlap : nat) (text : list A) :
    list (list A) :=
  match fuel with
  | O => []
  | S fuel' =>
      if Nat.leb (length text) chunk_size
      then [text]
      else take chunk_size text
             :: windows fuel' chunk_size chunk_overlap (drop (chunk_size - chunk_overlap) text)
  end.

(** Modelled from the spec: the windows of one page text, as strings; an
    empty text has no window. *)
Definition split_text (chunk_size chunk_overlap : nat) (text : string) : list string :=
  let chars := characters text in
  text_of <$> windows (length chars) chunk_size chunk_overlap chars.

(** Modelled from the spec: [split_documents] of the absent splitter,
    page by page, each chunk keeping the metadata of its page. *)
Definition split_documents (chunk_size chunk_overlap : nat) (docs : list Document) :
    list Document :=
  flat_map
    (fun page =>
       (fun t => {| page_content := t; doc_metadata := doc_metadata page |})
         <$> split_text chunk_size chunk_overlap (page_content page))
    docs.

(** The characters two consecutive chunks share: the end of the first is
    the beginning of the second. *)
Definition share (n : nat) (c1 c2 : string) : Prop :=
  let l1 := characters c1 in
  let l2 := characters c2 in
  n <= length l1 /\ n <= length l2 /\ drop (length l1 - n) l1 = take n l2.

Fixpoint consecutive_share (n : nat) (chunks : list string) : Prop :=
  match chunks with
  | c1 :: ((c2 :: _) as rest) => share n c1 c2 /\ consecutive_share n rest
  | _ => True
  end.

(** A list of characters: every element is a byte followed by
    continuation bytes, and all but the first start with a byte that is
    not a continuation byte. *)
Definition continuations (t : string) : Prop :=
  Forall (fun b => is_continuation b = true) (list_ascii_of_string t).

Definition char_shaped (c : string) : Prop :=
  exists b t, c = String b t /\ continuations t.

Definition char_led (c : string) : Prop :=
  match c with
  | String b _ => is_continuation b = false
  | EmptyString => False
  end.

Definition well_formed (cs : list string) : Prop :=
  Forall char_shaped cs /\ Forall char_led (tail cs).

End SpecChunker.

(** ** A small world to run the script in *)

Module Demo.

(** The index service keeps the names of its indexes and the entries
    upserted, newest first; it refuses an upsert once [upsert_quota]
    entries are stored.  Every object built gets a fresh reference.  The
    pages are short, and the splitter returns them as they are. *)
Record World : Type := {
  indexes : list string;
  store : list IndexEntry;
  next_ref : nat;
  upsert_quota : nat
}.

Definition fresh (w : World) : World :=
  {| indexes := indexes w; store := store w;
     next_ref := S (next_ref w); upsert_quota := upsert_quota w |}.

Definition add_index (n : string) (w : World) : World :=
  {| indexes := n :: indexes w; store := store w;
     next_ref := next_ref w; upsert_quota := upsert_quota w |}.

Definition add_entries (es : list IndexEntry) (w : World) : World :=
  {| indexes := indexes w; store := es ++ store w;
     next_ref := next_ref w; upsert_quota := upsert_quota w |}.

Definition pages : list Document :=
  [ {| page_content := "The overall survival rate was about 38 percent.";
       doc_metadata := [("page", VInt 0)] |};
    {| page_content := "First class carried 216 passengers.";
       doc_metadata := [("page", VInt 1)] |} ].

Definition vector_of (text : string) : Vector :=
  replicate 768 (QArith_base.Qmake (Z.of_nat (String.length text)) 1).

Definition match_of (include_metadata : bool) (entry : IndexEntry) : ScoredMatch :=
  {| match_id := fst (fst entry);
     match_score := QArith_base.Qmake 0 1;
     match_metadata := if include_metadata then Some (snd entry) else None |}.

Definition answer : string := "About 38 percent of the passengers survived.".

Definition answer_call (A : Type) (c : Call A) (w : World) : Res A * World :=
  match c in Call A return Res A * World with
  | PineconeNew _ => (Ok (PcRef (next_ref w)), fresh w)
  | ListIndexNames _ => (Ok (indexes w), w)
  | CreateIndex _ n _ _ _ =>
      if bool_decide (n ∈ indexes w)
      then (Raise (ServiceError "ALREADY_EXISTS"), w)
      else (Ok tt, add_index n w)
  | GetIndex _ n =>
      if bool_decide (n ∈ indexes w)
      then (Ok (IndexRef (next_ref w)), fresh w)
      else (Raise (ServiceError "NOT_FOUND"), w)
  | PdfLoad _ => (Ok pages, w)
  | SplitDocuments _ _ docs => (Ok docs, w)
  | HFEmbeddingsNew _ => (Ok (EmbRef (next_ref w)), fresh w)
  | EmbedQuery _ text => (Ok (vector_of text), w)
  | Upsert _ vectors =>
      if Nat.ltb (length (store w)) (upsert_quota w)
      then (Ok tt, add_entries vectors w)
      else (Raise (ServiceError "RESOURCE_EXHAUSTED"), w)
  | Query _ _ top_k include_metadata =>
      (Ok {| matches := match_of include_metadata <$> take (Z.to_nat top_k) (store w) |}, w)
  | OpenAINew _ => (Ok (OpenAIRef (next_ref w)), fresh w)
  | ChatCreate _ _ _ =>
      (Ok {| choices := [{| message := {| msg_content := Some answer |} |}] |}, w)
  end.

Definition builtins : PyBuiltins :=
  {| float_str := fun q =>
       dec_Z (Z.quot (QArith_base.Qnum q) (Z.pos (QArith_base.Qden q))) +:+ ".0";
     int_of_str := fun _ => None;
     list_repr := fun _ => "[]" |}.

Definition env : Env World :=
  {| respond := answer_call;
     environ := fun _ => Some "demo-key";
     py := builtins |}.

Definition listed (w : World) (n : string) : Prop := n ∈ indexes w.

(** A service that has no index yet. *)
Definition world0 : World :=
  {| indexes := []; store := []; next_ref := 0; upsert_quota := 100 |}.

(** A service that accepts a single entry. *)
Definition world_quota1 : World :=
  {| indexes := ["titanic"]; store := []; next_ref := 0; upsert_quota := 1 |}.

(** An index that holds an entry which another program wrote, without
    the metadata of this one. *)
Definition world_foreign : World :=
  {| indexes := ["titanic"];
     store := [("doc-1", vector_of "x", {["source" := VStr "elsewhere"]})];
     next_ref := 0; upsert_quota := 100 |}.

(** A page of 2200 characters. *)
Definition page_2200 : Document :=
  {| page_content := string_of_list_ascii (replicate 2200 "a"%char);
     doc_metadata := [("page", VInt 0)] |}.

(** A page of 2200 characters of two bytes each. *)
Definition page_2200_accented : Document :=
  {| page_content := String.concat "" (replicate 2200 "é");
     doc_metadata := [("page", VInt 0)] |}.

Definition load : RunInput := {| button_clicked := false; text_value := "" |}.
Definition click : RunInput := {| button_clicked := true; text_value := "" |}.
Definition ask (q : string) : RunInput := {| button_clicked := false; text_value := q |}.

Definition session_log : list Event :=
  snd (run_session env [load; click; ask "What is the survival rate?"] (new_session world0)).

End Demo.

(** ** Further vocabulary *)

(** The ids of the entries handed to [index.upsert], call after call. *)
Definition upsert_entry_ids (ev : Event) : list string :=
  match ev with
  | Ev (Upsert _ vectors) _ => (fun entry : IndexEntry => fst (fst entry)) <$> vectors
  | _ => []
  end.

Definition upsert_ids (log : list Event) : list string :=
  flat_map upsert_entry_ids log.



(** The metadata of chunk [i] as the index service returns it when it
    stores numbers as floats: [chunk_id] comes back as the float [i.0]. *)
Definition chunk_metadata_as_float (i : nat) (chunk_text : string) : gmap string PyVal :=
  {["chunk_id" := VFloat (QArith_base.Qmake (Z.of_nat i) 1); "text" := VStr chunk_text]}.

(** The session on the query page, with everything a query needs. *)
Definition ready (ss : SessionState) : Prop :=
  page ss = Some "chatbot"
  /\ index_initialized ss = Some true
  /\ (exists h, pinecone_index ss = Some (Some h))
  /\ (exists e, embeddings ss = Some e).

(** What a session can look like between two runs of the script. *)
Definition session_ok (ss : SessionState) : Prop :=
  ss = empty_session
  \/ (page ss = Some "first_page" /\ index_initialized ss = Some false
      /\ is_Some (pinecone_index ss))
  \/ ready ss.

(** The constants of the script, as they show in its calls. *)
Definition fixed_config {World : Type} (env : Env World) (ev : Event) : Prop :=
  match ev with
  | Ev (PineconeNew key) _ => key = environ env "PINECONE_API_KEY"
  | Ev (CreateIndex _ name dimension metric spec) _ =>
      name = "titanic" /\ dimension = 768%Z /\ metric = "euclidean"
      /\ spec = {| cloud := "aws"; region := "us-east-1" |}
  | Ev (GetIndex _ name) _ => name = "titanic"
  | Ev (PdfLoad file) _ => file = "Knowledge_base/titanic_final_eda.pdf"
  | Ev (SplitDocuments chunk_size chunk_overlap _) _ =>
      chunk_size = 1000%Z /\ chunk_overlap = 50%Z
  | Ev (HFEmbeddingsNew model_name) _ =>
      model_name = "sentence-transformers/all-mpnet-base-v2"
  | Ev (Upsert _ vectors) _ => length vectors = 1
  | Ev (Query _ _ top_k include_metadata) _ => top_k = 5%Z /\ include_metadata = true
  | Ev (OpenAINew key) _ => key = environ env "OPENAI_API_KEY"
  | Ev (ChatCreate _ messages model) _ =>
      model = "gpt-4o-mini" /\ exists prompt, messages = [{| role := "user"; content := prompt |}]
  | _ => True
  end.

(** The widgets of the query page, before any answer. *)
Definition query_screen : list UiElem :=
  [UiTitle chatbot_title; UiMarkdown chatbot_markdown; UiTextInput text_input_label].

Definition on_query_screen {World : Type} (st : @St World) : @St World :=
  {| session := session st; world := world st; stdout := stdout st;
     ui := query_screen |}.

Definition add_ui {World : Type} (u : UiElem) (st : @St World) : @St World :=
  {| session := session st; world := world st; stdout := stdout st;
     ui := ui st ++ [u] |}.

(** The calls that answering a question makes. *)
Definition is_question_call (ev : Event) : bool :=
  is_embed ev || is_query ev || is_openai_new ev || is_chat ev.

(** ** More of the small world: services that fail *)

Module Faults.

(** An index service that returns its matches without their metadata. *)
Definition answer_bare (A : Type) (c : Call A) (w : Demo.World) : Res A * Demo.World :=
  match c in Call A return Res A * Demo.World with
  | Query _ _ top_k _ =>
      (Ok {| matches := Demo.match_of false <$> take (Z.to_nat top_k) (Demo.store w) |}, w)
  | c' => Demo.answer_call _ c' w
  end.

Definition env_bare : Env Demo.World :=
  {| respond := answer_bare;
     environ := fun _ => Some "demo-key";
     py := Demo.builtins |}.



(** The index after the two pages were ingested; the entry of the first
    page comes back with its chunk number as a float. *)
Definition world_ingested : Demo.World :=
  {| Demo.indexes := ["titanic"];
     Demo.store :=
       [("chunk-1", Demo.vector_of "First class carried 216 passengers.",
         chunk_metadata 1 "First class carried 216 passengers.");
        ("chunk-0", Demo.vector_of "The overall survival rate was about 38 percent.",
         chunk_metadata_as_float 0 "The overall survival rate was about 38 percent.")];
     Demo.next_ref := 4; Demo.upsert_quota := 100 |}.

(** An index that holds, between the entries of the two pages, an entry
    which another program wrote, without the metadata of this one. *)
Definition world_mixed : Demo.World :=
  {| Demo.indexes := ["titanic"];
     Demo.store :=
       [("chunk-1", Demo.vector_of "First class carried 216 passengers.",
         chunk_metadata 1 "First class carried 216 passengers.");
        ("doc-1", Demo.vector_of "x", {["source" := VStr "elsewhere"]});
        ("chunk-0", Demo.vector_of "The overall survival rate was about 38 percent.",
         chunk_metadata 0 "The overall survival rate was about 38 percent.")];
     Demo.next_ref := 4; Demo.upsert_quota := 100 |}.

(** The session after the landing page was loaded, on a service that
    accepts a single entry. *)
Definition landed_quota1 : St :=
  fst (run_session Demo.env [Demo.load] (new_session Demo.world_quota1)).

(** The session after loading, clicking and asking a question. *)
Definition asked : St :=
  fst (run_session Demo.env
         [Demo.load; Demo.click; Demo.ask "What is the survival rate?"]
         (new_session Demo.world0)).

End Faults.

(** * Verification *)

Section Verification.

Context {World : Type} (env : Env World).

Implicit Types (st : @St World) (log : list Event) (e : EmbHandle) (idx : IndexHandle).

Local Abbreviation emits := (@emits World _) (only parsing).
Local Abbreviation keeps_session := (@keeps_session World _) (only parsing).

(** ** Reasoning about computations *)

Lemma bind_inv {A B : Type} (m : @M World A) (k : A -> @M World B) st r st' log :
  bind m k st = (r, st', log) ->
  (exists a st1 l1 l2,
      m st = (Ok a, st1, l1) /\ k a st1 = (r, st', l2) /\ log = l1 ++ l2)
  \/ (exists x, m st = (Raise x, st', log) /\ r = Raise x).
Proof.
  unfold bind. destruct (m st) as [[[a|x] st1] l1].
  - destruct (k a st1) as [[r2 st2] l2] eqn:Hk. intros [= <- <- <-].
    left. by exists a, st1, l1, l2.
  - intros [= <- <- <-]. right. by exists x.
Qed.

Lemma emits_bind {A B : Type} P (m : @M World A) (k : A -> @M World B) :
  emits P m -> (forall a, emits P (k a)) -> emits P (bind m k).
Proof.
  intros Hm Hk st r st' log H.
  apply bind_inv in H as [(a & st1 & l1 & l2 & H1 & H2 & ->)|(x & H1 & _)].
  - apply Forall_app. split; [by eapply Hm | by eapply Hk].
  - by eapply Hm.
Qed.

Lemma emits_ret {A : Type} P (a : A) : emits P (ret a).
Proof. intros st r st' log [= <- <- <-]. constructor. Qed.

Lemma emits_raise {A : Type} P (x : Exn) : emits P (@raise World A x).
Proof. intros st r st' log [= <- <- <-]. constructor. Qed.

Lemma emits_print P (s : string) : emits P (print s).
Proof. intros st r st' log [= <- <- <-]. constructor. Qed.

Lemma emits_render P (u : UiElem) : emits P (render u).
Proof. intros st r st' log [= <- <- <-]. constructor. Qed.

Lemma emits_get_session P : emits P get_session.
Proof. intros st r st' log [= <- <- <-]. constructor. Qed.

Lemma emits_set_session P f : emits P (set_session f).
Proof. intros st r st' log [= <- <- <-]. constructor. Qed.

Lemma emits_call {A : Type} (P : Event -> Prop) (c : Call A) :
  (forall r, P (Ev c r)) -> emits P (call env c).
Proof.
  intros Hc st r st' log. unfold call.
  destruct (respond env c (world st)) as [r1 w]. intros [= <- <- <-].
  by repeat constructor.
Qed.

Lemma emits_method_of {A : Type} P (obj : option A) (name : string) :
  emits P (method_of obj name).
Proof. destruct obj; [apply emits_ret | apply emits_raise]. Qed.

Lemma emits_attr {A : Type} P (name : string) (proj : SessionState -> option A) :
  emits P (attr name proj).
Proof.
  apply emits_bind; [apply emits_get_session|]. intros ss.
  destruct (proj ss); [apply emits_ret | apply emits_raise].
Qed.

Lemma keeps_bind {A B : Type} (m : @M World A) (k : A -> @M World B) :
  keeps_session m -> (forall a, keeps_session (k a)) -> keeps_session (bind m k).
Proof.
  intros Hm Hk st r st' log H.
  apply bind_inv in H as [(a & st1 & l1 & l2 & H1 & H2 & ->)|(x & H1 & _)].
  - rewrite (Hk _ _ _ _ _ H2). by eapply Hm.
  - by eapply Hm.
Qed.

Lemma keeps_ret {A : Type} (a : A) : keeps_session (ret a).
Proof. by intros st r st' log [= <- <- <-]. Qed.

Lemma keeps_raise {A : Type} (x : Exn) : keeps_session (@raise World A x).
Proof. by intros st r st' log [= <- <- <-]. Qed.

Lemma keeps_print (s : string) : keeps_session (print s).
Proof. by intros st r st' log [= <- <- <-]. Qed.

Lemma keeps_render (u : UiElem) : keeps_session (render u).
Proof. by intros st r st' log [= <- <- <-]. Qed.

Lemma keeps_get_session : keeps_session get_session.
Proof. by intros st r st' log [= <- <- <-]. Qed.

Lemma keeps_call {A : Type} (c : Call A) : keeps_session (call env c).
Proof.
  intros st r st' log. unfold call.
  destruct (respond env c (world st)) as [r1 w]. by intros [= <- <- <-].
Qed.

Lemma keeps_method_of {A : Type} (obj : option A) (name : string) :
  keeps_session (method_of obj name).
Proof. destruct obj; [apply keeps_ret | apply keeps_raise]. Qed.

Lemma keeps_attr {A : Type} (name : string) (proj : SessionState -> option A) :
  keeps_session (attr name proj).
Proof.
  apply keeps_bind; [apply keeps_get_session|]. intros ss.
  destruct (proj ss); [apply keeps_ret | apply keeps_raise].
Qed.

Create HintDb effects.
#[local] Hint Resolve emits_ret emits_raise emits_print emits_render
  emits_get_session emits_set_session emits_method_of emits_attr
  keeps_ret keeps_raise keeps_print keeps_render keeps_get_session
  keeps_call keeps_method_of keeps_attr : effects.

(** Splits a sequence of binds into its steps. *)
Ltac effects :=
  repeat match goal with
    | |- emits _ (bind _ _) => apply emits_bind; [|intros ?]
    | |- keeps_session (bind _ _) => apply keeps_bind; [|intros ?]
    | |- emits _ (call _ _) => apply emits_call; intros ?; simpl; auto
    | |- emits _ _ => solve [eauto with effects]
    | |- keeps_session _ => solve [eauto with effects]
    end.

Lemma count_app p log1 log2 : count p (log1 ++ log2) = count p log1 + count p log2.
Proof. unfold count. by rewrite List.filter_app, length_app. Qed.

Lemma count_none p log : Forall (fun ev => p ev = false) log -> count p log = 0.
Proof.
  unfold count. induction 1 as [|ev log Hev _ IH]; [done|].
  simpl. by rewrite Hev.
Qed.

Lemma count_none_inv p log : count p log = 0 -> Forall (fun ev => p ev = false) log.
Proof.
  unfold count. induction log as [|ev log IH]; [constructor|].
  simpl. destruct (p ev) eqn:Hev; [discriminate|]. intros H. constructor; auto.
Qed.

(** ** The retriever *)

Lemma collect_matches_ok (ms : list ScoredMatch) :
  forall (mds : list (gmap string PyVal)) (acc : list RelatedSection) st,
    match_metadata <$> ms = Some <$> mds ->
    collect_matches ms acc st = (Ok (acc ++ (section_of_metadata <$> mds)), st, []).
Proof.
  induction ms as [|m ms IH]; intros mds acc st Hmd.
  - destruct mds; [|discriminate]. simpl. by rewrite app_nil_r.
  - destruct mds as [|md mds]; [discriminate|].
    simpl in Hmd. injection Hmd as Hm Hms.
    simpl. unfold bind, method_of. rewrite Hm. simpl.
    rewrite (IH mds _ st Hms). simpl.
    by rewrite <- app_assoc.
Qed.

Lemma retrieve_ok (q : string) e idx st v w1 resp w2 mds :
  respond env (EmbedQuery e q) (world st) = (Ok v, w1) ->
  respond env (Query idx v 5 true) w1 = (Ok resp, w2) ->
  match_metadata <$> matches resp = Some <$> mds ->
  retrieve_related_sections env q e (Some idx) st =
    (Ok (section_of_metadata <$> mds), set_world st w2,
     [Ev (EmbedQuery e q) (Ok v); Ev (Query idx v 5 true) (Ok resp)]).
Proof.
  intros He Hq Hmd.
  unfold retrieve_related_sections, bind, call, method_of, ret.
  rewrite He. simpl. rewrite Hq. simpl.
  by rewrite (collect_matches_ok _ mds [] _ Hmd).
Qed.

(** C4. The retriever embeds the query, asks the index once for the 5
    nearest entries with their metadata, and returns one pair per match, in
    the order of the response: the pair at rank [i] has the "text" of the
    metadata of the match at rank [i] (the empty string without one) and
    its "chunk_id" (-1 without one) as the page.  No match gives the empty
    list, not an error. *)
Theorem retrieve_related_sections_spec (q : string) e idx st v w1 resp w2 mds :
  respond env (EmbedQuery e q) (world st) = (Ok v, w1) ->
  respond env (Query idx v 5 true) w1 = (Ok resp, w2) ->
  match_metadata <$> matches resp = Some <$> mds ->
  exists secs : list RelatedSection,
    retrieve_related_sections env q e (Some idx) st =
      (Ok secs, set_world st w2,
       [Ev (EmbedQuery e q) (Ok v); Ev (Query idx v 5 true) (Ok resp)])
    /\ length secs = length (matches resp)
    /\ (forall (i : nat) (m : ScoredMatch),
          matches resp !! i = Some m ->
          exists (md : gmap string PyVal) (s : RelatedSection),
            match_metadata m = Some md
            /\ secs !! i = Some s
            /\ Text s = default (VStr "") (md !! "text")
            /\ Page s = default (VInt (-1)) (md !! "chunk_id"))
    /\ (matches resp = [] -> secs = []).
Proof.
  intros He Hq Hmd. exists (section_of_metadata <$> mds).
  split; [exact (retrieve_ok q e idx st v w1 resp w2 mds He Hq Hmd)|].
  assert (Hlen : length mds = length (matches resp)).
  { apply (f_equal length) in Hmd. by rewrite !length_fmap in Hmd. }
  split; [by rewrite length_fmap|]. split.
  - intros i m Hi.
    assert (Hm : (match_metadata <$> matches resp) !! i = Some (match_metadata m))
      by (by rewrite list_lookup_fmap, Hi).
    rewrite Hmd, list_lookup_fmap in Hm.
    destruct (mds !! i) as [md|] eqn:Hmdi; [|discriminate Hm].
    injection Hm as Hm. exists md, (section_of_metadata md).
    split; [done|]. split; [by rewrite list_lookup_fmap, Hmdi|].
    unfold section_of_metadata, dict_get. simpl.
    by destruct (md !! "text"), (md !! "chunk_id").
  - intros Hnone. rewrite Hnone in Hlen. by destruct mds.
Qed.

Lemma collect_matches_emits P (ms : list ScoredMatch) :
  forall acc, emits P (collect_matches (World:=World) ms acc).
Proof. induction ms as [|m ms IH]; intros acc; simpl; effects. Qed.

Lemma retrieve_emits (P : Event -> Prop) (q : string) e index :
  (forall r, P (Ev (EmbedQuery e q) r)) ->
  (forall i v r, P (Ev (Query i v 5 true) r)) ->
  emits P (retrieve_related_sections env q e index).
Proof.
  intros He Hq. unfold retrieve_related_sections. effects.
  apply collect_matches_emits.
Qed.

Lemma collect_matches_keeps (ms : list ScoredMatch) :
  forall acc, keeps_session (collect_matches (World:=World) ms acc).
Proof. induction ms as [|m ms IH]; intros acc; simpl; effects. Qed.

Lemma retrieve_keeps (q : string) e index :
  keeps_session (retrieve_related_sections env q e index).
Proof. unfold retrieve_related_sections. effects. apply collect_matches_keeps. Qed.

(** C10. A match whose metadata has no "text" gives the empty text, one
    whose metadata has no "chunk_id" gives the page -1, and neither makes
    the retriever fail. *)
Theorem retrieve_missing_fields (q : string) e idx st v w1 resp w2 mds :
  respond env (EmbedQuery e q) (world st) = (Ok v, w1) ->
  respond env (Query idx v 5 true) w1 = (Ok resp, w2) ->
  match_metadata <$> matches resp = Some <$> mds ->
  exists secs,
    fst (fst (retrieve_related_sections env q e (Some idx) st)) = Ok secs
    /\ length secs = length (matches resp)
    /\ forall (i : nat) (md : gmap string PyVal),
         mds !! i = Some md ->
         exists s, secs !! i = Some s
           /\ (md !! "text" = None -> Text s = VStr "")
           /\ (md !! "chunk_id" = None -> Page s = VInt (-1))
           /\ (forall t, md !! "text" = Some t -> Text s = t)
           /\ (forall c, md !! "chunk_id" = Some c -> Page s = c).
Proof.
  intros He Hq Hmd. exists (section_of_metadata <$> mds).
  rewrite (retrieve_ok q e idx st v w1 resp w2 mds He Hq Hmd). simpl.
  split; [done|]. split.
  - rewrite length_fmap. apply (f_equal length) in Hmd.
    by rewrite !length_fmap in Hmd.
  - intros i md Hi. exists (section_of_metadata md).
    rewrite list_lookup_fmap, Hi. split; [done|].
    unfold section_of_metadata, dict_get; simpl.
    repeat split; intros; match goal with H : _ !! _ = _ |- _ => by rewrite H end.
Qed.

(** ** The answer *)

(** C2. When the retriever returns no section, [get_result] returns the
    fixed message, and no call goes to the chat completion service. *)
Theorem get_result_no_sections (q : string) e index st st' log :
  retrieve_related_sections env q e index st = (Ok [], st', log) ->
  get_result env q e index st = (Ok (Some "No relevant sections found."), st', log)
  /\ count is_chat log = 0 /\ count is_openai_new log = 0.
Proof.
  intros H. split.
  - unfold get_result, bind. rewrite H. simpl. by rewrite app_nil_r.
  - split; apply count_none;
      refine (retrieve_emits _ q e index _ _ st _ _ _ H); done.
Qed.

Lemma section_texts_ok (secs : list RelatedSection) :
  forall (pts : list (Z * string)) st,
    Forall2 (fun s pt => py_int (py env) (Page s) = Ok pt.1
                         /\ py_str (py env) (Text s) = pt.2) secs pts ->
    section_texts env secs st = (Ok ((fun pt => render_section pt.1 pt.2) <$> pts), st, []).
Proof.
  induction secs as [|s secs IH]; intros pts st Hpts.
  - by apply Forall2_nil_inv_l in Hpts as ->.
  - apply Forall2_cons_inv_l in Hpts as (pt & pts' & [Hp Ht] & Hrest & ->).
    simpl. rewrite Hp. unfold bind. rewrite (IH pts' st Hrest). simpl.
    by rewrite Ht.
Qed.

Lemma join_concat (sep : string) (parts : list string) :
  join sep parts = String.concat sep parts.
Proof.
  induction parts as [|p parts IH]; [done|].
  destruct parts as [|p' parts]; [done|].
  change (p +:+ sep +:+ join sep (p' :: parts)
          = p +:+ sep +:+ String.concat sep (p' :: parts)).
  by rewrite IH.
Qed.

(** C6. From sections whose texts are strings and whose pages are whole
    numbers (integers, or the floats of integers that the index returns),
    [generate_response] joins the texts "Page p:", line break, text with
    blank lines into the context, puts the context and the query into the
    prompt template, sends the prompt as the single user message of one
    request to "gpt-4o-mini", and returns the content of the first choice
    as it is. *)
Theorem generate_response_spec (q : string) (secs : list RelatedSection)
    (pts : list (Z * string)) st client w1 resp w2 c cs :
  Forall2 (fun s pt => Text s = VStr pt.2
                       /\ (Page s = VInt pt.1
                           \/ Page s = VFloat (QArith_base.Qmake pt.1 1))) secs pts ->
  let context :=
    String.concat "

"
      ((fun pt => "Page " +:+ NilZero.string_of_int (Z.to_int pt.1) +:+ ":
" +:+ pt.2) <$> pts) in
  let prompt :=
    "
        You are a knowledgeable assistant specializing in Titanic Data Analysis.
        Use the following context information to address the user's query.

        Context:
        " +:+ context +:+ "

        User Query:
        " +:+ q +:+ "

        Generate a clear, precise, and actionable response.
    " in
  let request :=
    ChatCreate client [{| role := "user"; content := prompt |}] "gpt-4o-mini" in
  respond env (OpenAINew (environ env "OPENAI_API_KEY")) (world st) = (Ok client, w1) ->
  respond env request w1 = (Ok resp, w2) ->
  choices resp = c :: cs ->
  let log := snd (generate_response env q secs st) in
  generate_response env q secs st =
    (Ok (msg_content (message c)), set_world st w2,
     [Ev (OpenAINew (environ env "OPENAI_API_KEY")) (Ok client); Ev request (Ok resp)])
  /\ count is_chat log = 1.
Proof.
  intros Hsecs context prompt request Hnew Hchat Hchoice log.
  assert (Hpts : Forall2 (fun s pt => py_int (py env) (Page s) = Ok pt.1
                                      /\ py_str (py env) (Text s) = pt.2) secs pts).
  { eapply Forall2_impl; [exact Hsecs|]. intros s pt [Ht Hp]. rewrite Ht.
    split; [|done]. destruct Hp as [-> | ->]; [done|].
    unfold py_int. cbn [QArith_base.Qnum QArith_base.Qden]. by rewrite Z.quot_1_r. }
  assert (Hprompt :
    build_prompt (join (nl +:+ nl) ((fun pt => render_section pt.1 pt.2) <$> pts)) q
    = prompt).
  { unfold build_prompt. by rewrite join_concat. }
  assert (Hrun : generate_response env q secs st =
    (Ok (msg_content (message c)), set_world st w2,
     [Ev (OpenAINew (environ env "OPENAI_API_KEY")) (Ok client); Ev request (Ok resp)])).
  { unfold generate_response, bind. rewrite (section_texts_ok secs pts st Hpts).
    cbv zeta. rewrite Hprompt.
    unfold call, chat_model. rewrite Hnew. cbv beta iota.
    change (world (set_world st w1)) with w1.
    fold request. rewrite Hchat. cbv beta iota. rewrite Hchoice. reflexivity. }
  split; [exact Hrun|]. unfold log. by rewrite Hrun.
Qed.

(** ** The ingestion *)

Lemma upload_loop_shape (h : EmbHandle) idx (chunks : list Document) :
  forall (i : nat) st r st' log,
    upload_loop env h (Some idx) i chunks st = (r, st', log) ->
    (r = Ok tt
     /\ exists vs, length vs = length chunks
                   /\ log = ok_events h idx i (zip chunks vs))
    \/ (exists (k : nat) (chunk : Document) (vs : list Vector) (x : Exn) (tail : list Event),
          chunks !! k = Some chunk /\ length vs = k /\ r = Raise x
          /\ fails_at h idx (i + k) chunk x tail
          /\ log = ok_events h idx i (zip (take k chunks) vs) ++ tail).
Proof.
  induction chunks as [|chunk rest IH]; intros i st r st' log H.
  - injection H as <- <- <-. left. split; [done|]. by exists [].
  - simpl in H. unfold bind, print, call, method_of, ret in H. simpl in H.
    destruct (respond env (EmbedQuery h (page_content chunk)) (world st))
      as [[v|x] w1] eqn:He; simpl in H.
    2:{ injection H as <- <- <-. right.
        exists 0, chunk, [], x, [Ev (EmbedQuery h (page_content chunk)) (Raise x)].
        rewrite Nat.add_0_r. repeat split; constructor. }
    destruct (respond env (Upsert idx _) w1) as [[[]|x] w2] eqn:Hu; simpl in H.
    2:{ injection H as <- <- <-. right.
        exists 0, chunk, [], x. eexists.
        rewrite Nat.add_0_r. do 3 (split; [done|]).
        split; [apply (upsert_fails _ _ _ _ _ v)|done]. }
    match type of H with
    | context [upload_loop env h (Some idx) (S i) rest ?s] =>
        destruct (upload_loop env h (Some idx) (S i) rest s) as [[r1 st1] l1] eqn:Hrest
    end.
    injection H as <- <- <-.
    apply IH in Hrest as [[-> (vs & Hlen & ->)]|(k & c & vs & x & tail & Hk & Hlen & -> & Hf & ->)].
    + left. split; [done|]. exists (v :: vs). simpl. split; [by rewrite Hlen|done].
    + right. exists (S k), c, (v :: vs), x, tail.
      replace (i + S k) with (S i + k) by lia. simpl.
      split; [done|]. split; [by rewrite Hlen|]. done.
Qed.

Lemma ingestion_shape (chunks : list Document) idx st r st' log :
  generate_and_upload_embeddings env chunks (Some idx) st = (r, st', log) ->
  (exists x, r = Raise x /\ log = [Ev (HFEmbeddingsNew embedding_model) (Raise x)])
  \/ exists h : EmbHandle,
      (r = Ok tt
       /\ exists vs, length vs = length chunks
            /\ log = Ev (HFEmbeddingsNew embedding_model) (Ok h)
                       :: ok_events h idx 0 (zip chunks vs))
      \/ (exists (k : nat) (chunk : Document) (vs : list Vector) (x : Exn) (tail : list Event),
            chunks !! k = Some chunk /\ length vs = k /\ r = Raise x
            /\ fails_at h idx k chunk x tail
            /\ log = Ev (HFEmbeddingsNew embedding_model) (Ok h)
                       :: ok_events h idx 0 (zip (take k chunks) vs) ++ tail).
Proof.
  unfold generate_and_upload_embeddings. intros H.
  apply bind_inv in H as [(h & st1 & l1 & l2 & Hnew & H & ->)|(x & Hnew & ->)].
  - unfold call in Hnew.
    destruct (respond env (HFEmbeddingsNew embedding_model) (world st)) as [r0 w0].
    injection Hnew as -> <- <-. right. exists h.
    apply bind_inv in H as [([] & st2 & l3 & l4 & Hloop & Hprint & ->)|(x & Hloop & ->)].
    + injection Hprint as <- <- <-. rewrite app_nil_r.
      apply upload_loop_shape in Hloop
        as [[_ (vs & Hlen & ->)]|(k & c & vs & x & tail & _ & _ & [=] & _)].
      left. split; [done|]. by exists vs.
    + apply upload_loop_shape in Hloop
        as [[[=] _]|(k & c & vs & x' & tail & Hk & Hlen & [= ->] & Hf & ->)].
      right. by exists k, c, vs, x', tail.
  - unfold call in Hnew.
    destruct (respond env (HFEmbeddingsNew embedding_model) (world st)) as [r0 w0].
    injection Hnew as -> <- <-. left. by exists x.
Qed.

Lemma ok_events_length (h : EmbHandle) idx (cvs : list (Document * Vector)) :
  forall i, length (ok_events h idx i cvs) = 2 * length cvs.
Proof. induction cvs as [|[c v] cvs IH]; intros i; simpl; [done|]. rewrite IH. lia. Qed.

Lemma ok_events_upserts (h : EmbHandle) idx (cvs : list (Document * Vector)) :
  forall i, count is_upsert (ok_events h idx i cvs) = length cvs.
Proof.
  induction cvs as [|[c v] cvs IH]; intros i; [done|].
  simpl. unfold count in *. simpl. by rewrite IH.
Qed.

Lemma ok_events_succeed (h : EmbHandle) idx (cvs : list (Document * Vector)) :
  forall i, Forall (fun ev => failed ev = None) (ok_events h idx i cvs).
Proof.
  induction cvs as [|[c v] cvs IH]; intros i; simpl; [constructor|].
  repeat constructor. apply IH.
Qed.

Lemma ok_events_lookup (h : EmbHandle) idx (cvs : list (Document * Vector)) :
  forall (i j : nat) (c : Document) (v : Vector),
    cvs !! j = Some (c, v) ->
    ok_events h idx i cvs !! (2 * j) = Some (Ev (EmbedQuery h (page_content c)) (Ok v))
    /\ ok_events h idx i cvs !! (S (2 * j)) =
         Some (Ev (Upsert idx [(chunk_entry_id (i + j), v,
                                chunk_metadata (i + j) (page_content c))]) (Ok tt)).
Proof.
  induction cvs as [|[c0 v0] cvs IH]; intros i j c v Hj; [done|].
  destruct j as [|j].
  - injection Hj as -> ->. rewrite Nat.add_0_r. by split.
  - simpl in Hj. destruct (IH (S i) j c v Hj) as [H1 H2].
    replace (2 * S j) with (S (S (2 * j))) by lia.
    replace (i + S j) with (S i + j) by lia. by split.
Qed.


Lemma last_failure (l pre post : list Event) (z ev : Event) (x : Exn) :
  Forall (fun a => failed a = None) l ->
  failed ev = Some x ->
  l ++ [z] = pre ++ ev :: post ->
  pre = l /\ ev = z /\ post = [].
Proof.
  intros Hl Hev. revert pre.
  induction Hl as [|a l Ha _ IH]; intros pre Heq.
  - destruct pre as [|b pre]; simpl in Heq.
    + injection Heq as <- <-. done.
    + injection Heq as _ Heq. by destruct pre.
  - destruct pre as [|b pre]; simpl in Heq.
    + injection Heq as <- _. congruence.
    + injection Heq as <- Heq. destruct (IH pre Heq) as (-> & -> & ->). done.
Qed.

(** C7. When the embedding or the upsert of a chunk raises, that call is
    the last one of the ingestion (no later chunk, no second attempt), the
    ingestion raises the same exception, and every call before it had
    succeeded: the handle, then the chunks before the failing one, each
    embedded and upserted, in order. *)
Theorem ingestion_failure_aborts (chunks : list Document) idx st r st' log
    (pre post : list Event) (ev : Event) (x : Exn) :
  generate_and_upload_embeddings env chunks (Some idx) st = (r, st', log) ->
  log = pre ++ ev :: post ->
  is_embed ev || is_upsert ev = true ->
  failed ev = Some x ->
  r = Raise x
  /\ post = []
  /\ Forall (fun a => failed a = None) pre
  /\ exists (h : EmbHandle) (k : nat) (chunk : Document) (vs : list Vector) (tail : list Event),
       chunks !! k = Some chunk /\ length vs = k
       /\ fails_at h idx k chunk x tail
       /\ pre ++ [ev] =
            Ev (HFEmbeddingsNew embedding_model) (Ok h)
              :: ok_events h idx 0 (zip (take k chunks) vs) ++ tail.
Proof.
  intros H Hlog Hkind Hfail.
  apply ingestion_shape in H
    as [(x0 & -> & ->)|(h & [[_ (vs & Hlen & ->)]|(k & c & vs & x0 & tail & Hk & Hlen & -> & Hf & ->)])].
  - destruct pre as [|b pre]; simpl in Hlog.
    + injection Hlog as <- _. discriminate.
    + injection Hlog as _ Hlog. by destruct pre.
  - exfalso.
    assert (Hall : Forall (fun a => failed a = None)
                     (Ev (HFEmbeddingsNew embedding_model) (Ok h)
                        :: ok_events h idx 0 (zip chunks vs)))
      by (constructor; [done|apply ok_events_succeed]).
    rewrite Hlog in Hall. apply Forall_app in Hall as [_ Hall].
    apply Forall_cons in Hall as [Hev _]. congruence.
  - set (oks := ok_events h idx 0 (zip (take k chunks) vs)) in *.
    assert (Hoks : Forall (fun a => failed a = None)
                     (Ev (HFEmbeddingsNew embedding_model) (Ok h) :: oks))
      by (constructor; [done|apply ok_events_succeed]).
    destruct Hf as [|v].
    + change (Ev ?a ?b :: oks ++ [?z]) with ((Ev a b :: oks) ++ [z]) in Hlog.
      destruct (last_failure _ _ _ _ _ _ Hoks Hfail Hlog) as (-> & -> & ->).
      injection Hfail as ->.
      split; [done|]. split; [done|]. split; [done|].
      exists h, k, c, vs. eexists. split; [done|]. split; [done|].
      split; [apply embed_fails|done].
    + assert (Hoks' : Forall (fun a => failed a = None)
                ((Ev (HFEmbeddingsNew embedding_model) (Ok h) :: oks)
                   ++ [Ev (EmbedQuery h (page_content c)) (Ok v)]))
        by (apply Forall_app; split; [done|by repeat constructor]).
      change (Ev ?a ?b :: oks ++ [?y; ?z]) with (Ev a b :: oks ++ [y] ++ [z]) in Hlog.
      rewrite app_assoc, app_comm_cons in Hlog.
      destruct (last_failure _ _ _ _ _ _ Hoks' Hfail Hlog) as (-> & -> & ->).
      injection Hfail as ->.
      split; [done|]. split; [done|]. split; [done|].
      exists h, k, c, vs. eexists. split; [done|]. split; [done|].
      split; [apply (upsert_fails _ _ _ _ _ v)|].
      simpl. by rewrite <- app_assoc.
Qed.

(** ** The index provisioner *)

Lemma initialize_pinecone_keeps : keeps_session (initialize_pinecone env).
Proof. unfold initialize_pinecone. effects. case_bool_decide; effects. Qed.

Lemma initialize_pinecone_emits (P : Event -> Prop) :
  (forall key r, P (Ev (PineconeNew key) r)) ->
  (forall pc r, P (Ev (ListIndexNames pc) r)) ->
  (forall pc r, P (Ev (CreateIndex pc "titanic" 768 "euclidean"
                         {| cloud := "aws"; region := "us-east-1" |}) r)) ->
  emits P (initialize_pinecone env).
Proof.
  intros Hn Hl Hc. unfold initialize_pinecone. effects.
  case_bool_decide; effects.
Qed.

Lemma initialize_pinecone_first st r st' log :
  initialize_pinecone env st = (r, st', log) ->
  exists resp rest, log = Ev (PineconeNew (environ env "PINECONE_API_KEY")) resp :: rest.
Proof.
  unfold initialize_pinecone. intros H.
  apply bind_inv in H as [(pc & st1 & l1 & l2 & Hnew & _ & ->)|(x & Hnew & ->)];
    unfold call in Hnew;
    destruct (respond env (PineconeNew _) (world st)) as [r0 w0];
    injection Hnew as -> <- <-; by eexists _, _.
Qed.

Lemma initialize_pinecone_lists (listed : World -> string -> Prop) st pc n st' log :
  index_service env listed ->
  initialize_pinecone env st = (Ok (pc, n), st', log) ->
  n = "titanic" /\ listed (world st') "titanic".
Proof.
  intros Hsvc H.
  unfold initialize_pinecone, bind, call, print, ret in H. simpl in H.
  destruct (respond env (PineconeNew _) (world st)) as [[pc0|x] w0]; [|discriminate].
  simpl in H.
  destruct (respond env (ListIndexNames pc0) w0) as [[names|x] w1] eqn:Hlist;
    [|discriminate].
  simpl in H. case_bool_decide as Hin; simpl in H.
  - injection H as <- <- <- <-. split; [done|]. simpl.
    eapply (listing_keeps _ _ Hsvc); [exact Hlist|].
    by apply (listing_is_exact _ _ Hsvc _ _ _ _ _ Hlist).
  - destruct (respond env (CreateIndex pc0 _ _ _ _) w1) as [[[]|x] w2] eqn:Hcreate;
      [|discriminate].
    simpl in H. injection H as <- <- <- <-. split; [done|]. simpl.
    by apply (create_lists _ _ Hsvc _ _ _ _ _ _ _ Hcreate).
Qed.

Lemma initialize_pinecone_existing (listed : World -> string -> Prop) st r st' log :
  index_service env listed ->
  listed (world st) "titanic" ->
  initialize_pinecone env st = (r, st', log) ->
  count is_create_index log = 0
  /\ forall pc n, r = Ok (pc, n) -> n = "titanic".
Proof.
  intros Hsvc Hl H.
  unfold initialize_pinecone, bind, call, print, ret in H. simpl in H.
  destruct (respond env (PineconeNew _) (world st)) as [[pc0|x] w0] eqn:Hnew;
    simpl in H.
  2:{ injection H as <- <- <-. split; [done|]. discriminate. }
  apply (new_client_keeps _ _ Hsvc _ _ _ _ _ Hnew) in Hl.
  destruct (respond env (ListIndexNames pc0) w0) as [[names|x] w1] eqn:Hlist;
    simpl in H.
  2:{ injection H as <- <- <-. split; [done|]. discriminate. }
  apply (listing_is_exact _ _ Hsvc _ _ _ _ _ Hlist) in Hl.
  rewrite bool_decide_eq_true_2 in H by exact Hl. simpl in H.
  injection H as <- <- <-. split; [done|]. by intros pc n [= _ <-].
Qed.

(** C5. On a service that lists the indexes it has, a second call of the
    provisioner, after a first one that returned, creates no index and
    returns the same index name, "titanic". *)
Theorem initialize_pinecone_idempotent (listed : World -> string -> Prop)
    st pc1 n1 st1 log1 r2 st2 log2 :
  index_service env listed ->
  initialize_pinecone env st = (Ok (pc1, n1), st1, log1) ->
  initialize_pinecone env st1 = (r2, st2, log2) ->
  count is_create_index log2 = 0
  /\ forall pc2 n2, r2 = Ok (pc2, n2) -> n2 = n1.
Proof.
  intros Hsvc H1 H2.
  destruct (initialize_pinecone_lists listed _ _ _ _ _ Hsvc H1) as [-> Hl].
  exact (initialize_pinecone_existing listed _ _ _ _ Hsvc Hl H2).
Qed.

(** ** The session *)

Lemma upload_loop_emits (P : Event -> Prop) (h : EmbHandle) (index : option IndexHandle)
    (chunks : list Document) :
  (forall t r, P (Ev (EmbedQuery h t) r)) ->
  (forall i vs r, P (Ev (Upsert i vs) r)) ->
  forall i, emits P (upload_loop env h index i chunks).
Proof.
  intros He Hu. induction chunks as [|c rest IH]; intros i; simpl; effects.
Qed.

Lemma upload_loop_keeps (h : EmbHandle) (index : option IndexHandle)
    (chunks : list Document) :
  forall i, keeps_session (upload_loop env h index i chunks).
Proof. induction chunks as [|c rest IH]; intros i; simpl; effects. Qed.

Lemma ingestion_emits (P : Event -> Prop) (chunks : list Document)
    (index : option IndexHandle) :
  (forall r, P (Ev (HFEmbeddingsNew embedding_model) r)) ->
  (forall h t r, P (Ev (EmbedQuery h t) r)) ->
  (forall i vs r, P (Ev (Upsert i vs) r)) ->
  emits P (generate_and_upload_embeddings env chunks index).
Proof.
  intros Hn He Hu. unfold generate_and_upload_embeddings. effects.
  by apply upload_loop_emits.
Qed.

Lemma ingestion_keeps (chunks : list Document) (index : option IndexHandle) :
  keeps_session (generate_and_upload_embeddings env chunks index).
Proof.
  unfold generate_and_upload_embeddings. effects. apply upload_loop_keeps.
Qed.

Lemma section_texts_emits P (secs : list RelatedSection) :
  emits P (section_texts env secs).
Proof.
  induction secs as [|s secs IH]; simpl; effects.
  destruct (py_int _ _); effects.
Qed.

Lemma section_texts_keeps (secs : list RelatedSection) :
  keeps_session (section_texts env secs).
Proof.
  induction secs as [|s secs IH]; simpl; effects.
  destruct (py_int _ _); effects.
Qed.

Lemma generate_response_emits (P : Event -> Prop) (q : string) (secs : list RelatedSection) :
  (forall key r, P (Ev (OpenAINew key) r)) ->
  (forall c ms r, P (Ev (ChatCreate c ms chat_model) r)) ->
  emits P (generate_response env q secs).
Proof.
  intros Hn Hc. unfold generate_response. effects.
  - apply section_texts_emits.
  - destruct (choices _); effects.
Qed.

Lemma generate_response_keeps (q : string) (secs : list RelatedSection) :
  keeps_session (generate_response env q secs).
Proof.
  unfold generate_response. effects.
  - apply section_texts_keeps.
  - destruct (choices _); effects.
Qed.

Lemma get_result_emits (P : Event -> Prop) (q : string) e index :
  (forall r, P (Ev (EmbedQuery e q) r)) ->
  (forall i v r, P (Ev (Query i v 5 true) r)) ->
  (forall key r, P (Ev (OpenAINew key) r)) ->
  (forall c ms r, P (Ev (ChatCreate c ms chat_model) r)) ->
  emits P (get_result env q e index).
Proof.
  intros He Hq Hn Hc. unfold get_result. effects.
  - by apply retrieve_emits.
  - match goal with |- emits _ (match ?l with _ => _ end) => destruct l end;
      effects. by apply generate_response_emits.
Qed.

Lemma get_result_keeps (q : string) e index :
  keeps_session (get_result env q e index).
Proof.
  unfold get_result. effects.
  - apply retrieve_keeps.
  - match goal with |- keeps_session (match ?l with _ => _ end) => destruct l end;
      effects. apply generate_response_keeps.
Qed.

(** The query page makes the calls of [get_result] on the handle of the
    session, and leaves the session as it is. *)
Lemma chatbot_page_emits (P : Event -> Prop) (inp : RunInput) :
  (forall h t r, P (Ev (EmbedQuery h t) r)) ->
  (forall i v r, P (Ev (Query i v 5 true) r)) ->
  (forall key r, P (Ev (OpenAINew key) r)) ->
  (forall c ms r, P (Ev (ChatCreate c ms chat_model) r)) ->
  emits P (chatbot_page env inp).
Proof.
  intros He Hq Hn Hc. unfold chatbot_page. effects.
  destruct (String.eqb _ _); effects.
  destruct (negb _); effects. by apply get_result_emits.
Qed.

Lemma chatbot_page_keeps (inp : RunInput) : keeps_session (chatbot_page env inp).
Proof.
  unfold chatbot_page. effects.
  destruct (String.eqb _ _); effects.
  destruct (negb _); effects. apply get_result_keeps.
Qed.

Lemma render_inv (u : UiElem) st r st' log :
  render u st = (r, st', log) -> r = Ok tt /\ log = [] /\ session st' = session st.
Proof. by intros [= <- <- <-]. Qed.

Lemma set_session_inv (f : SessionState -> SessionState) st r st' log :
  set_session f st = (r, st', log) ->
  r = Ok tt /\ log = [] /\ session st' = f (session st).
Proof. by intros [= <- <- <-]. Qed.

Lemma attr_inv {A : Type} (name : string) (proj : SessionState -> option A) st r st' log :
  attr name proj st = (r, st', log) ->
  log = [] /\ st' = st
  /\ r = match proj (session st) with
         | Some a => Ok a
         | None => Raise (AttributeError name)
         end.
Proof.
  unfold attr, bind, get_session. simpl.
  destruct (proj (session st)); by intros [= <- <- <-].
Qed.

Lemma call_inv {A : Type} (c : Call A) st r st' log :
  call env c st = (r, st', log) -> log = [Ev c r] /\ session st' = session st.
Proof.
  unfold call. destruct (respond env c (world st)) as [r0 w0].
  by intros [= <- <- <-].
Qed.

Tactic Notation "binv" hyp(H) "as" ident(a) ident(s) ident(Hm) :=
  let Heq := fresh "Heq" in
  apply bind_inv in H as [(a & s & ? & ? & Hm & H & ->)|(? & H & Heq)];
  [|try (injection Heq as <-); try subst].

Lemma count_nil p : count p [] = 0.
Proof. done. Qed.

Lemma reading_document_inv (file : string) st r st' log :
  reading_document env file st = (r, st', log) ->
  session st' = session st /\ exists r0, log = [Ev (PdfLoad file) r0].
Proof.
  unfold reading_document, bind, print, call, ret. simpl.
  destruct (respond env (PdfLoad file) (world st)) as [[docs|x] w0];
    intros [= <- <- <-]; split; try done; by eexists.
Qed.

Lemma chunk_data_inv (docs : list Document) (size overlap : Z) st r st' log :
  chunk_data env docs size overlap st = (r, st', log) ->
  session st' = session st /\ exists r0, log = [Ev (SplitDocuments size overlap docs) r0].
Proof.
  unfold chunk_data, bind, print, call, ret. simpl.
  destruct (respond env (SplitDocuments size overlap docs) (world st)) as [[cs|x] w0];
    intros [= <- <- <-]; split; try done; by eexists.
Qed.

Lemma ingestion_no_load (chunks : list Document) (index : option IndexHandle)
    st r st' log :
  generate_and_upload_embeddings env chunks index st = (r, st', log) ->
  count is_pdf_load log = 0 /\ count is_split log = 0.
Proof.
  intros H. split; apply count_none;
    refine (ingestion_emits _ chunks index _ _ _ _ _ _ _ H); done.
Qed.

Lemma initialize_pinecone_no_ingestion st r st' log :
  initialize_pinecone env st = (r, st', log) -> Forall not_ingestion log.
Proof. apply initialize_pinecone_emits; done. Qed.

Lemma no_ingestion_counts log :
  count is_ingestion_call log = 0 ->
  count is_pdf_load log = 0 /\ count is_split log = 0 /\ count is_upsert log = 0.
Proof.
  intros H. apply count_none_inv in H.
  repeat split; apply count_none; (eapply Forall_impl; [exact H|]);
    intros ev; unfold is_ingestion_call;
    destruct (is_pdf_load ev), (is_split ev), (is_upsert ev); done.
Qed.

(** The handler of the start button. *)
Lemma start_action_spec st r st' log :
  start_action env st = (r, st', log) ->
  (exists resp rest,
      log = Ev (PineconeNew (environ env "PINECONE_API_KEY")) resp :: rest)
  /\ (index_initialized (session st) = Some true -> count is_ingestion_call log = 0)
  /\ (page (session st') = Some "chatbot"
      \/ (page (session st') = page (session st)
          /\ index_initialized (session st') = index_initialized (session st)))
  /\ (index_initialized (session st) = Some false ->
      page (session st) <> Some "chatbot" ->
      page (session st') = Some "chatbot" ->
      count is_pdf_load log = 1 /\ count is_split log = 1
      /\ index_initialized (session st') = Some true).
Proof.
  unfold start_action. intros H.
  binv H as u0 s0 Hrender; [|by apply render_inv in H as [[=] _]].
  apply render_inv in Hrender as (_ & -> & Hs0). simpl.
  binv H as pcn s1 Hinit.
  2:{ pose proof (initialize_pinecone_first _ _ _ _ H) as Hfirst.
      pose proof (initialize_pinecone_no_ingestion _ _ _ _ H) as Hno.
      apply initialize_pinecone_keeps in H. rewrite H, Hs0.
      split; [done|]. split; [intros _; by apply count_none|].
      split; [by right|]. intros _ Hp Hc. congruence. }
  pose proof (initialize_pinecone_first _ _ _ _ Hinit) as (resp & rest & ->).
  pose proof (initialize_pinecone_no_ingestion _ _ _ _ Hinit) as Hno.
  apply initialize_pinecone_keeps in Hinit as Hs1. rewrite Hs0 in Hs1.
  split; [by eexists _, _|].
  remember (Ev _ resp :: rest) as l1 eqn:Hl1. clear Hl1.
  binv H as h s2 Hget.
  2:{ apply call_inv in H as [-> Hs2]. rewrite Hs2, Hs1.
      split; [intros _; rewrite count_app; by rewrite (count_none _ _ Hno)|].
      split; [by right|]. intros _ Hp Hc. congruence. }
  apply call_inv in Hget as [-> Hs2]. rewrite Hs1 in Hs2.
  remember [Ev (GetIndex _ _) _] as lg eqn:Hlg.
  assert (Hcount0 : count is_ingestion_call (l1 ++ lg) = 0).
  { rewrite count_app, Hlg. by rewrite (count_none _ _ Hno). }
  clear Hlg.
  binv H as u3 s3 Hset; [|by apply set_session_inv in H as [[=] _]].
  apply set_session_inv in Hset as (_ & -> & Hs3). rewrite Hs2 in Hs3.
  binv H as b s4 Hattr.
  2:{ apply attr_inv in H as (-> & -> & Hr). rewrite Hs3 in *. simpl in *.
      rewrite !app_nil_r.
      destruct (index_initialized (session st)); [done|].
      split; [done|]. split; [by right|]. done. }
  apply attr_inv in Hattr as (-> & -> & Hr). rewrite Hs3 in Hr. simpl in Hr.
  destruct (index_initialized (session st)) as [b'|] eqn:Hii; [|done].
  injection Hr as ->. simpl.
  destruct b'; simpl in H.
  - (* the index is marked as built: no ingestion *)
    binv H as u5 s5 Hret; [|done]. injection Hret as <- <- <-.
    apply set_session_inv in H as (-> & -> & ->). rewrite !app_nil_r.
    split; [done|]. split; [by left|]. done.
  - binv H as u5 s5 Hing.
    2:{ (* the ingestion raised: the page is not changed *)
        assert (Hsame : session st' = session s3).
        { binv H as docs s6 Hread; [|by apply reading_document_inv in H as [-> _]].
          apply reading_document_inv in Hread as [Hs4 _].
          binv H as chunks s7 Hchunk;
            [|apply chunk_data_inv in H as [-> _]; by rewrite Hs4].
          apply chunk_data_inv in Hchunk as [Hs5 _].
          binv H as index s8 Hattr;
            [|apply attr_inv in H as (_ & -> & _); by rewrite Hs5, Hs4].
          apply attr_inv in Hattr as (_ & -> & _).
          binv H as u9 s9 Hgen;
            [|apply ingestion_keeps in H; by rewrite H, Hs5, Hs4].
          by apply set_session_inv in H as [[=] _]. }
        rewrite Hsame, Hs3. simpl.
        split; [done|]. split; [by right|]. intros _ Hp Hc. congruence. }
    (* the ingestion returned *)
    apply set_session_inv in H as (-> & -> & Hs7).
    split; [done|]. split; [left; by rewrite Hs7|].
    intros _ _ _.
    binv Hing as docs s6 Hread; [|done].
    apply reading_document_inv in Hread as [Hs4 [r4 ->]].
    binv Hing as chunks s7 Hchunk; [|done].
    apply chunk_data_inv in Hchunk as [Hs5 [r5 ->]].
    binv Hing as index s8 Hattr; [|done].
    apply attr_inv in Hattr as (-> & -> & _).
    binv Hing as u9 s9 Hgen; [|done].
    apply ingestion_keeps in Hgen as Hs6.
    apply ingestion_no_load in Hgen as [Hl Hsp].
    apply set_session_inv in Hing as (_ & -> & Hs8).
    apply no_ingestion_counts in Hcount0 as (Hnl1 & Hnl2 & _).
    rewrite count_app in Hnl1, Hnl2.
    rewrite !count_app, Hl, Hsp, !count_nil.
    change (count is_pdf_load [Ev (PdfLoad knowledge_base_file) r4]) with 1.
    change (count is_pdf_load [Ev (SplitDocuments 1000 50 docs) r5]) with 0.
    change (count is_split [Ev (PdfLoad knowledge_base_file) r4]) with 0.
    change (count is_split [Ev (SplitDocuments 1000 50 docs) r5]) with 1.
    split; [lia|]. split; [lia|].
    rewrite Hs7. simpl. by rewrite Hs8.
Qed.

Lemma init_session_spec st r st' log :
  init_session env st = (r, st', log) ->
  page (session st') = Some (default "first_page" (page (session st)))
  /\ index_initialized (session st') =
       match page (session st) with
       | Some _ => index_initialized (session st)
       | None => Some false
       end
  /\ count is_ingestion_call log = 0
  /\ forall h, embeddings (session st) = Some h ->
       log = [] /\ r = Ok tt /\ embeddings (session st') = Some h.
Proof.
  unfold init_session, bind, get_session, set_session, call, ret. simpl.
  destruct (page (session st)) as [p|] eqn:Hp,
    (pinecone_index (session st)) as [i|] eqn:Hi,
    (embeddings (session st)) as [h|] eqn:He;
    repeat (progress (simpl; rewrite ?Hp, ?Hi, ?He));
    try (destruct (respond env (HFEmbeddingsNew embedding_model) (world st))
           as [[h|x] w0]; simpl);
    intros [= <- <- <-]; simpl; rewrite ?Hp, ?Hi, ?He;
    repeat split; try done; intros ? ?; by simplify_eq.
Qed.

Lemma first_page_spec (inp : RunInput) st r st' log :
  first_page env inp st = (r, st', log) ->
  (page (session st) = Some "first_page" /\ button_clicked inp = true
   /\ exists s0, session s0 = session st /\ start_action env s0 = (r, st', log))
  \/ ((page (session st) <> Some "first_page" \/ button_clicked inp = false)
      /\ log = [] /\ session st' = session st).
Proof.
  unfold first_page. intros H.
  binv H as p s0 Hattr.
  2:{ apply attr_inv in H as (-> & -> & Hr). right.
      split; [|done]. left. by destruct (page (session st)). }
  apply attr_inv in Hattr as (-> & -> & Hr).
  destruct (page (session st)) as [p'|] eqn:Hp; [|done]. injection Hr as ->.
  destruct (String.eqb_spec p' "first_page") as [->|Hne].
  - binv H as u1 s1 Hr1; [|by apply render_inv in H as [[=] _]].
    apply render_inv in Hr1 as (_ & -> & Hs1).
    binv H as u2 s2 Hr2; [|by apply render_inv in H as [[=] _]].
    apply render_inv in Hr2 as (_ & -> & Hs2).
    binv H as u3 s3 Hr3; [|by apply render_inv in H as [[=] _]].
    apply render_inv in Hr3 as (_ & -> & Hs3). simpl.
    destruct (button_clicked inp).
    + left. split; [done|]. split; [done|]. exists s3.
      split; [by rewrite Hs3, Hs2, Hs1|done].
    + injection H as <- <- <-. right. split; [by right|].
      split; [done|]. by rewrite Hs3, Hs2, Hs1.
  - injection H as <- <- <-. right. split; [|done]. left. congruence.
Qed.

Lemma chatbot_page_no_ingestion (inp : RunInput) st r st' log :
  chatbot_page env inp st = (r, st', log) -> count is_ingestion_call log = 0.
Proof. intros H. apply count_none. revert H. by apply chatbot_page_emits. Qed.

(** One run of the script, seen from the session. *)
Lemma run_script_spec (inp : RunInput) st r st' log :
  run_script env inp st = (r, st', log) ->
  (page (session st) = Some "chatbot" ->
     page (session st') = Some "chatbot" /\ count is_ingestion_call log = 0)
  /\ (landing (session st) -> no_click inp ->
        landing (session st') /\ count is_ingestion_call log = 0)
  /\ (landing (session st) -> page (session st') = Some "chatbot" ->
        count is_pdf_load log = 1 /\ count is_split log = 1).
Proof.
  unfold run_script. intros H.
  binv H as u0 s0 Hinit.
  2:{ apply init_session_spec in H as (Hp & Hi & Hc & _).
      split; [intros Hchat; by rewrite Hp, Hchat|].
      split.
      - intros [Hl|[Hl Hl']] _; (split; [right|done]); by rewrite Hp, Hi, Hl.
      - intros [Hl|[Hl _]] Hend; rewrite Hp, Hl in Hend; discriminate. }
  apply init_session_spec in Hinit as (Hp & Hi & Hc & _).
  binv H as u1 s1 Hfirst.
  2:{ apply first_page_spec in H
        as [(Hfp & Hclick & s & Hs & Hstart)|(_ & -> & Hs)].
      - apply start_action_spec in Hstart as (_ & Hbuilt & Hpage & Hdone).
        rewrite Hs in *.
        split; [intros Hchat; rewrite Hp, Hchat in Hfp; discriminate|].
        split; [intros _ Hno; unfold no_click in Hno; congruence|].
        intros Hl Hend.
        assert (Hii : index_initialized (session s0) = Some false)
          by (destruct Hl as [Hl|[Hl Hl']]; by rewrite Hi, Hl).
        destruct (Hdone Hii) as (H1 & H2 & _); [by rewrite Hfp|done|].
        apply no_ingestion_counts in Hc as (Hc1 & Hc2 & _).
        by rewrite !count_app, Hc1, Hc2, H1, H2.
      - rewrite Hs, app_nil_r.
        split; [intros Hchat; by rewrite Hp, Hchat|].
        split.
        + intros [Hl|[Hl Hl']] _; (split; [right|done]); by rewrite Hp, Hi, Hl.
        + intros [Hl|[Hl _]] Hend; rewrite Hp, Hl in Hend; discriminate. }
  pose proof (chatbot_page_no_ingestion _ _ _ _ _ H) as Hchat0.
  apply chatbot_page_keeps in H as Hs2.
  apply first_page_spec in Hfirst
    as [(Hfp & Hclick & s & Hs & Hstart)|(_ & -> & Hs)].
  - apply start_action_spec in Hstart as (_ & Hbuilt & Hpage & Hdone).
    rewrite Hs in *. rewrite Hs2.
    split; [intros Hchat; rewrite Hp, Hchat in Hfp; discriminate|].
    split; [intros _ Hno; unfold no_click in Hno; congruence|].
    intros Hl Hend.
    assert (Hii : index_initialized (session s0) = Some false)
      by (destruct Hl as [Hl|[Hl Hl']]; by rewrite Hi, Hl).
    destruct (Hdone Hii) as (H1 & H2 & _); [by rewrite Hfp|done|].
    apply no_ingestion_counts in Hc as (Hc1 & Hc2 & _).
    apply no_ingestion_counts in Hchat0 as (Hd1 & Hd2 & _).
    by rewrite !count_app, Hc1, Hc2, H1, H2, Hd1, Hd2.
  - rewrite Hs2, Hs. simpl.
    rewrite count_app, Hc, Hchat0.
    split; [intros Hchat; by rewrite Hp, Hchat|].
    split.
    + intros [Hl|[Hl Hl']] _; (split; [right|done]); by rewrite Hp, Hi, Hl.
    + intros [Hl|[Hl _]] Hend; rewrite Hp, Hl in Hend; discriminate.
Qed.

Lemma run_session_chatbot (inps : list RunInput) :
  forall st st' log,
    page (session st) = Some "chatbot" ->
    run_session env inps st = (st', log) ->
    page (session st') = Some "chatbot" /\ count is_ingestion_call log = 0.
Proof.
  induction inps as [|inp inps IH]; intros st st' log Hp H; simpl in H.
  - by injection H as <- <-.
  - destruct (run_script env inp (blank_screen st)) as [[r1 st1] l1] eqn:Hrun.
    destruct (run_session env inps st1) as [st2 l2] eqn:Hrest.
    injection H as <- <-.
    apply run_script_spec in Hrun as [Hchat _].
    destruct (Hchat Hp) as [Hp1 Hc1].
    destruct (IH _ _ _ Hp1 Hrest) as [Hp2 Hc2].
    split; [done|]. by rewrite count_app, Hc1, Hc2.
Qed.

Lemma run_session_landing (inps : list RunInput) :
  Forall no_click inps ->
  forall st st' log,
    landing (session st) ->
    run_session env inps st = (st', log) ->
    landing (session st') /\ count is_ingestion_call log = 0.
Proof.
  induction 1 as [|inp inps Hno _ IH]; intros st st' log Hl H; simpl in H.
  - by injection H as <- <-.
  - destruct (run_script env inp (blank_screen st)) as [[r1 st1] l1] eqn:Hrun.
    destruct (run_session env inps st1) as [st2 l2] eqn:Hrest.
    injection H as <- <-.
    apply run_script_spec in Hrun as (_ & Hland & _).
    destruct (Hland Hl Hno) as [Hl1 Hc1].
    destruct (IH _ _ _ Hl1 Hrest) as [Hl2 Hc2].
    split; [done|]. by rewrite count_app, Hc1, Hc2.
Qed.

Lemma run_session_app (pre post : list RunInput) :
  forall st st1 l1 st2 l2,
    run_session env pre st = (st1, l1) ->
    run_session env post st1 = (st2, l2) ->
    run_session env (pre ++ post) st = (st2, l1 ++ l2).
Proof.
  induction pre as [|inp pre IH]; intros st st1 l1 st2 l2 H1 H2; simpl in *.
  - by injection H1 as <- <-.
  - destruct (run_script env inp (blank_screen st)) as [[r0 s0] l0].
    destruct (run_session env pre s0) as [s1' l1'] eqn:Hpre.
    injection H1 as <- <-.
    rewrite (IH _ _ _ _ _ Hpre H2). by rewrite app_assoc.
Qed.

Lemma landing_new (w : World) : landing (session (new_session w)).
Proof. by left. Qed.

(** ** The embedding handles *)

Lemma uses_handle_log (h : EmbHandle) log :
  Forall (uses_handle h) log ->
  constructed_handles log = [] /\ Forall (eq h) (embed_handles log).
Proof.
  unfold constructed_handles, embed_handles.
  induction 1 as [|ev log [Hc He] _ [IH1 IH2]]; [done|].
  simpl. rewrite Hc. split; [done|].
  destruct (embed_handle ev) as [h'|] eqn:Hev; [|done].
  constructor; [by apply He|done].
Qed.

Lemma ingestion_handle (chunks : list Document) (index : option IndexHandle)
    st r st' log :
  generate_and_upload_embeddings env chunks index st = (r, st', log) ->
  exists (r0 : Res EmbHandle) (rest : list Event),
    log = Ev (HFEmbeddingsNew "sentence-transformers/all-mpnet-base-v2") r0 :: rest
    /\ constructed_handles rest = []
    /\ match r0 with
       | Ok h => Forall (eq h) (embed_handles rest)
       | Raise _ => rest = []
       end.
Proof.
  unfold generate_and_upload_embeddings. intros H.
  binv H as h s1 Hnew.
  2:{ unfold call in H.
      destruct (respond env (HFEmbeddingsNew embedding_model) (world st)) as [r0 w0].
      injection H as -> <- <-. by exists (Raise x), []. }
  unfold call in Hnew.
  destruct (respond env (HFEmbeddingsNew embedding_model) (world st)) as [r0 w0].
  injection Hnew as -> <- <-. exists (Ok h). eexists. split; [done|].
  apply uses_handle_log.
  assert (Hloop : forall s r1 s' l, upload_loop env h index 0 chunks s = (r1, s', l) ->
                                    Forall (uses_handle h) l).
  { apply upload_loop_emits; intros; split; simpl; try done. by intros ? [= <-]. }
  binv H as u2 s2 Hl.
  - injection H as <- <- <-. rewrite app_nil_r. by eapply Hloop.
  - by eapply Hloop.
Qed.

Lemma init_session_handle st r st' log :
  init_session env st = (r, st', log) ->
  match embeddings (session st) with
  | Some h => log = [] /\ embeddings (session st') = Some h
  | None =>
      exists r0 : Res EmbHandle,
        log = [Ev (HFEmbeddingsNew "sentence-transformers/all-mpnet-base-v2") r0]
        /\ embeddings (session st') =
             match r0 with Ok h => Some h | Raise _ => None end
  end.
Proof.
  unfold init_session, bind, get_session, set_session, call, ret. simpl.
  destruct (page (session st)) as [p|] eqn:Hp,
    (pinecone_index (session st)) as [i|] eqn:Hi,
    (embeddings (session st)) as [h|] eqn:He;
    repeat (progress (simpl; rewrite ?Hp, ?Hi, ?He));
    try (destruct (respond env (HFEmbeddingsNew embedding_model) (world st))
           as [[h|x] w0]; simpl);
    intros [= <- <- <-]; simpl; rewrite ?Hp, ?Hi, ?He;
    try done; by eexists.
Qed.

Lemma chatbot_page_handle (inp : RunInput) (h : EmbHandle) st r st' log :
  embeddings (session st) = Some h ->
  chatbot_page env inp st = (r, st', log) ->
  constructed_handles log = [] /\ Forall (eq h) (embed_handles log).
Proof.
  intros He H. apply uses_handle_log. revert H.
  unfold chatbot_page. intros H.
  binv H as p s0 Hp; [|apply attr_inv in H as (-> & _); constructor].
  apply attr_inv in Hp as (-> & -> & _). simpl.
  destruct (String.eqb p "chatbot"); [|injection H as <- <- <-; constructor].
  binv H as u1 s1 Hr1; [|by apply render_inv in H as [[=] _]].
  apply render_inv in Hr1 as (_ & -> & Hs1).
  binv H as u2 s2 Hr2; [|by apply render_inv in H as [[=] _]].
  apply render_inv in Hr2 as (_ & -> & Hs2).
  binv H as u3 s3 Hr3; [|by apply render_inv in H as [[=] _]].
  apply render_inv in Hr3 as (_ & -> & Hs3). simpl.
  destruct (negb _); [|injection H as <- <- <-; constructor].
  binv H as e s4 Hattr.
  2:{ apply attr_inv in H as (-> & _). constructor. }
  apply attr_inv in Hattr as (-> & -> & Hr).
  rewrite Hs3, Hs2, Hs1, He in Hr. injection Hr as ->. simpl.
  binv H as index s5 Hidx.
  2:{ apply attr_inv in H as (-> & _). constructor. }
  apply attr_inv in Hidx as (-> & -> & _). simpl.
  assert (Hget : forall q s r1 s' l, get_result env q h index s = (r1, s', l) ->
                                     Forall (uses_handle h) l).
  { intros q. apply get_result_emits; intros; split; simpl; try done.
    by intros ? [= <-]. }
  binv H as ans s6 Hres.
  - apply render_inv in H as (_ & -> & _). rewrite app_nil_r. by eapply Hget.
  - by eapply Hget.
Qed.

Lemma initialize_pinecone_dimension st r st' log :
  initialize_pinecone env st = (r, st', log) -> Forall dimensions_agree log.
Proof. apply initialize_pinecone_emits; done. Qed.

Lemma upload_loop_vectors (h : EmbHandle) (index : option IndexHandle)
    (chunks : list Document) :
  embeds_768 env ->
  forall (i : nat) st r st' log,
    upload_loop env h index i chunks st = (r, st', log) ->
    Forall dimensions_agree log.
Proof.
  intros H768.
  induction chunks as [|chunk rest IH]; intros i st r st' log H.
  - injection H as <- <- <-. constructor.
  - simpl in H. unfold bind, print, call, method_of, ret, raise in H. simpl in H.
    destruct (respond env (EmbedQuery h (page_content chunk)) (world st))
      as [[v|x] w1] eqn:He; simpl in H.
    2:{ injection H as <- <- <-. by repeat constructor. }
    apply H768 in He.
    destruct index as [idx|]; simpl in H.
    2:{ injection H as <- <- <-. by repeat constructor. }
    destruct (respond env (Upsert idx _) w1) as [[[]|x] w2] eqn:Hu; simpl in H.
    2:{ injection H as <- <- <-. by repeat constructor. }
    match type of H with
    | context [upload_loop env h (Some idx) (S i) rest ?s] =>
        destruct (upload_loop env h (Some idx) (S i) rest s) as [[r1 st1] l1] eqn:Hrest
    end.
    injection H as <- <- <-. apply IH in Hrest.
    repeat (constructor; [by repeat constructor|]). exact Hrest.
Qed.

Lemma ingestion_vectors (chunks : list Document) (index : option IndexHandle)
    st r st' log :
  embeds_768 env ->
  generate_and_upload_embeddings env chunks index st = (r, st', log) ->
  Forall dimensions_agree log.
Proof.
  intros H768. unfold generate_and_upload_embeddings. intros H.
  binv H as h s1 Hnew; [|apply call_inv in H as [-> _]; by repeat constructor].
  apply call_inv in Hnew as [-> _].
  constructor; [done|].
  binv H as u2 s2 Hl.
  - injection H as <- <- <-. rewrite app_nil_r. by eapply upload_loop_vectors.
  - by eapply upload_loop_vectors.
Qed.

Lemma retrieve_vectors (q : string) e (index : option IndexHandle) st r st' log :
  embeds_768 env ->
  retrieve_related_sections env q e index st = (r, st', log) ->
  Forall dimensions_agree log.
Proof.
  intros H768. unfold retrieve_related_sections. intros H.
  binv H as v s1 Hemb; [|apply call_inv in H as [-> _]; by repeat constructor].
  unfold call in Hemb.
  destruct (respond env (EmbedQuery e q) (world st)) as [r0 w0] eqn:He.
  injection Hemb as -> <- <-. apply H768 in He.
  constructor; [done|].
  binv H as idx s2 Hidx.
  2:{ destruct index; [done|]. injection H as _ _ <-. constructor. }
  destruct index as [idx'|]; [|done]. injection Hidx as <- <- <-. simpl.
  binv H as resp s3 Hq; [|apply call_inv in H as [-> _]; by repeat constructor].
  apply call_inv in Hq as [-> _].
  constructor; [done|].
  revert H. apply collect_matches_emits.
Qed.

Lemma dimensions_agree_sent log :
  Forall dimensions_agree log ->
  Forall (fun v : Vector => length v = 768) (sent_vectors log)
  /\ Forall (eq 768%Z) (created_dimensions log).
Proof.
  unfold sent_vectors, created_dimensions.
  induction 1 as [|ev log Hev _ [IH1 IH2]]; [by split|].
  destruct ev as [A c r]. destruct c; simpl in *; try done.
  - split; [done|]. constructor; [by rewrite Hev|done].
  - split; [|done]. apply Forall_app. split; [|done].
    apply Forall_fmap. eapply Forall_impl; [exact Hev|].
    intros entry Hlen. simpl. unfold index_dimension in Hlen. lia.
  - split; [|done]. constructor; [|done]. unfold index_dimension in Hev. lia.
Qed.

Local Ltac sends :=
  unfold sent_vectors, returned_vectors; simpl;
  let Hv := fresh "Hv" in
  intros ? Hv;
  repeat (apply elem_of_cons in Hv as [->|Hv]; [by repeat constructor|]);
  by apply elem_of_nil in Hv.

Lemma upload_loop_sends (h : EmbHandle) (index : option IndexHandle)
    (chunks : list Document) :
  forall (i : nat) st r st' log,
    upload_loop env h index i chunks st = (r, st', log) ->
    forall v, v ∈ sent_vectors log -> v ∈ returned_vectors log.
Proof.
  induction chunks as [|chunk rest IH]; intros i st r st' log H.
  - injection H as <- <- <-. sends.
  - simpl in H. unfold bind, print, call, method_of, ret, raise in H. simpl in H.
    destruct (respond env (EmbedQuery h (page_content chunk)) (world st))
      as [[v0|x] w1] eqn:He; simpl in H.
    2:{ injection H as <- <- <-. sends. }
    destruct index as [idx|]; simpl in H.
    2:{ injection H as <- <- <-. sends. }
    destruct (respond env (Upsert idx _) w1) as [[[]|x] w2] eqn:Hu; simpl in H.
    2:{ injection H as <- <- <-. sends. }
    match type of H with
    | context [upload_loop env h (Some idx) (S i) rest ?s] =>
        destruct (upload_loop env h (Some idx) (S i) rest s) as [[r1 st1] l1] eqn:Hrest
    end.
    injection H as <- <- <-.
    pose proof (IH _ _ _ _ _ Hrest) as IH'.
    unfold sent_vectors, returned_vectors in *. simpl.
    intros v [->|Hv]%elem_of_cons.
    + apply list_elem_of_here.
    + apply list_elem_of_further. by apply IH'.
Qed.

Lemma ingestion_sends (chunks : list Document) (index : option IndexHandle)
    st r st' log :
  generate_and_upload_embeddings env chunks index st = (r, st', log) ->
  forall v, v ∈ sent_vectors log -> v ∈ returned_vectors log.
Proof.
  unfold generate_and_upload_embeddings. intros H.
  binv H as h s1 Hnew; [|apply call_inv in H as [-> _]; sends].
  apply call_inv in Hnew as [-> _].
  assert (Hloop : forall s r1 s' l, upload_loop env h index 0 chunks s = (r1, s', l) ->
            forall v, v ∈ sent_vectors ([Ev (HFEmbeddingsNew embedding_model) (Ok h)] ++ l)
                      -> v ∈ returned_vectors ([Ev (HFEmbeddingsNew embedding_model) (Ok h)] ++ l)).
  { intros s r1 s' l Hl. exact (upload_loop_sends _ _ _ _ _ _ _ _ Hl). }
  binv H as u2 s2 Hl.
  - injection H as <- <- <-. rewrite app_nil_r. by eapply Hloop.
  - by eapply Hloop.
Qed.

Lemma collect_matches_silent (ms : list ScoredMatch) :
  forall acc st r st' log,
    collect_matches ms acc st = (r, st', log) -> log = [] /\ st' = st.
Proof.
  induction ms as [|m ms IH]; intros acc st r st' log H; simpl in H.
  - by injection H as <- <- <-.
  - unfold bind, method_of in H. destruct (match_metadata m) as [md|]; simpl in H.
    + destruct (collect_matches ms _ st) as [[r1 s1] l1] eqn:Hrest.
      injection H as <- <- <-. by apply IH in Hrest as [-> ->].
    + by injection H as <- <- <-.
Qed.

Lemma retrieve_sends (q : string) e (index : option IndexHandle) st r st' log :
  retrieve_related_sections env q e index st = (r, st', log) ->
  forall v, v ∈ sent_vectors log -> v ∈ returned_vectors log.
Proof.
  unfold retrieve_related_sections. intros H.
  binv H as v0 s1 Hemb; [|apply call_inv in H as [-> _]; sends].
  apply call_inv in Hemb as [-> _].
  binv H as idx s2 Hidx.
  2:{ destruct index; [done|]. injection H as _ _ <-. sends. }
  destruct index as [idx'|]; [|done]. injection Hidx as <- <- <-.
  binv H as resp s3 Hq.
  - apply call_inv in Hq as [-> _]. apply collect_matches_silent in H as [-> _]. sends.
  - apply call_inv in H as [-> _]. sends.
Qed.

(** C8, as the code has it. The ingestion and the retriever embed with
    the same model, but not through one handle: every ingestion pass
    builds a handle of its own and embeds the chunks with it; the session
    builds its handle when it has none and keeps it, and the query page
    embeds with that one.  The index is created with 768 dimensions; the
    vectors that the ingestion and the retriever send to the index are
    vectors which that model returned, as they came; so, with the model
    returning vectors of 768 numbers, every vector sent to the index has
    the dimension of the index. *)
Theorem embedding_handles_and_dimension :
  (forall (chunks : list Document) (index : option IndexHandle) st r st' log,
      generate_and_upload_embeddings env chunks index st = (r, st', log) ->
      (exists (r0 : Res EmbHandle) (rest : list Event),
          log = Ev (HFEmbeddingsNew "sentence-transformers/all-mpnet-base-v2") r0 :: rest
          /\ constructed_handles rest = []
          /\ match r0 with
             | Ok h => Forall (eq h) (embed_handles rest)
             | Raise _ => rest = []
             end)
      /\ (forall v, v ∈ sent_vectors log -> v ∈ returned_vectors log))
  /\ (forall st r st' log,
      init_session env st = (r, st', log) ->
      match embeddings (session st) with
      | Some h => log = [] /\ embeddings (session st') = Some h
      | None =>
          exists r0 : Res EmbHandle,
            log = [Ev (HFEmbeddingsNew "sentence-transformers/all-mpnet-base-v2") r0]
            /\ embeddings (session st') =
                 match r0 with Ok h => Some h | Raise _ => None end
      end)
  /\ (forall (inp : RunInput) (h : EmbHandle) st r st' log,
      embeddings (session st) = Some h ->
      chatbot_page env inp st = (r, st', log) ->
      constructed_handles log = [] /\ Forall (eq h) (embed_handles log))
  /\ (forall (q : string) e (index : option IndexHandle) st r st' log,
      retrieve_related_sections env q e index st = (r, st', log) ->
      Forall (eq e) (embed_handles log)
      /\ (forall v, v ∈ sent_vectors log -> v ∈ returned_vectors log))
  /\ (forall st r st' log,
      initialize_pinecone env st = (r, st', log) ->
      Forall (eq 768%Z) (created_dimensions log))
  /\ (embeds_768 env ->
      (forall (chunks : list Document) (index : option IndexHandle) st r st' log,
          generate_and_upload_embeddings env chunks index st = (r, st', log) ->
          Forall (fun v : Vector => length v = 768) (sent_vectors log))
      /\ (forall (q : string) e (index : option IndexHandle) st r st' log,
          retrieve_related_sections env q e index st = (r, st', log) ->
          Forall (fun v : Vector => length v = 768) (sent_vectors log))).
Proof.
  split; [|split; [|split; [|split; [|split]]]].
  - intros chunks index st r st' log H. split.
    + by eapply ingestion_handle.
    + by eapply ingestion_sends.
  - apply init_session_handle.
  - apply chatbot_page_handle.
  - intros q e index st r st' log H. split.
    + apply (uses_handle_log e).
      revert H. apply retrieve_emits; intros; split; simpl; try done.
      by intros ? [= <-].
    + by eapply retrieve_sends.
  - intros st r st' log H.
    by apply initialize_pinecone_dimension, dimensions_agree_sent in H as [_ H].
  - intros H768. split.
    + intros chunks index st r st' log H.
      by apply (ingestion_vectors _ _ _ _ _ _ H768), dimensions_agree_sent in H as [H _].
    + intros q e index st r st' log H.
      by apply (retrieve_vectors _ _ _ _ _ _ _ H768), dimensions_agree_sent in H as [H _].
Qed.


(** ** Further properties *)

Lemma dec_nat_inj (n m : nat) : dec_nat n = dec_nat m -> n = m.
Proof.
  unfold dec_nat. intros H.
  apply (f_equal NilEmpty.uint_of_string) in H.
  rewrite !NilEmpty.usu in H. injection H as H.
  apply (f_equal Nat.of_uint) in H. by rewrite !Unsigned.of_to in H.
Qed.

Lemma chunk_entry_id_inj (i j : nat) : chunk_entry_id i = chunk_entry_id j -> i = j.
Proof. unfold chunk_entry_id. simpl. intros [= H]. by apply dec_nat_inj. Qed.

Lemma ok_events_ids (h : EmbHandle) idx (cvs : list (Document * Vector)) :
  forall i, upsert_ids (ok_events h idx i cvs) = chunk_entry_id <$> seq i (length cvs).
Proof.
  induction cvs as [|[c v] cvs IH]; intros i; [done|].
  simpl. unfold upsert_ids in IH. by rewrite IH.
Qed.

Lemma upsert_ids_app log1 log2 :
  upsert_ids (log1 ++ log2) = upsert_ids log1 ++ upsert_ids log2.
Proof. unfold upsert_ids. by rewrite flat_map_app. Qed.

(** X1. Whatever the outcome of an ingestion, the ids it sent to the index
    are "chunk-0", "chunk-1", ... up to some chunk, without a gap, and no
    two of them are equal: no entry of a pass overwrites another. *)
Theorem ingestion_ids_distinct (chunks : list Document) idx st r st' log :
  generate_and_upload_embeddings env chunks (Some idx) st = (r, st', log) ->
  (exists k, k <= length chunks
             /\ upsert_ids log = (fun i => "chunk-" +:+ dec_nat i) <$> seq 0 k
             /\ (r = Ok tt -> k = length chunks))
  /\ NoDup (upsert_ids log).
Proof.
  intros H.
  assert (Hids : exists k, k <= length chunks
             /\ upsert_ids log = chunk_entry_id <$> seq 0 k
             /\ (r = Ok tt -> k = length chunks)).
  { apply ingestion_shape in H
      as [(x & -> & ->)
         |(h & [[-> (vs & Hlen & ->)]
               |(k & c & vs & x & tail & Hk & Hlen & -> & Hf & ->)])].
    - exists 0. split; [lia|]. by split.
    - exists (length chunks). split; [lia|]. split; [|done].
      change (Ev ?a ?b :: ?l) with ([Ev a b] ++ l).
      rewrite upsert_ids_app, ok_events_ids, length_zip_with. simpl.
      by replace (length chunks `min` length vs) with (length chunks) by lia.
    - apply lookup_lt_Some in Hk as Hlt.
      assert (Hz : length (zip (take k chunks) vs) = k).
      { rewrite length_zip_with, length_take. lia. }
      change (Ev ?a ?b :: ?l) with ([Ev a b] ++ l).
      rewrite !upsert_ids_app, ok_events_ids, Hz. simpl.
      destruct Hf as [|v].
      + exists k. split; [lia|]. split; [|done].
        change (upsert_ids [Ev (EmbedQuery h (page_content c)) (Raise x)])
          with (@nil string).
        by rewrite app_nil_r.
      + exists (S k). split; [lia|]. split; [|done].
        by rewrite seq_S, fmap_app. }
  split; [exact Hids|].
  destruct Hids as (k & _ & -> & _).
  apply NoDup_fmap_2; [|apply NoDup_seq].
  intros i j. apply chunk_entry_id_inj.
Qed.

Lemma section_of_chunk_metadata (i : nat) (t : string) :
  section_of_metadata (chunk_metadata i t)
  = {| Text := VStr t; Page := VInt (Z.of_nat i) |}.
Proof. reflexivity. Qed.

Lemma section_of_chunk_metadata_as_float (i : nat) (t : string) :
  section_of_metadata (chunk_metadata_as_float i t)
  = {| Text := VStr t; Page := VFloat (QArith_base.Qmake (Z.of_nat i) 1) |}.
Proof. reflexivity. Qed.

(** X2. What the ingestion stores, the retriever and the answer generator
    read back: when the matches of a query carry the metadata written for
    chunks (the chunk number as the integer stored, or as the float of the
    same value), the retriever returns their texts in order, and the context
    lists each as "Page i:", a line break, and the text of chunk [i]. *)
Theorem stored_chunks_read_back (q : string) e idx st v w1 resp w2
    (mds : list (gmap string PyVal)) (its : list (nat * string)) :
  respond env (EmbedQuery e q) (world st) = (Ok v, w1) ->
  respond env (Query idx v 5 true) w1 = (Ok resp, w2) ->
  match_metadata <$> matches resp = Some <$> mds ->
  Forall2 (fun md it =>
             md = {["chunk_id" := VInt (Z.of_nat it.1); "text" := VStr it.2]}
             \/ md = {["chunk_id" := VFloat (QArith_base.Qmake (Z.of_nat it.1) 1);
                       "text" := VStr it.2]}) mds its ->
  exists secs,
    (retrieve_related_sections env q e (Some idx) st).1.1 = Ok secs
    /\ Text <$> secs = (fun it => VStr it.2) <$> its
    /\ forall s : @St World,
         section_texts env secs s =
           (Ok ((fun it => "Page " +:+ NilZero.string_of_int (Z.to_int (Z.of_nat it.1)) +:+ ":
" +:+ it.2) <$> its),
            s, []).
Proof.
  intros He Hq Hmd Hits0.
  assert (Hits : Forall2 (fun md it => md = chunk_metadata it.1 it.2
                            \/ md = chunk_metadata_as_float it.1 it.2) mds its)
    by exact Hits0.
  clear Hits0. exists (section_of_metadata <$> mds).
  rewrite (retrieve_ok q e idx st v w1 resp w2 mds He Hq Hmd). simpl.
  split; [done|]. split.
  - clear Hmd. induction Hits as [|md it mds its [->| ->] _ IH]; simpl; by f_equal.
  - intros s.
    rewrite (section_texts_ok (section_of_metadata <$> mds)
               ((fun it => (Z.of_nat it.1, it.2)) <$> its) s).
    + by rewrite <- list_fmap_compose.
    + clear Hmd. induction Hits as [|md it mds its [->| ->] _ IH];
        cbn [fmap list_fmap]; constructor; try done.
      rewrite section_of_chunk_metadata_as_float.
      split; [|done]. unfold py_int. cbn [Page QArith_base.Qnum QArith_base.Qden fst].
      by rewrite Z.quot_1_r.
Qed.

Lemma upload_loop_bounds (h : EmbHandle) (index : option IndexHandle)
    (chunks : list Document) :
  forall (i : nat) st r st' log,
    upload_loop env h index i chunks st = (r, st', log) ->
    count is_hf_new log = 0
    /\ count is_upsert log <= count is_embed log
    /\ count is_embed log <= length chunks
    /\ count is_embed log <= S (count is_upsert log)
    /\ (r = Ok tt -> count is_upsert log = length chunks).
Proof.
  induction chunks as [|chunk rest IH]; intros i st r st' log H.
  - injection H as <- <- <-. unfold count. simpl. repeat split; try lia; done.
  - simpl in H. unfold bind, print, call, method_of, ret, raise in H. simpl in H.
    destruct (respond env (EmbedQuery h (page_content chunk)) (world st))
      as [[v|x] w1] eqn:He; simpl in H.
    2:{ injection H as <- <- <-. unfold count; simpl.
        repeat split; try lia. discriminate. }
    destruct index as [idx|]; simpl in H.
    2:{ injection H as <- <- <-. unfold count; simpl.
        repeat split; try lia. discriminate. }
    destruct (respond env (Upsert idx _) w1) as [[[]|x] w2] eqn:Hu; simpl in H.
    2:{ injection H as <- <- <-. unfold count; simpl.
        repeat split; try lia. discriminate. }
    match type of H with
    | context [upload_loop env h (Some idx) (S i) rest ?s] =>
        destruct (upload_loop env h (Some idx) (S i) rest s) as [[r1 st1] l1] eqn:Hrest
    end.
    injection H as <- <- <-. apply IH in Hrest as (H0 & H1 & H2 & H3 & H4).
    unfold count in *. simpl.
    repeat split; try lia. intros Hr. specialize (H4 Hr). lia.
Qed.

(** X3. Whatever happens during an ingestion, and whatever index it is
    given, it builds one embedding handle, embeds at most one text per
    chunk, upserts only what it has embedded, and never runs ahead: the
    embeddings exceed the upserts by at most one.  When it returns, there
    is one upsert per chunk; with no chunk it makes neither call. *)
Theorem ingestion_call_counts (chunks : list Document) (index : option IndexHandle)
    st r st' log :
  generate_and_upload_embeddings env chunks index st = (r, st', log) ->
  count is_hf_new log = 1
  /\ count is_upsert log <= count is_embed log
  /\ count is_embed log <= length chunks
  /\ count is_embed log <= S (count is_upsert log)
  /\ (r = Ok tt -> count is_upsert log = length chunks).
Proof.
  unfold generate_and_upload_embeddings. intros H.
  binv H as h s1 Hnew.
  2:{ apply call_inv in H as [-> _]. unfold count; simpl.
      repeat split; try lia. discriminate. }
  apply call_inv in Hnew as [-> _].
  assert (Hb : forall r1 s2 l, upload_loop env h index 0 chunks s1 = (r1, s2, l) ->
               count is_hf_new ([Ev (HFEmbeddingsNew embedding_model) (Ok h)] ++ l) = 1
               /\ count is_upsert ([Ev (HFEmbeddingsNew embedding_model) (Ok h)] ++ l)
                  <= count is_embed ([Ev (HFEmbeddingsNew embedding_model) (Ok h)] ++ l)
               /\ count is_embed ([Ev (HFEmbeddingsNew embedding_model) (Ok h)] ++ l)
                  <= length chunks
               /\ count is_embed ([Ev (HFEmbeddingsNew embedding_model) (Ok h)] ++ l)
                  <= S (count is_upsert ([Ev (HFEmbeddingsNew embedding_model) (Ok h)] ++ l))
               /\ (r1 = Ok tt ->
                   count is_upsert ([Ev (HFEmbeddingsNew embedding_model) (Ok h)] ++ l)
                   = length chunks)).
  { intros r1 s2 l Hl. apply upload_loop_bounds in Hl as (H0 & H1 & H2 & H3 & H4).
    rewrite !count_app.
    change (count is_hf_new [Ev (HFEmbeddingsNew embedding_model) (Ok h)]) with 1.
    change (count is_upsert [Ev (HFEmbeddingsNew embedding_model) (Ok h)]) with 0.
    change (count is_embed [Ev (HFEmbeddingsNew embedding_model) (Ok h)]) with 0.
    repeat split; try lia. intros Hr. specialize (H4 Hr). lia. }
  binv H as u2 s2 Hl.
  - injection H as <- <- <-. rewrite app_nil_r.
    destruct u2. exact (Hb _ _ _ Hl).
  - destruct (Hb _ _ _ H) as (H0 & H1 & H2 & H3 & _).
    repeat split; try done.
Qed.



(** X5. The retriever embeds the query first and asks the index at most
    once, and only with the vector the embedding returned: when the
    embedding raises, or when there is no index object, no query is sent and
    the error is the result; when the query raises, that error is the
    result. *)
Theorem retrieve_calls (q : string) e (index : option IndexHandle) st r st' log :
  retrieve_related_sections env q e index st = (r, st', log) ->
  (exists r0 : Res Vector,
      log = [Ev (EmbedQuery e q) r0]
      /\ match r0 with
         | Ok _ => index = None /\ r = Raise (AttributeError "query")
         | Raise x => r = Raise x
         end)
  \/ (exists (v : Vector) idx (r1 : Res QueryResponse),
        index = Some idx
        /\ log = [Ev (EmbedQuery e q) (Ok v); Ev (Query idx v 5 true) r1]
        /\ forall x, r1 = Raise x -> r = Raise x).
Proof.
  unfold retrieve_related_sections, bind, call, method_of, ret, raise.
  destruct (respond env (EmbedQuery e q) (world st)) as [[v|x] w1]; simpl.
  2:{ intros [= <- <- <-]. left. by exists (Raise x). }
  destruct index as [idx|]; simpl.
  2:{ intros [= <- <- <-]. left. by exists (Ok v). }
  destruct (respond env (Query idx v 5 true) w1) as [[resp|x] w2]; simpl.
  - destruct (collect_matches (matches resp) [] _) as [[r1 s1] l1] eqn:Hc.
    intros [= <- <- <-]. apply collect_matches_silent in Hc as [-> _].
    right. exists v, idx, (Ok resp). by repeat split.
  - intros [= <- <- <-]. right. exists v, idx, (Raise x).
    repeat split; try done. by intros ? [= <-].
Qed.

Lemma collect_matches_none (ms : list ScoredMatch) :
  forall acc st,
    None ∈ (match_metadata <$> ms) ->
    collect_matches ms acc st = (Raise (AttributeError "get"), st, []).
Proof.
  induction ms as [|m ms IH]; intros acc st Hin; simpl in Hin.
  - by apply elem_of_nil in Hin.
  - simpl. unfold bind, method_of. destruct (match_metadata m) as [md|] eqn:Hm.
    + apply elem_of_cons in Hin as [Hin|Hin]; [done|]. simpl.
      by rewrite (IH _ st Hin).
    + done.
Qed.

(** X6. One match that carries no metadata makes the whole retrieval
    raise, after the query was answered: the pairs of the other matches
    are not returned. *)
Theorem retrieve_match_without_metadata (q : string) e idx st v w1 resp w2 :
  respond env (EmbedQuery e q) (world st) = (Ok v, w1) ->
  respond env (Query idx v 5 true) w1 = (Ok resp, w2) ->
  None ∈ (match_metadata <$> matches resp) ->
  retrieve_related_sections env q e (Some idx) st =
    (Raise (AttributeError "get"), set_world st w2,
     [Ev (EmbedQuery e q) (Ok v); Ev (Query idx v 5 true) (Ok resp)]).
Proof.
  intros He Hq Hnone.
  unfold retrieve_related_sections, bind, call, method_of, ret.
  rewrite He. simpl. rewrite Hq. simpl.
  by rewrite (collect_matches_none _ [] _ Hnone).
Qed.

Lemma section_texts_silent (secs : list RelatedSection) :
  forall st r st' log,
    section_texts env secs st = (r, st', log) -> log = [] /\ st' = st.
Proof.
  induction secs as [|s secs IH]; intros st r st' log H; simpl in H.
  - by injection H as <- <- <-.
  - destruct (py_int (py env) (Page s)) as [p|x].
    + unfold bind in H.
      destruct (section_texts env secs st) as [[[tl|x] s1] l1] eqn:Hrest;
        simpl in H; injection H as <- <- <-;
        apply IH in Hrest as [-> ->]; done.
    + by injection H as <- <- <-.
Qed.

Lemma section_texts_raise (pre post : list RelatedSection) (s : RelatedSection)
    (x : Exn) st :
  Forall (fun s0 => exists p, py_int (py env) (Page s0) = Ok p) pre ->
  py_int (py env) (Page s) = Raise x ->
  section_texts env (pre ++ s :: post) st = (Raise x, st, []).
Proof.
  intros Hpre Hs. induction Hpre as [|s0 pre [p Hp] _ IH]; simpl.
  - by rewrite Hs.
  - rewrite Hp. unfold bind. by rewrite IH.
Qed.

(** X7. When the page of a section is not a number that [int] accepts,
    [generate_response] raises the error of the first such section before
    it builds the client: no request is sent for that question. *)
Theorem generate_response_bad_page (q : string) (pre post : list RelatedSection)
    (s : RelatedSection) (x : Exn) st :
  Forall (fun s0 => exists p, py_int (py env) (Page s0) = Ok p) pre ->
  py_int (py env) (Page s) = Raise x ->
  generate_response env q (pre ++ s :: post) st = (Raise x, st, []).
Proof.
  intros Hpre Hs. unfold generate_response, bind.
  by rewrite (section_texts_raise pre post s x st Hpre Hs).
Qed.

Lemma generate_response_shape (q : string) (secs : list RelatedSection)
    st r st' log :
  generate_response env q secs st = (r, st', log) ->
  (log = [] /\ exists x, r = Raise x)
  \/ (exists x, log = [Ev (OpenAINew (environ env "OPENAI_API_KEY")) (Raise x)]
                /\ r = Raise x)
  \/ (exists (c : OpenAIClient) (prompt : string) (r1 : Res ChatResponse),
        log = [Ev (OpenAINew (environ env "OPENAI_API_KEY")) (Ok c);
               Ev (ChatCreate c [{| role := "user"; content := prompt |}] "gpt-4o-mini") r1]
        /\ match r1 with
           | Ok resp =>
               match choices resp with
               | first :: _ => r = Ok (msg_content (message first))
               | [] => r = Raise IndexError
               end
           | Raise x => r = Raise x
           end).
Proof.
  unfold generate_response. intros H.
  binv H as parts s1 Hparts.
  2:{ apply section_texts_silent in H as [-> _]. left. split; [done|]. by eexists. }
  apply section_texts_silent in Hparts as [-> ->]. simpl.
  unfold bind, call, ret, raise in H.
  destruct (respond env (OpenAINew _) (world st)) as [[c|x] w1]; simpl in H.
  2:{ injection H as <- <- <-. right. left. by exists x. }
  destruct (respond env (ChatCreate c _ _) w1) as [[resp|x] w2]; simpl in H.
  - right. right. exists c. eexists. exists (Ok resp).
    destruct (choices resp) as [|first rest]; simpl in H;
      injection H as <- <- <-; by split.
  - injection H as <- <- <-. right. right. exists c. eexists. exists (Raise x).
    by split.
Qed.



Lemma retrieve_log (q : string) e (index : option IndexHandle) st r st' log :
  retrieve_related_sections env q e index st = (r, st', log) ->
  (exists r0 : Res Vector, log = [Ev (EmbedQuery e q) r0] /\ exists x, r = Raise x)
  \/ (exists (v : Vector) idx (r1 : Res QueryResponse),
        log = [Ev (EmbedQuery e q) (Ok v); Ev (Query idx v 5 true) r1]).
Proof.
  unfold retrieve_related_sections, bind, call, method_of, ret, raise.
  destruct (respond env (EmbedQuery e q) (world st)) as [[v|x] w1]; simpl.
  2:{ intros [= <- <- <-]. left. exists (Raise x). split; [done|by exists x]. }
  destruct index as [idx|]; simpl.
  2:{ intros [= <- <- <-]. left. exists (Ok v). split; [done|by eexists]. }
  destruct (respond env (Query idx v 5 true) w1) as [[resp|x] w2]; simpl.
  - destruct (collect_matches (matches resp) [] _) as [[r1 s1] l1] eqn:Hc.
    intros [= <- <- <-]. apply collect_matches_silent in Hc as [-> _].
    right. by exists v, idx, (Ok resp).
  - intros [= <- <- <-]. right. by exists v, idx, (Raise x).
Qed.

(** X9. One question costs at most one embedding, one index query, one
    client and one completion request, and a completion is requested only
    after the index answered the query. *)
Theorem get_result_call_counts (q : string) e (index : option IndexHandle)
    st r st' log :
  get_result env q e index st = (r, st', log) ->
  count is_embed log = 1
  /\ count is_query log <= 1
  /\ count is_openai_new log <= 1
  /\ count is_chat log <= count is_openai_new log
  /\ count is_openai_new log <= count is_query log
  /\ count is_ingestion_call log = 0.
Proof.
  unfold get_result. intros H.
  binv H as secs s1 Hret.
  2:{ apply retrieve_log in H
        as [(r0 & -> & _)|(v & idx & r1 & ->)];
        unfold count; simpl; lia. }
  assert (H1 : count is_embed x = 1 /\ count is_query x = 1
               /\ count is_openai_new x = 0 /\ count is_chat x = 0
               /\ count is_ingestion_call x = 0).
  { apply retrieve_log in Hret
      as [(r0 & _ & xr & [=])|(v & idx & r1 & ->)]. by unfold count. }
  destruct H1 as (Ha & Hb & Hc & Hd & He).
  rewrite !count_app, Ha, Hb, Hc, Hd, He.
  destruct secs as [|s secs].
  - injection H as <- <- <-. unfold count; simpl; lia.
  - apply generate_response_shape in H
      as [[-> _]|[(x1 & -> & _)|(c0 & prompt & r1 & -> & _)]];
      unfold count; simpl; lia.
Qed.

(** X10. The provisioner creates the index only when the listing does not
    name it, with the constants of the script; a call that raises ends the
    provisioner with that error and nothing is called after it. *)
Theorem initialize_pinecone_cases st r st' log :
  initialize_pinecone env st = (r, st', log) ->
  let new := PineconeNew (environ env "PINECONE_API_KEY") in
  (exists x, log = [Ev new (Raise x)] /\ r = Raise x)
  \/ (exists pc x,
        log = [Ev new (Ok pc); Ev (ListIndexNames pc) (Raise x)] /\ r = Raise x)
  \/ (exists pc names,
        "titanic" ∈ names
        /\ log = [Ev new (Ok pc); Ev (ListIndexNames pc) (Ok names)]
        /\ r = Ok (pc, "titanic"))
  \/ (exists pc names (r2 : Res unit),
        ("titanic" ∉ names)
        /\ log = [Ev new (Ok pc); Ev (ListIndexNames pc) (Ok names);
                  Ev (CreateIndex pc "titanic" 768 "euclidean"
                        {| cloud := "aws"; region := "us-east-1" |}) r2]
        /\ r = match r2 with Ok _ => Ok (pc, "titanic") | Raise x => Raise x end).
Proof.
  intros H new. subst new.
  unfold initialize_pinecone, bind, call, print, ret in H. simpl in H.
  destruct (respond env (PineconeNew _) (world st)) as [[pc|x] w0]; simpl in H.
  2:{ injection H as <- <- <-. left. by exists x. }
  destruct (respond env (ListIndexNames pc) w0) as [[names|x] w1]; simpl in H.
  2:{ injection H as <- <- <-. right. left. by exists pc, x. }
  case_bool_decide as Hin; simpl in H.
  - injection H as <- <- <-. right. right. left. by exists pc, names.
  - destruct (respond env (CreateIndex pc _ _ _ _) w1) as [[[]|x] w2]; simpl in H;
      injection H as <- <- <-; right; right; right.
    + by exists pc, names, (Ok tt).
    + by exists pc, names, (Raise x).
Qed.

Lemma init_session_fields st r st' log :
  init_session env st = (r, st', log) ->
  page (session st') = Some (default "first_page" (page (session st)))
  /\ index_initialized (session st') =
       match page (session st) with
       | Some _ => index_initialized (session st)
       | None => Some false
       end
  /\ pinecone_index (session st') = Some (default None (pinecone_index (session st)))
  /\ (forall h, embeddings (session st) = Some h -> embeddings (session st') = Some h)
  /\ (r = Ok tt -> is_Some (embeddings (session st')))
  /\ (is_Some (page (session st)) -> is_Some (pinecone_index (session st)) ->
      is_Some (embeddings (session st)) -> st' = st /\ log = [] /\ r = Ok tt).
Proof.
  unfold init_session, bind, get_session, set_session, call, ret. simpl.
  destruct (page (session st)) as [p|] eqn:Hp,
    (pinecone_index (session st)) as [i|] eqn:Hi,
    (embeddings (session st)) as [h|] eqn:He;
    repeat (progress (simpl; rewrite ?Hp, ?Hi, ?He));
    try (destruct (respond env (HFEmbeddingsNew embedding_model) (world st))
           as [[h|x] w0]; simpl);
    intros [= <- <- <-]; simpl; rewrite ?Hp, ?Hi, ?He;
    repeat split; try done; try (by intros ? [= <-]);
    try (by intros [? [=]]); try (by intros _ [? [=]]);
    try (by intros _ _ [? [=]]); by eexists.
Qed.

Lemma start_action_session st r st' log :
  start_action env st = (r, st', log) ->
  match r with
  | Ok _ =>
      exists h,
        (index_initialized (session st) = Some true
         /\ session st' = set_page "chatbot" (set_pinecone_index (Some h) (session st)))
        \/ (index_initialized (session st) = Some false
            /\ session st' =
                 set_page "chatbot"
                   (set_index_initialized true (set_pinecone_index (Some h) (session st))))
  | Raise _ =>
      session st' = session st
      \/ exists h, session st' = set_pinecone_index (Some h) (session st)
  end.
Proof.
  unfold start_action. intros H.
  binv H as u0 s0 Hrender; [|by apply render_inv in H as [[=] _]].
  apply render_inv in Hrender as (_ & _ & Hs0).
  binv H as pcn s1 Hinit.
  2:{ apply initialize_pinecone_keeps in H. left. by rewrite H. }
  apply initialize_pinecone_keeps in Hinit as Hs1. rewrite Hs0 in Hs1.
  binv H as h s2 Hget.
  2:{ apply call_inv in H as [_ Hs2]. left. by rewrite Hs2. }
  apply call_inv in Hget as [_ Hs2]. rewrite Hs1 in Hs2.
  binv H as u3 s3 Hset; [|by apply set_session_inv in H as [[=] _]].
  apply set_session_inv in Hset as (_ & _ & Hs3). rewrite Hs2 in Hs3.
  binv H as b s4 Hattr.
  2:{ apply attr_inv in H as (_ & -> & _). right. by exists h. }
  apply attr_inv in Hattr as (_ & -> & Hr). rewrite Hs3 in Hr. simpl in Hr.
  destruct (index_initialized (session st)) as [b'|] eqn:Hii; [|done].
  injection Hr as ->.
  destruct b'; simpl in H.
  - binv H as u5 s5 Hret; [|done]. injection Hret as _ <- _.
    apply set_session_inv in H as (-> & _ & ->).
    exists h. left. by rewrite Hs3.
  - binv H as u5 s5 Hing.
    2:{ right. exists h. rewrite <- Hs3.
        binv H as docs s6 Hread; [|by apply reading_document_inv in H as [-> _]].
        apply reading_document_inv in Hread as [Hs4 _].
        binv H as chunks s7 Hchunk;
          [|apply chunk_data_inv in H as [-> _]; by rewrite Hs4].
        apply chunk_data_inv in Hchunk as [Hs5 _].
        binv H as index s8 Hattr;
          [|apply attr_inv in H as (_ & -> & _); by rewrite Hs5, Hs4].
        apply attr_inv in Hattr as (_ & -> & _).
        binv H as u9 s9 Hgen;
          [|apply ingestion_keeps in H; by rewrite H, Hs5, Hs4].
        by apply set_session_inv in H as [[=] _]. }
    apply set_session_inv in H as (-> & _ & Hs7).
    exists h. right. split; [done|]. rewrite Hs7. f_equal.
    binv Hing as docs s6 Hread; [|done].
    apply reading_document_inv in Hread as [Hs4 _].
    binv Hing as chunks s7 Hchunk; [|done].
    apply chunk_data_inv in Hchunk as [Hs5 _].
    binv Hing as index s8 Hattr; [|done].
    apply attr_inv in Hattr as (_ & -> & _).
    binv Hing as u9 s9 Hgen; [|done].
    apply ingestion_keeps in Hgen as Hs6.
    apply set_session_inv in Hing as (_ & _ & Hs8).
    by rewrite Hs8, Hs6, Hs5, Hs4, Hs3.
Qed.

(** X11. A start action that raises, wherever it does, leaves the page,
    the [index_initialized] flag and the embedding handle of the session as
    they were: the next run shows the landing page again, with the index
    still not marked as built. *)
Theorem failed_start_keeps_landing st (x : Exn) st' log :
  start_action env st = (Raise x, st', log) ->
  page (session st') = page (session st)
  /\ index_initialized (session st') = index_initialized (session st)
  /\ embeddings (session st') = embeddings (session st).
Proof.
  intros H. apply start_action_session in H as [->|[h ->]]; done.
Qed.

Lemma run_script_session_ok (inp : RunInput) st r st' log :
  session_ok (session st) ->
  run_script env inp st = (r, st', log) ->
  session_ok (session st').
Proof.
  intros Hok. unfold run_script. intros H.
  assert (Hinit_ok : forall r0 s0 l0, init_session env st = (r0, s0, l0) ->
            (ready (session st) /\ s0 = st)
            \/ (~ ready (session st)
                /\ page (session s0) = Some "first_page"
                /\ index_initialized (session s0) = Some false
                /\ is_Some (pinecone_index (session s0))
                /\ (r0 = Ok tt -> is_Some (embeddings (session s0))))).
  { intros r0 s0 l0 H0.
    apply init_session_fields in H0 as (Hp & Hi & Hx & _ & He & Hsame).
    destruct Hok as [Hempty|[(Hp0 & Hi0 & Hx0)|Hready]].
    - right. rewrite Hempty in *. simpl in *.
      split; [intros (Hc & _); simpl in Hc; congruence|]. by repeat split.
    - right. split; [intros (Hc & _); congruence|].
      rewrite Hp0 in *. simpl in *.
      repeat split; try done. by rewrite Hi, Hi0.
    - left. split; [done|].
      destruct Hready as (Hp0 & _ & [h Hh] & [e0 He0]).
      by apply Hsame; rewrite ?Hp0, ?Hh, ?He0. }
  assert (Hfirst_ok : forall s0 r1 s1 l1,
            page (session s0) = Some "first_page" ->
            index_initialized (session s0) = Some false ->
            is_Some (pinecone_index (session s0)) ->
            is_Some (embeddings (session s0)) ->
            first_page env inp s0 = (r1, s1, l1) ->
            session_ok (session s1)).
  { intros s0 r1 s1 l1 Hp Hi Hx [e0 He0] H1.
    apply first_page_spec in H1 as [(_ & _ & s & Hs & Hstart)|(_ & _ & Hs)].
    - apply start_action_session in Hstart. rewrite Hs in Hstart.
      destruct r1 as [[]|x].
      + destruct Hstart as [h [[Hc _]|[_ ->]]]; [congruence|].
        right. right. repeat split; simpl; try done; [by eexists|by exists e0].
      + destruct Hstart as [->|[h ->]]; right; left; by repeat split.
    - right. left. rewrite Hs. by repeat split. }
  binv H as u0 s0 Hinit.
  2:{ destruct (Hinit_ok _ _ _ H) as [[Hr ->]|(_ & Hp & Hi & Hx & _)]; [done|].
      right. left. by repeat split. }
  destruct (Hinit_ok _ _ _ Hinit) as [[Hr ->]|(Hnr & Hp & Hi & Hx & He)].
  - destruct Hr as (Hp & Hrest).
    binv H as u1 s1 Hfirst.
    + apply first_page_spec in Hfirst as [(Hc & _)|(_ & _ & Hs)]; [congruence|].
      apply chatbot_page_keeps in H. right. right. rewrite H, Hs. by split.
    + apply first_page_spec in H as [(Hc & _)|(_ & _ & Hs)]; [congruence|].
      right. right. rewrite Hs. by split.
  - assert (Hemb : is_Some (embeddings (session s0))) by (apply He; by destruct u0).
    binv H as u1 s1 Hfirst.
    + apply chatbot_page_keeps in H. rewrite H.
      exact (Hfirst_ok _ _ _ _ Hp Hi Hx Hemb Hfirst).
    + exact (Hfirst_ok _ _ _ _ Hp Hi Hx Hemb H).
Qed.

Lemma run_session_session_ok (inps : list RunInput) :
  forall st st' log,
    session_ok (session st) ->
    run_session env inps st = (st', log) ->
    session_ok (session st').
Proof.
  induction inps as [|inp inps IH]; intros st st' log Hs Hrun; simpl in Hrun.
  - by injection Hrun as <- <-.
  - destruct (run_script env inp (blank_screen st)) as [[r1 s1] l1] eqn:Hr.
    destruct (run_session env inps s1) as [s2 l2] eqn:Hrest.
    injection Hrun as <- <-.
    apply (IH s1 s2 l2); [|done].
    by eapply (run_script_session_ok inp (blank_screen st)).
Qed.

(** X12. Between two runs of a session, the session state is empty, or on
    the landing page with the index not marked as built, or on the query
    page with the index marked as built, an index object and an embedding
    handle.  So the state "landing page, index marked as built" of a second
    start action never occurs, and a query never finds Python's [None] in
    place of the index. *)
Theorem session_states (w : World) (inps : list RunInput) st' log :
  run_session env inps (new_session w) = (st', log) ->
  session_ok (session st')
  /\ ~ (page (session st') = Some "first_page"
        /\ index_initialized (session st') = Some true)
  /\ (page (session st') = Some "chatbot" -> ready (session st')).
Proof.
  intros H.
  assert (Hok : session_ok (session st')).
  { apply (run_session_session_ok inps (new_session w) st' log); [by left|done]. }
  split; [exact Hok|].
  destruct Hok as [->|[(Hp & Hi & _)|Hr]].
  - split; [by intros [[=] _]|by intros [=]].
  - split; [intros [_ Hc]; congruence|intros Hc; congruence].
  - split; [|done]. destruct Hr as (Hp & _). intros [Hc _]. congruence.
Qed.

Lemma init_session_ready st :
  ready (session st) -> init_session env st = (Ok tt, st, []).
Proof.
  intros (Hp & _ & [h Hh] & [e0 He0]).
  destruct (init_session env st) as [[r0 s0] l0] eqn:H.
  apply init_session_fields in H as (_ & _ & _ & _ & _ & Hsame).
  by destruct Hsame as (-> & -> & ->); rewrite ?Hp, ?Hh, ?He0.
Qed.

Lemma first_page_chatbot (inp : RunInput) st :
  page (session st) = Some "chatbot" -> first_page env inp st = (Ok tt, st, []).
Proof.
  intros Hp. unfold first_page, attr, bind, get_session, ret. simpl.
  by rewrite Hp.
Qed.

Lemma run_script_ready (inp : RunInput) st :
  ready (session st) -> run_script env inp st = chatbot_page env inp st.
Proof.
  intros Hr. unfold run_script, bind at 1.
  rewrite (init_session_ready st Hr). unfold bind at 1.
  rewrite (first_page_chatbot inp st (proj1 Hr)).
  destruct (chatbot_page env inp st) as [[r0 s0] l0]. by destruct r0.
Qed.

(** X13. Once the session is on the query page, a run of the script does
    not change the session state, and makes no call but those of answering
    the question: no provisioning, no ingestion, no new embedding handle.
    With an empty input it makes no call at all. *)
Theorem query_page_run (inp : RunInput) st r st' log :
  ready (session st) ->
  run_script env inp st = (r, st', log) ->
  session st' = session st
  /\ Forall (fun ev => is_question_call ev = true) log
  /\ (text_value inp = "" -> log = [] /\ r = Ok tt).
Proof.
  intros Hr H. rewrite (run_script_ready inp st Hr) in H.
  split; [by apply chatbot_page_keeps in H|].
  split; [revert H; by apply chatbot_page_emits|].
  intros Hempty. unfold chatbot_page, attr, bind, get_session, render, ret in H.
  simpl in H. rewrite (proj1 Hr) in H. simpl in H. rewrite Hempty in H. simpl in H.
  by injection H as <- _ <-.
Qed.

(** X14. On the query page, a question that [get_result] answers is shown
    as "Response: " followed by the answer, after the widgets of the page;
    when [get_result] raises, the run raises the same error and shows no
    response. *)
Theorem query_page_display (inp : RunInput) (e : EmbHandle) (h : IndexHandle)
    st ra s1 log :
  page (session st) = Some "chatbot" ->
  index_initialized (session st) = Some true ->
  pinecone_index (session st) = Some (Some h) ->
  embeddings (session st) = Some e ->
  text_value inp <> "" ->
  get_result env (text_value inp) e (Some h) (on_query_screen st) = (ra, s1, log) ->
  run_script env inp (blank_screen st) =
    match ra with
    | Ok a => (Ok tt, add_ui (UiWrite ("Response: " +:+ answer_str a)) s1, log)
    | Raise x => (Raise x, s1, log)
    end.
Proof.
  intros Hp Hi Hx He Hq Hget.
  rewrite run_script_ready
    by (repeat split; simpl; try done; by eexists).
  unfold chatbot_page, attr, bind, get_session, render, ret. simpl.
  rewrite Hp. simpl.
  destruct (String.eqb_spec (text_value inp) "") as [Heq|_]; [done|]. simpl.
  rewrite He. simpl. rewrite Hx. simpl.
  unfold on_query_screen, query_screen in Hget. rewrite Hget.
  destruct ra as [a|x]; simpl; [|done].
  by rewrite !app_nil_r.
Qed.

Lemma emits_bind_val {A B : Type} (P : Event -> Prop) (Q : A -> Prop)
    (m : @M World A) (k : A -> @M World B) :
  emits P m ->
  (forall st a st' log, m st = (Ok a, st', log) -> Q a) ->
  (forall a, Q a -> emits P (k a)) ->
  emits P (bind m k).
Proof.
  intros Hm HQ Hk st r st' log H.
  apply bind_inv in H as [(a & st1 & l1 & l2 & H1 & H2 & ->)|(x & H1 & _)].
  - apply Forall_app. split; [by eapply Hm|]. eapply Hk; [|exact H2]. by eapply HQ.
  - by eapply Hm.
Qed.

Ltac config := effects; try (simpl; repeat split; eauto; fail).

Lemma init_session_config : emits (fixed_config env) (init_session env).
Proof.
  unfold init_session. config.
  - destruct (page _); config.
  - destruct (pinecone_index _); config.
  - destruct (embeddings _); config.
Qed.

Lemma initialize_pinecone_config : emits (fixed_config env) (initialize_pinecone env).
Proof. unfold initialize_pinecone. config. case_bool_decide; config. Qed.

Lemma initialize_pinecone_name st pcn st' log :
  initialize_pinecone env st = (Ok pcn, st', log) -> snd pcn = "titanic".
Proof.
  unfold initialize_pinecone, bind, call, print, ret. simpl.
  destruct (respond env (PineconeNew _) (world st)) as [[pc|x] w0]; simpl; [|done].
  destruct (respond env (ListIndexNames pc) w0) as [[names|x] w1]; simpl; [|done].
  case_bool_decide as Hin; simpl; [by intros [= <- _ _]|].
  destruct (respond env (CreateIndex pc _ _ _ _) w1) as [[[]|x] w2]; simpl; [|done].
  by intros [= <- _ _].
Qed.

Lemma upload_loop_config (h : EmbHandle) (index : option IndexHandle)
    (chunks : list Document) :
  forall i, emits (fixed_config env) (upload_loop env h index i chunks).
Proof. induction chunks as [|c rest IH]; intros i; simpl; config. Qed.

Lemma ingestion_config (chunks : list Document) (index : option IndexHandle) :
  emits (fixed_config env) (generate_and_upload_embeddings env chunks index).
Proof.
  unfold generate_and_upload_embeddings. config. apply upload_loop_config.
Qed.

Lemma get_result_config (q : string) e (index : option IndexHandle) :
  emits (fixed_config env) (get_result env q e index).
Proof.
  unfold get_result. config.
  - unfold retrieve_related_sections. config. apply collect_matches_emits.
  - match goal with |- _ (match ?l with _ => _ end) => destruct l end; config.
    unfold generate_response. config.
    + apply section_texts_emits.
    + destruct (choices _); config.
Qed.

Lemma start_action_config : emits (fixed_config env) (start_action env).
Proof.
  unfold start_action. apply emits_bind; [config|intros ?].
  apply (emits_bind_val _ (fun pcn => snd pcn = "titanic"));
    [apply initialize_pinecone_config|apply initialize_pinecone_name|].
  intros pcn Hname. config.
  destruct (negb _); config.
  - unfold reading_document. config.
  - unfold chunk_data. config.
  - apply ingestion_config.
Qed.

Lemma run_script_config (inp : RunInput) : emits (fixed_config env) (run_script env inp).
Proof.
  unfold run_script. config.
  - apply init_session_config.
  - unfold first_page. config. destruct (String.eqb _ _); config.
    destruct (button_clicked inp); config. apply start_action_config.
  - unfold chatbot_page. config. destruct (String.eqb _ _); config.
    destruct (negb _); config. apply get_result_config.
Qed.

(** X15. Every call that a session makes, in any run and whatever the
    services answer, carries the constants of the script: the index
    "titanic" with 768 dimensions and the euclidean metric on aws
    us-east-1, the one PDF file, chunks of 1000 characters overlapping by
    50, the one embedding model, one entry per upsert, 5 matches with
    metadata per query, and one user message for "gpt-4o-mini". *)
Theorem session_calls_fixed (inps : list RunInput) :
  forall st st' log,
    run_session env inps st = (st', log) -> Forall (fixed_config env) log.
Proof.
  induction inps as [|inp inps IH]; intros st st' log H; simpl in H.
  - injection H as <- <-. constructor.
  - destruct (run_script env inp (blank_screen st)) as [[r1 s1] l1] eqn:Hrun.
    destruct (run_session env inps s1) as [s2 l2] eqn:Hrest.
    injection H as <- <-. apply Forall_app. split.
    + by eapply run_script_config.
    + by eapply IH.
Qed.

Lemma reading_document_ok (file : string) st docs st' log :
  reading_document env file st = (Ok docs, st', log) ->
  log = [Ev (PdfLoad file) (Ok docs)] /\ session st' = session st.
Proof.
  unfold reading_document, bind, print, call, ret. simpl.
  destruct (respond env (PdfLoad file) (world st)) as [[ds|x] w0];
    by intros [= <- <- <-].
Qed.

Lemma chunk_data_ok (docs : list Document) (size overlap : Z) st chunks st' log :
  chunk_data env docs size overlap st = (Ok chunks, st', log) ->
  log = [Ev (SplitDocuments size overlap docs) (Ok chunks)] /\ session st' = session st.
Proof.
  unfold chunk_data, bind, print, call, ret. simpl.
  destruct (respond env (SplitDocuments size overlap docs) (world st)) as [[cs|x] w0];
    by intros [= <- <- <-].
Qed.

(** A start action that completes on a session whose index is not marked
    as built: the provisioning, the index object, then the whole ingestion
    into that index object, which is the one left in the session. *)
Lemma start_action_pass st st' log :
  index_initialized (session st) = Some false ->
  start_action env st = (Ok tt, st', log) ->
  exists (pc : PineconeClient) (h : IndexHandle) (docs chunks : list Document)
         (e : EmbHandle) (vs : list Vector) (provisioning : list Event),
    log = provisioning
          ++ [Ev (GetIndex pc "titanic") (Ok h);
              Ev (PdfLoad "Knowledge_base/titanic_final_eda.pdf") (Ok docs);
              Ev (SplitDocuments 1000 50 docs) (Ok chunks);
              Ev (HFEmbeddingsNew "sentence-transformers/all-mpnet-base-v2") (Ok e)]
          ++ ok_events e h 0 (zip chunks vs)
    /\ length vs = length chunks
    /\ count is_ingestion_call provisioning = 0
    /\ pinecone_index (session st') = Some (Some h)
    /\ index_initialized (session st') = Some true
    /\ page (session st') = Some "chatbot".
Proof.
  intros Hii H.
  unfold start_action in H.
  binv H as u0 s0 Hrender; [|done].
  apply render_inv in Hrender as (_ & -> & Hs0).
  binv H as pcn s1 Hinit; [|done].
  pose proof (initialize_pinecone_no_ingestion _ _ _ _ Hinit) as Hno.
  pose proof (initialize_pinecone_name _ _ _ _ Hinit) as Hname.
  apply initialize_pinecone_keeps in Hinit as Hs1. rewrite Hs0 in Hs1.
  binv H as h s2 Hget; [|done].
  apply call_inv in Hget as [-> Hs2]. rewrite Hs1 in Hs2.
  binv H as u3 s3 Hset; [|done].
  apply set_session_inv in Hset as (_ & -> & Hs3). rewrite Hs2 in Hs3.
  binv H as b s4 Hattr; [|done].
  apply attr_inv in Hattr as (-> & -> & Hr). rewrite Hs3 in Hr. simpl in Hr.
  rewrite Hii in Hr. injection Hr as ->. simpl in H.
  binv H as u5 s5 Hing; [|done].
  apply set_session_inv in H as (_ & -> & Hs9).
  binv Hing as docs s6 Hread; [|done].
  apply reading_document_ok in Hread as [-> Hs4].
  binv Hing as chunks s7 Hchunk; [|done].
  apply chunk_data_ok in Hchunk as [-> Hs5].
  binv Hing as index s8 Hattr; [|done].
  apply attr_inv in Hattr as (-> & -> & Hr).
  rewrite Hs5, Hs4, Hs3 in Hr. simpl in Hr. injection Hr as ->.
  binv Hing as u9 s9 Hgen; [|done].
  apply set_session_inv in Hing as (_ & -> & Hs8).
  apply ingestion_keeps in Hgen as Hs7.
  apply ingestion_shape in Hgen
    as [(x' & [=] & _)|(e & [[_ (vs & Hlen & ->)]|(k & c & vs & x' & tail & _ & _ & [=] & _)])].
  destruct pcn as [pc n]. simpl in Hname. subst n.
  exists pc, h, docs, chunks, e, vs.
  match type of Hinit with _ = (_, _, ?l) => exists l end.
  split.
  { simpl. rewrite !app_nil_r. reflexivity. }
  split; [done|]. split; [by apply count_none|].
  rewrite Hs9, Hs8, Hs7, Hs5, Hs4, Hs3. by repeat split.
Qed.

(** A run from the landing page that ends on the query page went through
    a start action that returned. *)
Lemma run_script_pass (inp : RunInput) st r st' log :
  landing (session st) ->
  run_script env inp st = (r, st', log) ->
  page (session st') = Some "chatbot" ->
  exists s0 s1 li ls lc,
    index_initialized (session s0) = Some false
    /\ start_action env s0 = (Ok tt, s1, ls)
    /\ session st' = session s1
    /\ log = li ++ ls ++ lc
    /\ count is_ingestion_call li = 0
    /\ count is_ingestion_call lc = 0.
Proof.
  intros Hl H Hend. unfold run_script in H.
  assert (Hfirst_page : forall s, init_session env st = s ->
            page (session s.1.2) = Some "first_page"
            /\ index_initialized (session s.1.2) = Some false
            /\ count is_ingestion_call s.2 = 0).
  { intros [[r0 s0] l0] Hinit. apply init_session_spec in Hinit as (Hp & Hi & Hc & _).
    simpl. destruct Hl as [Hl|[Hl Hl']]; by rewrite Hp, Hi, Hl. }
  binv H as u0 s0 Hinit.
  2:{ destruct (Hfirst_page _ H) as (Hp & _). simpl in Hp. congruence. }
  destruct (Hfirst_page _ Hinit) as (Hp & Hi & Hc). simpl in Hp, Hi, Hc.
  binv H as u1 s1 Hfirst.
  2:{ apply first_page_spec in H
        as [(_ & _ & s & Hs & Hstart)|(_ & _ & Hs)]; [|congruence].
      apply start_action_session in Hstart as [Hst|[h Hst]];
        rewrite Hst, Hs in Hend; simpl in Hend; congruence. }
  apply chatbot_page_keeps in H as Hs2.
  pose proof (chatbot_page_no_ingestion _ _ _ _ _ H) as Hchat0.
  apply first_page_spec in Hfirst
    as [(_ & _ & s & Hs & Hstart)|(_ & _ & Hs)]; [|congruence].
  destruct u1.
  match goal with
  | |- exists _ _ _ _ _, _ /\ _ /\ _ /\ ?a ++ ?b ++ ?c = _ /\ _ =>
      exists s, s1, a, b, c
  end.
  rewrite Hs. by repeat split.
Qed.

(** C1. In a session, the runs before the start button is clicked make no
    ingestion call.  A run in which the click takes the session to the
    query page holds the one ingestion pass of the session: the PDF is
    loaded, what the loader returned is split, an embedding handle is
    built, and every chunk the splitter returned is embedded and upserted,
    in order, into the index object the run leaves in the session, which
    is then marked as built; the runs before and after, and the rest of
    that run, add no load, no split and no upsert.  The handler of the
    button, when the index is already marked as built, makes no ingestion
    call, while it calls the provisioner first in every case. *)
Theorem ingestion_happens_once :
  (forall (w : World) (inps : list RunInput) st' log,
      Forall no_click inps ->
      run_session env inps (new_session w) = (st', log) ->
      count is_ingestion_call log = 0)
  /\ (forall (w : World) (pre post : list RunInput) (click : RunInput)
        st1 l1 r st2 l2 st3 l3,
      Forall no_click pre ->
      run_session env pre (new_session w) = (st1, l1) ->
      run_script env click (blank_screen st1) = (r, st2, l2) ->
      page (session st2) = Some "chatbot" ->
      run_session env post st2 = (st3, l3) ->
      run_session env (pre ++ click :: post) (new_session w) = (st3, l1 ++ l2 ++ l3)
      /\ count is_pdf_load (l1 ++ l2 ++ l3) = 1
      /\ count is_split (l1 ++ l2 ++ l3) = 1
      /\ count is_ingestion_call l1 = 0
      /\ count is_ingestion_call l3 = 0
      /\ exists (h : IndexHandle) (docs chunks : list Document) (e : EmbHandle)
                (before pass after : list Event),
           l2 = before ++ pass ++ after
           /\ count is_ingestion_call before = 0
           /\ count is_ingestion_call after = 0
           /\ pass !! 0 = Some (Ev (PdfLoad "Knowledge_base/titanic_final_eda.pdf") (Ok docs))
           /\ pass !! 1 = Some (Ev (SplitDocuments 1000 50 docs) (Ok chunks))
           /\ pass !! 2 =
                Some (Ev (HFEmbeddingsNew "sentence-transformers/all-mpnet-base-v2") (Ok e))
           /\ length pass = 3 + 2 * length chunks
           /\ (forall (i : nat) (chunk : Document),
                  chunks !! i = Some chunk ->
                  exists v : Vector,
                    pass !! (3 + 2 * i) = Some (Ev (EmbedQuery e (page_content chunk)) (Ok v))
                    /\ pass !! (4 + 2 * i) =
                         Some (Ev (Upsert h
                                     [("chunk-" +:+ dec_nat i, v,
                                       {["chunk_id" := VInt (Z.of_nat i);
                                         "text" := VStr (page_content chunk)]})])
                                  (Ok tt)))
           /\ count is_upsert (l1 ++ l2 ++ l3) = length chunks
           /\ pinecone_index (session st2) = Some (Some h)
           /\ index_initialized (session st2) = Some true)
  /\ (forall st r st' log,
      index_initialized (session st) = Some true ->
      start_action env st = (r, st', log) ->
      count is_ingestion_call log = 0)
  /\ (forall st r st' log,
      start_action env st = (r, st', log) ->
      exists resp rest,
        log = Ev (PineconeNew (environ env "PINECONE_API_KEY")) resp :: rest).
Proof.
  split; [|split; [|split]].
  - intros w inps st' log Hno H.
    by apply (run_session_landing inps Hno _ _ _ (landing_new w)) in H as [_ H].
  - intros w pre post click st1 l1 r st2 l2 st3 l3 Hno Hpre Hclick Hpage Hpost.
    destruct (run_session_landing pre Hno _ _ _ (landing_new w) Hpre) as [Hl1 Hc1].
    destruct (run_session_chatbot post _ _ _ Hpage Hpost) as [_ Hc3].
    split.
    { apply (run_session_app pre (click :: post) _ _ _ _ _ Hpre).
      simpl. by rewrite Hclick, Hpost. }
    pose proof (run_script_spec _ _ _ _ _ Hclick) as (_ & _ & Hdone).
    destruct (Hdone Hl1 Hpage) as [H1 H2].
    pose proof (no_ingestion_counts _ Hc1) as (Ha1 & Ha2 & Ha3).
    pose proof (no_ingestion_counts _ Hc3) as (Hb1 & Hb2 & Hb3).
    split; [by rewrite !count_app, Ha1, Hb1, H1|].
    split; [by rewrite !count_app, Ha2, Hb2, H2|].
    split; [done|]. split; [done|].
    destruct (run_script_pass click (blank_screen st1) _ _ _ Hl1 Hclick Hpage)
      as (s0 & s1 & li & ls & lc & Hii & Hstart & Hsess & -> & Hli & Hlc).
    destruct (start_action_pass _ _ _ Hii Hstart)
      as (pc & h & docs & chunks & e & vs & prov & -> & Hlen & Hprov & Hidx & Hbuilt & _).
    assert (Hzip : length (zip chunks vs) = length chunks)
      by (rewrite length_zip_with; lia).
    exists h, docs, chunks, e, (li ++ prov ++ [Ev (GetIndex pc "titanic") (Ok h)]),
      ([Ev (PdfLoad "Knowledge_base/titanic_final_eda.pdf") (Ok docs);
        Ev (SplitDocuments 1000 50 docs) (Ok chunks);
        Ev (HFEmbeddingsNew "sentence-transformers/all-mpnet-base-v2") (Ok e)]
       ++ ok_events e h 0 (zip chunks vs)), lc.
    assert (Hbefore : count is_ingestion_call
                        (li ++ prov ++ [Ev (GetIndex pc "titanic") (Ok h)]) = 0)
      by (by rewrite !count_app, Hli, Hprov).
    split; [by rewrite <- !app_assoc|].
    split; [done|]. split; [done|].
    split; [done|]. split; [done|]. split; [done|].
    split; [rewrite length_app, ok_events_length, Hzip; simpl; lia|].
    split.
    { intros i chunk Hi.
      destruct (lookup_lt_is_Some_2 vs i) as [v Hv];
        [rewrite Hlen; by eapply lookup_lt_Some|].
      exists v.
      assert (Hcv : zip chunks vs !! i = Some (chunk, v)).
      { rewrite lookup_zip_with, Hi. simpl. by rewrite Hv. }
      destruct (ok_events_lookup e h _ 0 i chunk v Hcv) as [He Hu].
      split; [exact He | exact Hu]. }
    split.
    { pose proof (no_ingestion_counts _ Hli) as (_ & _ & Hu1).
      pose proof (no_ingestion_counts _ Hprov) as (_ & _ & Hu0).
      pose proof (no_ingestion_counts _ Hlc) as (_ & _ & Hu2).
      rewrite !count_app, Ha3, Hb3, Hu0, Hu1, Hu2, ok_events_upserts, Hzip.
      change (count is_upsert [Ev (GetIndex pc "titanic") (Ok h);
                Ev (PdfLoad "Knowledge_base/titanic_final_eda.pdf") (Ok docs);
                Ev (SplitDocuments 1000 50 docs) (Ok chunks);
                Ev (HFEmbeddingsNew "sentence-transformers/all-mpnet-base-v2") (Ok e)])
        with 0.
      lia. }
    by rewrite Hsess.
  - intros st r st' log Hii H.
    apply start_action_spec in H as (_ & Hbuilt & _). by apply Hbuilt.
  - intros st r st' log H.
    by apply start_action_spec in H as (Hfirst & _).
Qed.

End Verification.

(** ** The chunker of the specification, on 2200 characters *)

Lemma windows_long {A : Type} (fuel size overlap : nat) (text : list A) :
  size < length text ->
  SpecChunker.windows (S fuel) size overlap text =
    take size text :: SpecChunker.windows fuel size overlap (drop (size - overlap) text).
Proof. intros H. simpl. by rewrite (proj2 (Nat.leb_gt _ _) H). Qed.

Lemma windows_short {A : Type} (fuel size overlap : nat) (text : list A) :
  length text <= size ->
  SpecChunker.windows (S fuel) size overlap text = [text].
Proof. intros H. simpl. by rewrite (proj2 (Nat.leb_le _ _) H). Qed.

Lemma windows_2200 {A : Type} (text : list A) :
  length text = 2200 ->
  SpecChunker.windows 2200 1000 50 text =
    [take 1000 text; take 1000 (drop 950 text); drop 1900 text].
Proof.
  intros Hlen.
  change 2200 with (S (S (S 2197))) at 1.
  rewrite windows_long by lia.
  rewrite windows_long by (rewrite length_drop; lia).
  rewrite windows_short by (rewrite !length_drop; lia).
  change (1000 - 50) with 950. by rewrite drop_drop.
Qed.

Lemma append_empty_r (s : string) : s +:+ "" = s.
Proof.
  induction s as [|b s IH]; [done|].
  change (String b (s +:+ "") = String b s). by rewrite IH.
Qed.

Lemma append_assoc (s t u : string) : (s +:+ t) +:+ u = s +:+ (t +:+ u).
Proof.
  induction s as [|b s IH]; [done|].
  change (String b ((s +:+ t) +:+ u) = String b (s +:+ (t +:+ u))). by rewrite IH.
Qed.

Lemma text_of_cons (c : string) (cs : list string) :
  SpecChunker.text_of (c :: cs) = c +:+ SpecChunker.text_of cs.
Proof.
  destruct cs as [|c' cs].
  - change (c = c +:+ ""). by rewrite append_empty_r.
  - reflexivity.
Qed.

Lemma characters_from_continuations (t : string) :
  SpecChunker.continuations t ->
  forall cur rest,
    SpecChunker.characters_from cur (t +:+ rest)
    = SpecChunker.characters_from (cur +:+ t) rest.
Proof.
  unfold SpecChunker.continuations.
  induction t as [|b t IH]; simpl; intros Ht cur rest.
  - by rewrite append_empty_r.
  - apply Forall_cons in Ht as [Hb Ht]. rewrite Hb.
    rewrite (IH Ht). by rewrite append_assoc.
Qed.

Lemma characters_from_text (cs : list string) :
  Forall (fun c => SpecChunker.char_shaped c /\ SpecChunker.char_led c) cs ->
  forall cur, SpecChunker.characters_from cur (SpecChunker.text_of cs) = cur :: cs.
Proof.
  induction 1 as [|c cs [(b & t & -> & Ht) Hled] _ IH]; intros cur; [done|].
  rewrite text_of_cons. simpl in *. rewrite Hled.
  by rewrite (characters_from_continuations t Ht), IH.
Qed.

(** The characters of the text of a list of characters are that list. *)
Lemma characters_text_of (cs : list string) :
  SpecChunker.well_formed cs ->
  SpecChunker.characters (SpecChunker.text_of cs) = cs.
Proof.
  intros [Hshape Hled]. destruct cs as [|c cs]; [done|].
  apply Forall_cons in Hshape as [(b & t & -> & Ht) Hshape]. simpl in Hled.
  rewrite text_of_cons. simpl.
  rewrite (characters_from_continuations t Ht). simpl.
  apply characters_from_text.
  apply Forall_forall. intros c Hc. split.
  - by eapply (proj1 (Forall_forall _ _) Hshape).
  - by eapply (proj1 (Forall_forall _ _) Hled).
Qed.

Lemma continuations_app (t u : string) :
  SpecChunker.continuations t -> SpecChunker.continuations u ->
  SpecChunker.continuations (t +:+ u).
Proof.
  unfold SpecChunker.continuations. induction t as [|b t IH]; simpl; [done|].
  intros Ht Hu. apply Forall_cons in Ht as [Hb Ht]. constructor; auto.
Qed.

Lemma characters_from_shape (s : string) :
  forall cur,
    exists t r,
      SpecChunker.characters_from cur s = (cur +:+ t) :: r
      /\ SpecChunker.continuations t
      /\ Forall (fun c => SpecChunker.char_shaped c /\ SpecChunker.char_led c) r.
Proof.
  induction s as [|b s IH]; intros cur; simpl.
  - exists "", []. rewrite append_empty_r. repeat split; constructor.
  - destruct (SpecChunker.is_continuation b) eqn:Hb.
    + destruct (IH (cur +:+ String b "")) as (t & r & -> & Ht & Hr).
      exists (String b t), r. rewrite append_assoc. simpl.
      split; [done|]. split; [|done]. by constructor.
    + destruct (IH (String b "")) as (t & r & -> & Ht & Hr).
      exists "", (String b t :: r). rewrite append_empty_r. simpl.
      split; [done|]. split; [constructor|].
      constructor; [|done]. split; [by exists b, t|done].
Qed.

Lemma characters_well_formed (s : string) :
  SpecChunker.well_formed (SpecChunker.characters s).
Proof.
  destruct s as [|b s]; [split; constructor|]. simpl.
  destruct (characters_from_shape s (String b "")) as (t & r & -> & Ht & Hr).
  simpl. split.
  - constructor; [by exists b, t|]. eapply Forall_impl; [exact Hr|]. by intros c [? ?].
  - eapply Forall_impl; [exact Hr|]. by intros c [? ?].
Qed.

Lemma well_formed_take (n : nat) (cs : list string) :
  SpecChunker.well_formed cs -> SpecChunker.well_formed (take n cs).
Proof.
  intros [Hs Hl]. split; [by apply Forall_take|].
  destruct cs as [|c cs], n as [|n]; simpl; try constructor.
  by apply Forall_take.
Qed.

Lemma well_formed_drop (n : nat) (cs : list string) :
  SpecChunker.well_formed cs -> SpecChunker.well_formed (drop n cs).
Proof.
  intros [Hs Hl]. split; [by apply Forall_drop|].
  destruct n as [|n]; [done|]. destruct cs as [|c cs]; [constructor|]. simpl in *.
  apply Forall_tail. by apply Forall_drop.
Qed.

(** C9, as the chunker of the specification has it. A page of 2200
    characters, with windows of 1000 characters overlapping by 50, gives
    three chunks, of 1000, 1000 and 300 characters; the ingestion names them
    "chunk-0" to "chunk-2"; none is longer than 1000 characters, and each
    shares its last 50 characters with the beginning of the next. *)
Theorem chunks_of_2200 (page : Document) :
  SpecChunker.char_length (page_content page) = 2200 ->
  let chunks := SpecChunker.split_documents 1000 50 [page] in
  let texts := page_content <$> chunks in
  SpecChunker.char_length <$> texts = [1000; 1000; 300]
  /\ chunk_entry_id <$> seq 0 (length chunks) = ["chunk-0"; "chunk-1"; "chunk-2"]
  /\ Forall (fun t => SpecChunker.char_length t <= 1000) texts
  /\ SpecChunker.consecutive_share 50 texts.
Proof.
  intros Hlen chunks texts.
  set (text := SpecChunker.characters (page_content page)).
  assert (Htext : length text = 2200) by exact Hlen.
  assert (Hwf : SpecChunker.well_formed text) by apply characters_well_formed.
  assert (Hchunks : texts =
            SpecChunker.text_of <$>
              [take 1000 text; take 1000 (drop 950 text); drop 1900 text]).
  { unfold texts, chunks, SpecChunker.split_documents. cbn [flat_map].
    rewrite app_nil_r. unfold SpecChunker.split_text. cbv zeta. fold text.
    rewrite Htext, (windows_2200 text Htext). reflexivity. }
  assert (H1 : SpecChunker.characters (SpecChunker.text_of (take 1000 text))
               = take 1000 text)
    by (apply characters_text_of, well_formed_take, Hwf).
  assert (H2 : SpecChunker.characters (SpecChunker.text_of (take 1000 (drop 950 text)))
               = take 1000 (drop 950 text))
    by (apply characters_text_of, well_formed_take, well_formed_drop, Hwf).
  assert (H3 : SpecChunker.characters (SpecChunker.text_of (drop 1900 text))
               = drop 1900 text)
    by (apply characters_text_of, well_formed_drop, Hwf).
  assert (Hlens : SpecChunker.char_length <$> texts = [1000; 1000; 300]).
  { rewrite Hchunks. cbn [fmap list_fmap]. unfold SpecChunker.char_length.
    rewrite H1, H2, H3, !length_take, !length_drop, Htext.
    repeat f_equal; lia. }
  assert (Hn : length chunks = 3).
  { apply (f_equal length) in Hlens. unfold texts in Hlens.
    by rewrite !length_fmap in Hlens. }
  split; [exact Hlens|]. split; [by rewrite Hn|]. split.
  - apply (proj1 (Forall_fmap SpecChunker.char_length (fun n => n <= 1000) texts)).
    rewrite Hlens. repeat constructor; lia.
  - rewrite Hchunks. cbn [fmap list_fmap SpecChunker.consecutive_share].
    unfold SpecChunker.share. cbv zeta.
    rewrite H1, H2, H3.
    rewrite !length_take, !length_drop, Htext.
    repeat split; try lia.
    + replace (1000 `min` 2200 - 50) with 950 by lia.
      rewrite take_take. replace (50 `min` 1000) with 50 by lia.
      by rewrite (take_drop_commute text 50 950).
    + replace (1000 `min` (2200 - 950) - 50) with 950 by lia.
      replace (drop 1900 text) with (drop 950 (drop 950 text))
        by (rewrite drop_drop; f_equal).
      by rewrite (take_drop_commute (drop 950 text) 50 950).
Qed.

(** * Runs in the small world *)

Lemma Demo_index_service : index_service Demo.env Demo.listed.
Proof.
  split; unfold Demo.listed; simpl.
  - intros key w r w' n [= _ <-]. done.
  - intros pc w names w' n [= <- _]. done.
  - intros pc w r w' n [= _ <-]. done.
  - intros pc n d m s w w'. case_bool_decide; [discriminate|].
    intros [= <-]. simpl. apply list_elem_of_here.
Qed.

Lemma Demo_embeds_768 : embeds_768 Demo.env.
Proof.
  intros h text w v w'. simpl. intros [= <- _].
  unfold Demo.vector_of. by rewrite length_replicate.
Qed.

Lemma ingestion_happens_once_witness :
  let s0 := new_session Demo.world0 in
  let pre := run_session Demo.env [Demo.load] s0 in
  let clicked := run_script Demo.env Demo.click (blank_screen pre.1) in
  let post := run_session Demo.env [Demo.ask "What is the survival rate?"] clicked.1.2 in
  let again := start_action Demo.env post.1 in
  let t0 := "The overall survival rate was about 38 percent." in
  let t1 := "First class carried 216 passengers." in
  (Forall no_click [Demo.load]
   /\ page (session clicked.1.2) = Some "chatbot"
   /\ index_initialized (session post.1) = Some true)
  /\ count is_ingestion_call pre.2 = 0
  /\ count is_pdf_load (pre.2 ++ clicked.2 ++ post.2) = 1
  /\ count is_split (pre.2 ++ clicked.2 ++ post.2) = 1
  /\ count is_ingestion_call post.2 = 0
  /\ (exists (h : IndexHandle) (docs chunks : list Document) (e : EmbHandle)
             (before pass after : list Event),
        clicked.2 = before ++ pass ++ after
        /\ count is_ingestion_call before = 0
        /\ count is_ingestion_call after = 0
        /\ pass !! 0 = Some (Ev (PdfLoad "Knowledge_base/titanic_final_eda.pdf") (Ok docs))
        /\ pass !! 1 = Some (Ev (SplitDocuments 1000 50 docs) (Ok chunks))
        /\ pass !! 2 =
             Some (Ev (HFEmbeddingsNew "sentence-transformers/all-mpnet-base-v2") (Ok e))
        /\ length pass = 3 + 2 * length chunks
        /\ (forall (i : nat) (chunk : Document),
               chunks !! i = Some chunk ->
               exists v : Vector,
                 pass !! (3 + 2 * i) = Some (Ev (EmbedQuery e (page_content chunk)) (Ok v))
                 /\ pass !! (4 + 2 * i) =
                      Some (Ev (Upsert h
                                  [("chunk-" +:+ dec_nat i, v,
                                    {["chunk_id" := VInt (Z.of_nat i);
                                      "text" := VStr (page_content chunk)]})])
                               (Ok tt)))
        /\ count is_upsert (pre.2 ++ clicked.2 ++ post.2) = length chunks
        /\ pinecone_index (session clicked.1.2) = Some (Some h)
        /\ index_initialized (session clicked.1.2) = Some true)
  /\ drop 4 clicked.2 =
       [Ev (PdfLoad "Knowledge_base/titanic_final_eda.pdf") (Ok Demo.pages);
        Ev (SplitDocuments 1000 50 Demo.pages) (Ok Demo.pages);
        Ev (HFEmbeddingsNew "sentence-transformers/all-mpnet-base-v2") (Ok (EmbRef 3));
        Ev (EmbedQuery (EmbRef 3) t0) (Ok (Demo.vector_of t0));
        Ev (Upsert (IndexRef 2)
              [("chunk-0", Demo.vector_of t0,
                {["chunk_id" := VInt 0; "text" := VStr t0]})]) (Ok tt);
        Ev (EmbedQuery (EmbRef 3) t1) (Ok (Demo.vector_of t1));
        Ev (Upsert (IndexRef 2)
              [("chunk-1", Demo.vector_of t1,
                {["chunk_id" := VInt 1; "text" := VStr t1]})]) (Ok tt)]
  /\ count is_upsert (pre.2 ++ clicked.2 ++ post.2) = 2
  /\ count is_ingestion_call again.2 = 0
  /\ exists resp rest, again.2 = Ev (PineconeNew (Some "demo-key")) resp :: rest.
Proof.
  intros s0 pre clicked post again t0 t1.
  assert (Hno : Forall no_click [Demo.load])
    by (constructor; [reflexivity|constructor]).
  assert (Hpage : page (session clicked.1.2) = Some "chatbot")
    by (vm_compute; reflexivity).
  assert (Hbuilt : index_initialized (session post.1) = Some true)
    by (vm_compute; reflexivity).
  split; [by repeat split|].
  destruct (ingestion_happens_once Demo.env) as (H1 & H2 & H3 & H4).
  assert (Hpre : run_session Demo.env [Demo.load] (new_session Demo.world0)
                 = (pre.1, pre.2)) by apply surjective_pairing.
  assert (Hclick : run_script Demo.env Demo.click (blank_screen pre.1)
                   = (clicked.1.1, clicked.1.2, clicked.2))
    by (rewrite <- !surjective_pairing; reflexivity).
  assert (Hpost : run_session Demo.env [Demo.ask "What is the survival rate?"]
                    clicked.1.2 = (post.1, post.2)) by apply surjective_pairing.
  assert (Hagain : start_action Demo.env post.1
                   = (again.1.1, again.1.2, again.2))
    by (rewrite <- !surjective_pairing; reflexivity).
  split; [exact (H1 _ _ _ _ Hno Hpre)|].
  destruct (H2 _ _ _ _ _ _ _ _ _ _ _ Hno Hpre Hclick Hpage Hpost)
    as (_ & Hload & Hsplit & _ & Hafter & Hpass).
  split; [exact Hload|]. split; [exact Hsplit|]. split; [exact Hafter|].
  split; [exact Hpass|].
  split; [vm_compute; reflexivity|].
  split; [vm_compute; reflexivity|].
  split; [exact (H3 _ _ _ _ Hbuilt Hagain)|].
  exact (H4 _ _ _ _ Hagain).
Defined.

Lemma get_result_no_sections_witness :
  let st := new_session Demo.world0 in
  let q := "What is the survival rate?" in
  let run := retrieve_related_sections Demo.env q (EmbRef 0) (Some (IndexRef 0)) st in
  run = (Ok [], run.1.2, run.2)
  /\ get_result Demo.env q (EmbRef 0) (Some (IndexRef 0)) st
     = (Ok (Some "No relevant sections found."), run.1.2, run.2)
  /\ count is_chat run.2 = 0
  /\ count is_openai_new run.2 = 0.
Proof.
  intros st q run.
  assert (Hrun : run = (Ok [], run.1.2, run.2)) by (vm_compute; reflexivity).
  split; [exact Hrun|].
  exact (get_result_no_sections Demo.env q (EmbRef 0) (Some (IndexRef 0)) st
           run.1.2 run.2 Hrun).
Defined.


Lemma retrieve_related_sections_spec_witness :
  let st := new_session Faults.world_mixed in
  let q := "What is the survival rate?" in
  let v := Demo.vector_of q in
  let t0 := "The overall survival rate was about 38 percent." in
  let t1 := "First class carried 216 passengers." in
  let mds : list (gmap string PyVal) :=
    [chunk_metadata 1 t1; {["source" := VStr "elsewhere"]}; chunk_metadata 0 t0] in
  let resp := {| matches := Demo.match_of true <$> Demo.store Faults.world_mixed |} in
  let run := retrieve_related_sections Demo.env q (EmbRef 0) (Some (IndexRef 0)) st in
  (respond Demo.env (EmbedQuery (EmbRef 0) q) (world st) = (Ok v, Faults.world_mixed)
   /\ respond Demo.env (Query (IndexRef 0) v 5 true) Faults.world_mixed
      = (Ok resp, Faults.world_mixed)
   /\ match_metadata <$> matches resp = Some <$> mds)
  /\ run.1.1 = Ok [{| Text := VStr t1; Page := VInt 1 |};
                   {| Text := VStr ""; Page := VInt (-1) |};
                   {| Text := VStr t0; Page := VInt 0 |}]
  /\ exists secs : list RelatedSection,
       run = (Ok secs, set_world st Faults.world_mixed,
              [Ev (EmbedQuery (EmbRef 0) q) (Ok v);
               Ev (Query (IndexRef 0) v 5 true) (Ok resp)])
       /\ length secs = length (matches resp)
       /\ (forall (i : nat) (m : ScoredMatch),
             matches resp !! i = Some m ->
             exists (md : gmap string PyVal) (s : RelatedSection),
               match_metadata m = Some md
               /\ secs !! i = Some s
               /\ Text s = default (VStr "") (md !! "text")
               /\ Page s = default (VInt (-1)) (md !! "chunk_id"))
       /\ (matches resp = [] -> secs = []).
Proof.
  intros st q v t0 t1 mds resp run.
  assert (He : respond Demo.env (EmbedQuery (EmbRef 0) q) (world st)
               = (Ok v, Faults.world_mixed)) by reflexivity.
  assert (Hq : respond Demo.env (Query (IndexRef 0) v 5 true) Faults.world_mixed
               = (Ok resp, Faults.world_mixed)) by reflexivity.
  assert (Hmd : match_metadata <$> matches resp = Some <$> mds) by reflexivity.
  split; [by repeat split|].
  split; [vm_compute; reflexivity|].
  exact (retrieve_related_sections_spec Demo.env q (EmbRef 0) (IndexRef 0) st
           v Faults.world_mixed resp Faults.world_mixed mds He Hq Hmd).
Defined.

Lemma initialize_pinecone_idempotent_witness :
  let st := new_session Demo.world0 in
  let first := initialize_pinecone Demo.env st in
  let second := initialize_pinecone Demo.env first.1.2 in
  (index_service Demo.env Demo.listed
   /\ first = (Ok (PcRef 0, "titanic"), first.1.2, first.2))
  /\ count is_create_index first.2 = 1
  /\ count is_create_index second.2 = 0
  /\ forall pc2 n2, second.1.1 = Ok (pc2, n2) -> n2 = "titanic".
Proof.
  intros st first second.
  assert (Hfirst : first = (Ok (PcRef 0, "titanic"), first.1.2, first.2))
    by (vm_compute; reflexivity).
  assert (Hsecond : initialize_pinecone Demo.env first.1.2
                    = (second.1.1, second.1.2, second.2))
    by (rewrite <- !surjective_pairing; reflexivity).
  split; [split; [exact Demo_index_service|exact Hfirst]|].
  split; [vm_compute; reflexivity|].
  exact (initialize_pinecone_idempotent Demo.env Demo.listed st (PcRef 0) "titanic"
           first.1.2 first.2 second.1.1 second.1.2 second.2
           Demo_index_service Hfirst Hsecond).
Defined.

Lemma generate_response_spec_witness :
  let st := new_session Demo.world0 in
  let q := "What is the survival rate?" in
  let secs := [{| Text := VStr "The overall survival rate was about 38 percent.";
                  Page := VFloat (QArith_base.Qmake 0 1) |};
               {| Text := VStr "First class carried 216 passengers.";
                  Page := VInt 1 |}] in
  let pts := [(0%Z, "The overall survival rate was about 38 percent.");
              (1%Z, "First class carried 216 passengers.")] in
  let request :=
    ChatCreate (OpenAIRef 0)
      [{| role := "user";
          content := "
        You are a knowledgeable assistant specializing in Titanic Data Analysis.
        Use the following context information to address the user's query.

        Context:
        Page 0:
The overall survival rate was about 38 percent.

Page 1:
First class carried 216 passengers.

        User Query:
        What is the survival rate?

        Generate a clear, precise, and actionable response.
    " |}]
      "gpt-4o-mini" in
  let resp := {| choices := [{| message := {| msg_content := Some Demo.answer |} |}] |} in
  let w1 := Demo.fresh Demo.world0 in
  Forall2 (fun s pt => Text s = VStr pt.2
                       /\ (Page s = VInt pt.1
                           \/ Page s = VFloat (QArith_base.Qmake pt.1 1))) secs pts
  /\ generate_response Demo.env q secs st =
       (Ok (Some Demo.answer), set_world st w1,
        [Ev (OpenAINew (Some "demo-key")) (Ok (OpenAIRef 0)); Ev request (Ok resp)])
  /\ count is_chat (generate_response Demo.env q secs st).2 = 1.
Proof.
  intros st q secs pts request resp w1.
  assert (Hpts : Forall2 (fun s pt => Text s = VStr pt.2
                            /\ (Page s = VInt pt.1
                                \/ Page s = VFloat (QArith_base.Qmake pt.1 1))) secs pts)
    by (constructor; [split; [done|by right]
                     |constructor; [split; [done|by left]|constructor]]).
  split; [exact Hpts|].
  exact (generate_response_spec Demo.env q secs pts st (OpenAIRef 0) w1 resp w1
           {| message := {| msg_content := Some Demo.answer |} |} []
           Hpts eq_refl eq_refl eq_refl).
Defined.

Lemma ingestion_failure_aborts_witness :
  let st := new_session Demo.world_quota1 in
  let run := generate_and_upload_embeddings Demo.env Demo.pages (Some (IndexRef 0)) st in
  let x := ServiceError "RESOURCE_EXHAUSTED" in
  let text1 := "First class carried 216 passengers." in
  let ev := Ev (Upsert (IndexRef 0)
                  [(chunk_entry_id 1, Demo.vector_of text1, chunk_metadata 1 text1)])
               (Raise x) in
  let pre := take 4 run.2 in
  (run.2 = pre ++ ev :: [] /\ is_embed ev || is_upsert ev = true /\ failed ev = Some x)
  /\ run.1.1 = Raise x
  /\ Forall (fun a => failed a = None) pre
  /\ exists (h : EmbHandle) (k : nat) (chunk : Document) (vs : list Vector)
            (tail : list Event),
       Demo.pages !! k = Some chunk /\ length vs = k
       /\ fails_at h (IndexRef 0) k chunk x tail
       /\ pre ++ [ev] =
            Ev (HFEmbeddingsNew embedding_model) (Ok h)
              :: ok_events h (IndexRef 0) 0 (zip (take k Demo.pages) vs) ++ tail.
Proof.
  intros st run x text1 ev pre.
  assert (Hrun : generate_and_upload_embeddings Demo.env Demo.pages (Some (IndexRef 0)) st
                 = (run.1.1, run.1.2, run.2))
    by (rewrite <- !surjective_pairing; reflexivity).
  assert (Hlog : run.2 = pre ++ ev :: []) by (vm_compute; reflexivity).
  assert (Hkind : is_embed ev || is_upsert ev = true) by reflexivity.
  assert (Hfail : failed ev = Some x) by reflexivity.
  split; [by repeat split|].
  destruct (ingestion_failure_aborts Demo.env Demo.pages (IndexRef 0) st
              run.1.1 run.1.2 run.2 pre [] ev x Hrun Hlog Hkind Hfail)
    as (Hr & _ & Hpre & Hshape).
  by repeat split.
Defined.

Lemma single_shared_handle_counterexample :
  ~ single_shared_handle Demo.session_log.
Proof.
  intros [h [Hbuilt _]]. vm_compute in Hbuilt. discriminate Hbuilt.
Qed.

Lemma embedding_handles_and_dimension_witness :
  let st := new_session Demo.world0 in
  let run := generate_and_upload_embeddings Demo.env Demo.pages (Some (IndexRef 0)) st in
  let provisioning := initialize_pinecone Demo.env st in
  embeds_768 Demo.env
  /\ constructed_handles Demo.session_log = [EmbRef 0; EmbRef 3]
  /\ embed_handles Demo.session_log = [EmbRef 3; EmbRef 3; EmbRef 0]
  /\ ((exists (r0 : Res EmbHandle) (rest : list Event),
          run.2 = Ev (HFEmbeddingsNew "sentence-transformers/all-mpnet-base-v2") r0 :: rest
          /\ constructed_handles rest = []
          /\ match r0 with
             | Ok h => Forall (eq h) (embed_handles rest)
             | Raise _ => rest = []
             end)
      /\ (forall v, v ∈ sent_vectors run.2 -> v ∈ returned_vectors run.2))
  /\ Forall (eq 768%Z) (created_dimensions provisioning.2)
  /\ created_dimensions provisioning.2 = [768%Z]
  /\ Forall (fun v : Vector => length v = 768) (sent_vectors run.2)
  /\ length (sent_vectors run.2) = 2.
Proof.
  intros st run provisioning.
  assert (Hrun : generate_and_upload_embeddings Demo.env Demo.pages (Some (IndexRef 0)) st
                 = (run.1.1, run.1.2, run.2))
    by (rewrite <- !surjective_pairing; reflexivity).
  assert (Hprov : initialize_pinecone Demo.env st
                  = (provisioning.1.1, provisioning.1.2, provisioning.2))
    by (rewrite <- !surjective_pairing; reflexivity).
  destruct (embedding_handles_and_dimension Demo.env)
    as (Hingest & _ & _ & _ & Hcreate & Hdim).
  split; [exact Demo_embeds_768|].
  split; [vm_compute; reflexivity|]. split; [vm_compute; reflexivity|].
  split; [exact (Hingest _ _ _ _ _ _ Hrun)|].
  split; [exact (Hcreate _ _ _ _ Hprov)|].
  split; [vm_compute; reflexivity|].
  split; [exact (proj1 (Hdim Demo_embeds_768) _ _ _ _ _ _ Hrun)|].
  vm_compute; reflexivity.
Defined.

Lemma chunks_of_2200_counterexample :
  let lengths :=
    SpecChunker.char_length
      <$> (page_content <$> SpecChunker.split_documents 1000 50 [Demo.page_2200]) in
  SpecChunker.char_length (page_content Demo.page_2200) = 2200
  /\ lengths = [1000; 1000; 300]
  /\ lengths <> [1000; 1000; 200].
Proof.
  intros lengths.
  assert (Hlengths : lengths = [1000; 1000; 300]) by (vm_compute; reflexivity).
  split; [vm_compute; reflexivity|]. split; [exact Hlengths|].
  rewrite Hlengths. intros [=].
Qed.

Lemma chunks_of_2200_witness :
  let chunks := SpecChunker.split_documents 1000 50 [Demo.page_2200_accented] in
  let texts := page_content <$> chunks in
  (SpecChunker.char_length (page_content Demo.page_2200_accented) = 2200
   /\ String.length (page_content Demo.page_2200_accented) = 4400)
  /\ SpecChunker.char_length <$> texts = [1000; 1000; 300]
  /\ chunk_entry_id <$> seq 0 (length chunks) = ["chunk-0"; "chunk-1"; "chunk-2"]
  /\ Forall (fun t => SpecChunker.char_length t <= 1000) texts
  /\ SpecChunker.consecutive_share 50 texts.
Proof.
  intros chunks texts.
  assert (Hlen : SpecChunker.char_length (page_content Demo.page_2200_accented) = 2200)
    by (vm_compute; reflexivity).
  split; [split; [exact Hlen|vm_compute; reflexivity]|].
  exact (chunks_of_2200 Demo.page_2200_accented Hlen).
Defined.

Lemma retrieve_missing_fields_witness :
  let st := new_session Demo.world_foreign in
  let q := "What is the survival rate?" in
  let v := Demo.vector_of q in
  let md : gmap string PyVal := {["source" := VStr "elsewhere"]} in
  let resp := {| matches := [{| match_id := "doc-1";
                                 match_score := QArith_base.Qmake 0 1;
                                 match_metadata := Some md |}] |} in
  (respond Demo.env (EmbedQuery (EmbRef 0) q) (world st) = (Ok v, Demo.world_foreign)
   /\ respond Demo.env (Query (IndexRef 0) v 5 true) Demo.world_foreign
      = (Ok resp, Demo.world_foreign)
   /\ match_metadata <$> matches resp = Some <$> [md]
   /\ md !! "text" = None /\ md !! "chunk_id" = None)
  /\ exists secs,
       (retrieve_related_sections Demo.env q (EmbRef 0) (Some (IndexRef 0)) st).1.1 = Ok secs
       /\ length secs = 1
       /\ exists s, secs !! 0 = Some s /\ Text s = VStr "" /\ Page s = VInt (-1).
Proof.
  intros st q v md resp.
  assert (He : respond Demo.env (EmbedQuery (EmbRef 0) q) (world st)
               = (Ok v, Demo.world_foreign)) by reflexivity.
  assert (Hq : respond Demo.env (Query (IndexRef 0) v 5 true) Demo.world_foreign
               = (Ok resp, Demo.world_foreign)) by reflexivity.
  assert (Hmd : match_metadata <$> matches resp = Some <$> [md]) by reflexivity.
  assert (Ht : md !! "text" = None) by reflexivity.
  assert (Hc : md !! "chunk_id" = None) by reflexivity.
  split; [by repeat split|].
  destruct (retrieve_missing_fields Demo.env q (EmbRef 0) (IndexRef 0) st
              v Demo.world_foreign resp Demo.world_foreign [md] He Hq Hmd)
    as (secs & Hrun & Hlen & Hfields).
  exists secs. split; [exact Hrun|]. split; [exact Hlen|].
  destruct (Hfields 0 md eq_refl) as (s & Hs & Htext & Hpage & _).
  exists s. split; [exact Hs|]. split; [exact (Htext Ht)|exact (Hpage Hc)].
Defined.

(** * Further runs in the small world *)

Lemma ingestion_ids_distinct_witness :
  let st := new_session Demo.world_quota1 in
  let run := generate_and_upload_embeddings Demo.env Demo.pages (Some (IndexRef 0)) st in
  upsert_ids run.2 = ["chunk-0"; "chunk-1"]
  /\ (exists k, k <= length Demo.pages
                /\ upsert_ids run.2 = (fun i => "chunk-" +:+ dec_nat i) <$> seq 0 k
                /\ (run.1.1 = Ok tt -> k = length Demo.pages))
  /\ NoDup (upsert_ids run.2).
Proof.
  intros st run.
  assert (Hrun : generate_and_upload_embeddings Demo.env Demo.pages (Some (IndexRef 0)) st
                 = (run.1.1, run.1.2, run.2))
    by (rewrite <- !surjective_pairing; reflexivity).
  split; [vm_compute; reflexivity|].
  exact (ingestion_ids_distinct Demo.env Demo.pages (IndexRef 0) st
           run.1.1 run.1.2 run.2 Hrun).
Defined.

Lemma stored_chunks_read_back_witness :
  let st := new_session Faults.world_ingested in
  let q := "What is the survival rate?" in
  let v := Demo.vector_of q in
  let t0 := "The overall survival rate was about 38 percent." in
  let t1 := "First class carried 216 passengers." in
  let mds : list (gmap string PyVal) :=
    [{["chunk_id" := VInt 1; "text" := VStr t1]};
     {["chunk_id" := VFloat (QArith_base.Qmake 0 1); "text" := VStr t0]}] in
  let its := [(1, t1); (0, t0)] in
  let resp := {| matches := Demo.match_of true <$> Demo.store Faults.world_ingested |} in
  (respond Demo.env (EmbedQuery (EmbRef 0) q) (world st) = (Ok v, Faults.world_ingested)
   /\ respond Demo.env (Query (IndexRef 0) v 5 true) Faults.world_ingested
      = (Ok resp, Faults.world_ingested)
   /\ match_metadata <$> matches resp = Some <$> mds)
  /\ exists secs,
       (retrieve_related_sections Demo.env q (EmbRef 0) (Some (IndexRef 0)) st).1.1 = Ok secs
       /\ Text <$> secs = (fun it => VStr it.2) <$> its
       /\ forall s : @St Demo.World,
            section_texts Demo.env secs s =
              (Ok ((fun it => "Page " +:+ NilZero.string_of_int (Z.to_int (Z.of_nat it.1)) +:+ ":
" +:+ it.2) <$> its), s, []).
Proof.
  intros st q v t0 t1 mds its resp.
  assert (He : respond Demo.env (EmbedQuery (EmbRef 0) q) (world st)
               = (Ok v, Faults.world_ingested)) by reflexivity.
  assert (Hq : respond Demo.env (Query (IndexRef 0) v 5 true) Faults.world_ingested
               = (Ok resp, Faults.world_ingested)) by reflexivity.
  assert (Hmd : match_metadata <$> matches resp = Some <$> mds) by reflexivity.
  assert (Hits : Forall2 (fun md it =>
                   md = {["chunk_id" := VInt (Z.of_nat it.1); "text" := VStr it.2]}
                   \/ md = {["chunk_id" := VFloat (QArith_base.Qmake (Z.of_nat it.1) 1);
                             "text" := VStr it.2]}) mds its)
    by (constructor; [by left|constructor; [by right|constructor]]).
  split; [by repeat split|].
  exact (stored_chunks_read_back Demo.env q (EmbRef 0) (IndexRef 0) st v
           Faults.world_ingested resp Faults.world_ingested mds its He Hq Hmd Hits).
Defined.

Lemma ingestion_call_counts_witness :
  let st := new_session Demo.world_quota1 in
  let run := generate_and_upload_embeddings Demo.env Demo.pages (Some (IndexRef 0)) st in
  (count is_embed run.2 = 2 /\ count is_upsert run.2 = 2)
  /\ count is_hf_new run.2 = 1
  /\ count is_upsert run.2 <= count is_embed run.2
  /\ count is_embed run.2 <= length Demo.pages
  /\ count is_embed run.2 <= S (count is_upsert run.2)
  /\ (run.1.1 = Ok tt -> count is_upsert run.2 = length Demo.pages).
Proof.
  intros st run.
  assert (Hrun : generate_and_upload_embeddings Demo.env Demo.pages (Some (IndexRef 0)) st
                 = (run.1.1, run.1.2, run.2))
    by (rewrite <- !surjective_pairing; reflexivity).
  split; [split; vm_compute; reflexivity|].
  exact (ingestion_call_counts Demo.env Demo.pages (Some (IndexRef 0)) st
           run.1.1 run.1.2 run.2 Hrun).
Defined.


Lemma retrieve_calls_witness :
  let st := new_session Demo.world0 in
  let q := "What is the survival rate?" in
  let run := retrieve_related_sections Demo.env q (EmbRef 0) None st in
  run.1.1 = Raise (AttributeError "query")
  /\ ((exists r0 : Res Vector,
          run.2 = [Ev (EmbedQuery (EmbRef 0) q) r0]
          /\ match r0 with
             | Ok _ => @None IndexHandle = None /\ run.1.1 = Raise (AttributeError "query")
             | Raise x => run.1.1 = Raise x
             end)
      \/ (exists (v : Vector) idx (r1 : Res QueryResponse),
            None = Some idx
            /\ run.2 = [Ev (EmbedQuery (EmbRef 0) q) (Ok v); Ev (Query idx v 5 true) r1]
            /\ forall x, r1 = Raise x -> run.1.1 = Raise x)).
Proof.
  intros st q run.
  assert (Hrun : retrieve_related_sections Demo.env q (EmbRef 0) None st
                 = (run.1.1, run.1.2, run.2))
    by (rewrite <- !surjective_pairing; reflexivity).
  split; [reflexivity|].
  exact (retrieve_calls Demo.env q (EmbRef 0) None st run.1.1 run.1.2 run.2 Hrun).
Defined.

Lemma retrieve_match_without_metadata_witness :
  let st := new_session Faults.world_ingested in
  let q := "What is the survival rate?" in
  let v := Demo.vector_of q in
  let resp := {| matches := Demo.match_of false <$> Demo.store Faults.world_ingested |} in
  (respond Faults.env_bare (EmbedQuery (EmbRef 0) q) (world st)
     = (Ok v, Faults.world_ingested)
   /\ respond Faults.env_bare (Query (IndexRef 0) v 5 true) Faults.world_ingested
      = (Ok resp, Faults.world_ingested)
   /\ None ∈ (match_metadata <$> matches resp))
  /\ retrieve_related_sections Faults.env_bare q (EmbRef 0) (Some (IndexRef 0)) st =
       (Raise (AttributeError "get"), set_world st Faults.world_ingested,
        [Ev (EmbedQuery (EmbRef 0) q) (Ok v); Ev (Query (IndexRef 0) v 5 true) (Ok resp)]).
Proof.
  intros st q v resp.
  assert (He : respond Faults.env_bare (EmbedQuery (EmbRef 0) q) (world st)
               = (Ok v, Faults.world_ingested)) by reflexivity.
  assert (Hq : respond Faults.env_bare (Query (IndexRef 0) v 5 true) Faults.world_ingested
               = (Ok resp, Faults.world_ingested)) by reflexivity.
  assert (Hnone : None ∈ (match_metadata <$> matches resp))
    by apply list_elem_of_here.
  split; [by repeat split|].
  exact (retrieve_match_without_metadata Faults.env_bare q (EmbRef 0) (IndexRef 0) st v
           Faults.world_ingested resp Faults.world_ingested He Hq Hnone).
Defined.

Lemma generate_response_bad_page_witness :
  let st := new_session Demo.world0 in
  let pre := [{| Text := VStr "First class carried 216 passengers."; Page := VInt 1 |}] in
  let s := {| Text := VStr "A note."; Page := VStr "seven" |} in
  (Forall (fun s0 => exists p, py_int (py Demo.env) (Page s0) = Ok p) pre
   /\ py_int (py Demo.env) (Page s) = Raise ValueError)
  /\ generate_response Demo.env "What is the survival rate?" (pre ++ s :: []) st
     = (Raise ValueError, st, []).
Proof.
  intros st pre s.
  assert (Hpre : Forall (fun s0 => exists p, py_int (py Demo.env) (Page s0) = Ok p) pre)
    by (constructor; [by exists 1%Z|constructor]).
  assert (Hs : py_int (py Demo.env) (Page s) = Raise ValueError) by reflexivity.
  split; [by split|].
  exact (generate_response_bad_page Demo.env "What is the survival rate?" pre [] s
           ValueError st Hpre Hs).
Defined.


Lemma get_result_call_counts_witness :
  let st := new_session Faults.world_ingested in
  let q := "What is the survival rate?" in
  let run := get_result Demo.env q (EmbRef 0) (Some (IndexRef 0)) st in
  run.1.1 = Ok (Some Demo.answer)
  /\ count is_embed run.2 = 1
  /\ count is_query run.2 <= 1
  /\ count is_openai_new run.2 <= 1
  /\ count is_chat run.2 <= count is_openai_new run.2
  /\ count is_openai_new run.2 <= count is_query run.2
  /\ count is_ingestion_call run.2 = 0.
Proof.
  intros st q run.
  assert (Hrun : get_result Demo.env q (EmbRef 0) (Some (IndexRef 0)) st
                 = (run.1.1, run.1.2, run.2))
    by (rewrite <- !surjective_pairing; reflexivity).
  split; [vm_compute; reflexivity|].
  exact (get_result_call_counts Demo.env q (EmbRef 0) (Some (IndexRef 0)) st
           run.1.1 run.1.2 run.2 Hrun).
Defined.

Lemma initialize_pinecone_cases_witness :
  let st := new_session Demo.world0 in
  let run := initialize_pinecone Demo.env st in
  let new := PineconeNew (Some "demo-key") in
  run = (Ok (PcRef 0, "titanic"), run.1.2,
         [Ev new (Ok (PcRef 0)); Ev (ListIndexNames (PcRef 0)) (Ok []);
          Ev (CreateIndex (PcRef 0) "titanic" 768 "euclidean"
                {| cloud := "aws"; region := "us-east-1" |}) (Ok tt)])
  /\ ((exists x, run.2 = [Ev new (Raise x)] /\ run.1.1 = Raise x)
      \/ (exists pc x,
            run.2 = [Ev new (Ok pc); Ev (ListIndexNames pc) (Raise x)]
            /\ run.1.1 = Raise x)
      \/ (exists pc names,
            "titanic" ∈ names
            /\ run.2 = [Ev new (Ok pc); Ev (ListIndexNames pc) (Ok names)]
            /\ run.1.1 = Ok (pc, "titanic"))
      \/ (exists pc names (r2 : Res unit),
            ("titanic" ∉ names)
            /\ run.2 = [Ev new (Ok pc); Ev (ListIndexNames pc) (Ok names);
                        Ev (CreateIndex pc "titanic" 768 "euclidean"
                              {| cloud := "aws"; region := "us-east-1" |}) r2]
            /\ run.1.1 = match r2 with
                         | Ok _ => Ok (pc, "titanic")
                         | Raise x => Raise x
                         end)).
Proof.
  intros st run new.
  assert (Hrun : initialize_pinecone Demo.env st = (run.1.1, run.1.2, run.2))
    by (rewrite <- !surjective_pairing; reflexivity).
  split; [vm_compute; reflexivity|].
  exact (initialize_pinecone_cases Demo.env st run.1.1 run.1.2 run.2 Hrun).
Defined.

Lemma failed_start_keeps_landing_witness :
  let st := Faults.landed_quota1 in
  let run := start_action Demo.env st in
  run.1.1 = Raise (ServiceError "RESOURCE_EXHAUSTED")
  /\ count is_upsert run.2 = 2
  /\ page (session st) = Some "first_page"
  /\ page (session run.1.2) = page (session st)
  /\ index_initialized (session run.1.2) = index_initialized (session st)
  /\ embeddings (session run.1.2) = embeddings (session st).
Proof.
  intros st run.
  assert (Hrun : start_action Demo.env st
                 = (Raise (ServiceError "RESOURCE_EXHAUSTED"), run.1.2, run.2))
    by (vm_compute; reflexivity).
  split; [vm_compute; reflexivity|].
  split; [vm_compute; reflexivity|].
  split; [vm_compute; reflexivity|].
  exact (failed_start_keeps_landing Demo.env st (ServiceError "RESOURCE_EXHAUSTED")
           run.1.2 run.2 Hrun).
Defined.

Lemma session_states_witness :
  let inps := [Demo.load; Demo.click; Demo.ask "What is the survival rate?"] in
  let run := run_session Demo.env inps (new_session Demo.world0) in
  page (session run.1) = Some "chatbot"
  /\ session_ok (session run.1)
  /\ ~ (page (session run.1) = Some "first_page"
        /\ index_initialized (session run.1) = Some true)
  /\ (page (session run.1) = Some "chatbot" -> ready (session run.1)).
Proof.
  intros inps run.
  assert (Hrun : run_session Demo.env inps (new_session Demo.world0) = (run.1, run.2))
    by apply surjective_pairing.
  split; [vm_compute; reflexivity|].
  exact (session_states Demo.env Demo.world0 inps run.1 run.2 Hrun).
Defined.

Lemma Faults_asked_ready : ready (session Faults.asked).
Proof.
  split; [vm_compute; reflexivity|]. split; [vm_compute; reflexivity|].
  split; [exists (IndexRef 2)|exists (EmbRef 0)]; vm_compute; reflexivity.
Defined.

Lemma query_page_run_witness :
  let st := blank_screen Faults.asked in
  let asking := run_script Demo.env (Demo.ask "Who was in first class?") st in
  let idle := run_script Demo.env Demo.load st in
  ready (session st)
  /\ (session asking.1.2 = session st
      /\ Forall (fun ev => is_question_call ev = true) asking.2
      /\ length asking.2 = 4)
  /\ (session idle.1.2 = session st /\ idle.2 = [] /\ idle.1.1 = Ok tt).
Proof.
  intros st asking idle.
  assert (Hask : run_script Demo.env (Demo.ask "Who was in first class?") st
                 = (asking.1.1, asking.1.2, asking.2))
    by (rewrite <- !surjective_pairing; reflexivity).
  assert (Hidle : run_script Demo.env Demo.load st = (idle.1.1, idle.1.2, idle.2))
    by (rewrite <- !surjective_pairing; reflexivity).
  split; [exact Faults_asked_ready|].
  destruct (query_page_run Demo.env _ st _ _ _ Faults_asked_ready Hask)
    as (Hs & Hq & _).
  destruct (query_page_run Demo.env _ st _ _ _ Faults_asked_ready Hidle)
    as (Hs' & _ & Hempty).
  split; [split; [exact Hs|split; [exact Hq|vm_compute; reflexivity]]|].
  split; [exact Hs'|exact (Hempty eq_refl)].
Defined.

Lemma query_page_display_witness :
  let st := Faults.asked in
  let inp := Demo.ask "Who was in first class?" in
  let answered := get_result Demo.env (text_value inp) (EmbRef 0) (Some (IndexRef 2))
                    (on_query_screen st) in
  let run := run_script Demo.env inp (blank_screen st) in
  answered.1.1 = Ok (Some Demo.answer)
  /\ run = (Ok tt,
            add_ui (UiWrite ("Response: " +:+ Demo.answer)) answered.1.2,
            answered.2)
  /\ ui run.1.2 = query_screen ++ [UiWrite ("Response: " +:+ Demo.answer)].
Proof.
  intros st inp answered run.
  assert (Hans : get_result Demo.env (text_value inp) (EmbRef 0) (Some (IndexRef 2))
                   (on_query_screen st)
                 = (Ok (Some Demo.answer), answered.1.2, answered.2))
    by (vm_compute; reflexivity).
  split; [vm_compute; reflexivity|].
  split; [|vm_compute; reflexivity].
  exact (query_page_display Demo.env inp (EmbRef 0) (IndexRef 2) st
           (Ok (Some Demo.answer)) answered.1.2 answered.2
           ltac:(vm_compute; reflexivity) ltac:(vm_compute; reflexivity)
           ltac:(vm_compute; reflexivity) ltac:(vm_compute; reflexivity)
           ltac:(discriminate) Hans).
Defined.

Lemma session_calls_fixed_witness :
  let inps := [Demo.load; Demo.click; Demo.ask "What is the survival rate?"] in
  let run := run_session Demo.env inps (new_session Demo.world0) in
  length run.2 = 16
  /\ Forall (fixed_config Demo.env) run.2.
Proof.
  intros inps run.
  assert (Hrun : run_session Demo.env inps (new_session Demo.world0) = (run.1, run.2))
    by apply surjective_pairing.
  split; [vm_compute; reflexivity|].
  exact (session_calls_fixed Demo.env inps (new_session Demo.world0) run.1 run.2 Hrun).
Defined.
